(** * E-commerce product recommender: ranking core and explanation generator

    A shallow embedding of [recommender_engine.py] ([RecommenderEngine] and
    [LLMExplainer]) together with the properties its specification states.

    Layout.  Definitions first:
    - [F64]: the binary64 numbers Python's [float] and NumPy's [float64] are;
    - [Py]: the Python builtins the engine relies on (slices, [sorted],
      insertion-ordered [dict]s, sets as insertion histories, strings);
    - the data model (product and interaction frames, the engine state);
    - [Pd] and [Runtime]: what the engine obtains from pandas, NumPy,
      scikit-learn and the interpreter, with the contracts of those
      libraries;
    - the engine's methods, then the explainer;
    - the notions the specification uses, a reference runtime and example
      datasets.
    Then the properties: facts about floats, lists and the loops, and for
    each claim C1 to C10 the theorem, preceded by a counterexample where
    the claim as stated fails on the code. *)

From Stdlib Require Import String Ascii DecimalString.
From Stdlib Require Import ZArith List Bool Lia Permutation SpecFloat.
Import ListNotations.

Set Implicit Arguments.

Local Open Scope Z_scope.

(* ===================================================================== *)
(** * Binary64 arithmetic *)
(* ===================================================================== *)

Module F64.

(** IEEE-754 binary64, through the executable specification of the standard
    library: 53 bits of precision, infinities at exponent 1024, results
    rounded to nearest, ties to even.  These are the semantics of Python's
    [float] and of NumPy's [float64]. *)
Definition t := spec_float.

Definition prec : Z := 53.
Definition emax : Z := 1024.

Definition add : t -> t -> t := SFadd prec emax.
Definition mul : t -> t -> t := SFmul prec emax.
Definition div : t -> t -> t := SFdiv prec emax.
Definition sqrt : t -> t := SFsqrt prec emax.
Definition ltb : t -> t -> bool := SFltb.
Definition eqb : t -> t -> bool := SFeqb.

(** Conversion of a Python [int]; exact below [2^53]. *)
Definition of_Z (z : Z) : t := binary_normalize prec emax z 0 false.
Definition of_nat (n : nat) : t := of_Z (Z.of_nat n).

Definition zero : t := S754_zero false.
Definition one : t := Eval vm_compute in of_Z 1.

(** The literals [0.6] and [0.4]: the doubles nearest to six and four
    tenths, [0x1.3333333333333p-1] and [0x1.999999999999ap-2]. *)
Definition lit_0_6 : t := S754_finite false 5404319552844595 (-53).
Definition lit_0_4 : t := S754_finite false 7205759403792794 (-54).

Definition is_nan (x : t) : bool :=
  match x with S754_nan => true | _ => false end.

(** Ordinary non-negative values: [+0.0], positive finite numbers and
    [+inf].  Cosine similarities of non-negative vectors and the positional
    scores of the hybrid ranker are of this kind. *)
Definition nonneg (x : t) : bool :=
  match x with
  | S754_zero false | S754_finite false _ _ | S754_infinity false => true
  | _ => false
  end.

(** [x > 0], as NumPy evaluates it. *)
Definition gt0 (x : t) : bool := ltb zero x.

(** Two values neither of which is below the other: a tie for [sorted]. *)
Definition tied (x y : t) : bool := negb (ltb x y) && negb (ltb y x).

(** A float that is not NaN sits at a point of a lexicographic order:
    class (negative infinity, negative, zero, positive, positive infinity),
    then exponent, then mantissa. *)
Definition rank (x : t) : Z * Z * Z :=
  match x with
  | S754_nan => (0, 0, 0)
  | S754_zero _ => (0, 0, 0)
  | S754_infinity true => (-2, 0, 0)
  | S754_infinity false => (2, 0, 0)
  | S754_finite true m e => (-1, - e, - Z.pos m)
  | S754_finite false m e => (1, e, Z.pos m)
  end.

Definition lt3 (a b : Z * Z * Z) : Prop :=
  let '(c1, e1, m1) := a in
  let '(c2, e2, m2) := b in
  c1 < c2 \/ (c1 = c2 /\ (e1 < e2 \/ (e1 = e2 /\ m1 < m2))).

End F64.

(* ===================================================================== *)
(** * Python builtins *)
(* ===================================================================== *)

Module Py.

(** The exceptions the modelled code can raise. *)
Inductive exn : Type :=
| IndexError   (* position outside an array or a frame *)
| KeyError     (* label absent from an index *)
| ValueError.  (* scikit-learn input validation *)

Inductive result (A : Type) : Type :=
| Ok (a : A)
| Raise (e : exn).

Arguments Ok {A} a.
Arguments Raise {A} e.

Definition bind {A B : Type} (c : result A) (k : A -> result B) : result B :=
  match c with
  | Ok a => k a
  | Raise e => Raise e
  end.

Definition of_option {A : Type} (e : exn) (o : option A) : result A :=
  match o with
  | Some a => Ok a
  | None => Raise e
  end.

(** ** Slices: [l[start:stop]] with Python's treatment of negative and
    out-of-range bounds. *)
Definition clamp (len i : Z) : Z :=
  if i <? 0 then Z.max (i + len) 0 else Z.min i len.

Definition slice {A : Type} (start stop : Z) (l : list A) : list A :=
  let len := Z.of_nat (length l) in
  let s := clamp len start in
  let e := clamp len stop in
  firstn (Z.to_nat (e - s)) (skipn (Z.to_nat s) l).

(** [l[:n]] *)
Definition slice_to {A : Type} (n : Z) (l : list A) : list A := slice 0 n l.

(** [a[i]] for an integer position: negative positions count from the end,
    anything else outside the array raises [IndexError]. *)
Definition index {A : Type} (l : list A) (i : Z) : result A :=
  let len := Z.of_nat (length l) in
  let j := if i <? 0 then i + len else i in
  if (0 <=? j) && (j <? len)
  then of_option IndexError (nth_error l (Z.to_nat j))
  else Raise IndexError.

(** ** [sorted(items, key=..., reverse=...)].

    CPython sorts a short list by insertion: each element in turn (the
    pivot) goes after every element that the pivot is not below, so equal
    keys keep their order.  With [reverse=True] the list is reversed, sorted
    in the same way, and reversed again, which keeps equal keys in their
    original order too.  Only [<] on keys is used. *)
Section Sorted.
Variable A : Type.
Variable key : A -> F64.t.

Fixpoint insert (pivot : A) (l : list A) : list A :=
  match l with
  | [] => [pivot]
  | y :: l' =>
      if F64.ltb (key pivot) (key y) then pivot :: l
      else y :: insert pivot l'
  end.

Definition sort_asc (l : list A) : list A :=
  fold_left (fun acc pivot => insert pivot acc) l [].

Definition sorted (reverse : bool) (l : list A) : list A :=
  if reverse then rev (sort_asc (rev l)) else sort_asc l.

(** The list [sorted] builds before the final reversal. *)
Definition sort_rev (l : list A) : list A := fold_right insert [] l.

End Sorted.

(** ** [dict] with integer keys: an association list in insertion order,
    which is the order [items()] iterates in. *)
Section Dict.
Variable V : Type.

Definition dict := list (Z * V).

Fixpoint dict_get (k : Z) (d : dict) : option V :=
  match d with
  | [] => None
  | (k', v) :: d' => if k =? k' then Some v else dict_get k d'
  end.

Definition dict_mem (k : Z) (d : dict) : bool :=
  match dict_get k d with Some _ => true | None => false end.

(** [d[k] = v]: an existing key keeps its place, a new key goes last. *)
Fixpoint dict_set (k : Z) (v : V) (d : dict) : dict :=
  match d with
  | [] => [(k, v)]
  | (k', v') :: d' =>
      if k =? k' then (k, v) :: d' else (k', v') :: dict_set k v d'
  end.

End Dict.

(** ** [set] of integers.  A set is represented by its insertion history
    (distinct elements, first insertion first); the order in which it is
    iterated is the interpreter's business, see [Runtime]. *)
Definition pyset := list Z.

Definition mem (x : Z) (l : list Z) : bool := existsb (Z.eqb x) l.

Definition set_add (x : Z) (s : pyset) : pyset :=
  if mem x s then s else s ++ [x].

Definition set_of_list (l : list Z) : pyset :=
  fold_left (fun s x => set_add x s) l [].

(** ** [enumerate] *)
Definition enumerate {A : Type} (l : list A) : list (nat * A) :=
  combine (seq 0 (length l)) l.

(** ** Strings *)
Definition lower_ascii (c : ascii) : ascii :=
  let n := nat_of_ascii c in
  if (65 <=? n)%nat && (n <=? 90)%nat then ascii_of_nat (n + 32) else c.

(** [str.isascii()]: every character is below 128. *)
Definition isascii (s : string) : bool :=
  forallb (fun c => (nat_of_ascii c <? 128)%nat) (list_ascii_of_string s).

(** [str.lower()] of a string of ASCII characters: only [A-Z] change.  On
    other characters the method follows the Unicode tables, which are not
    modelled: statements about lowered text take [isascii] as a
    hypothesis. *)
Fixpoint lower (s : string) : string :=
  match s with
  | EmptyString => EmptyString
  | String c s' => String (lower_ascii c) (lower s')
  end.

(** [sub in s] *)
Fixpoint contains (sub s : string) : bool :=
  prefix sub s ||
  match s with
  | EmptyString => false
  | String _ s' => contains sub s'
  end.

(** [sep.join(l)] *)
Fixpoint join (sep : string) (l : list string) : string :=
  match l with
  | [] => EmptyString
  | [x] => x
  | x :: l' => (x ++ sep ++ join sep l')%string
  end.

(** ** ['%.2f']: the exact binary value rounded to the nearest hundredth,
    ties to even, printed in positional notation. *)
Definition round_half_even (a d : Z) : Z :=
  let q := a / d in
  match (2 * (a mod d)) ?= d with
  | Lt => q
  | Gt => q + 1
  | Eq => if Z.even q then q else q + 1
  end.

Definition digits (n : Z) : string :=
  NilZero.string_of_uint (N.to_uint (Z.to_N n)).

Definition two_digits (n : Z) : string :=
  if n <? 10 then ("0" ++ digits n)%string else digits n.

Definition sign_text (s : bool) : string :=
  if s then "-"%string else EmptyString.

Definition format_2f (x : F64.t) : string :=
  match x with
  | S754_nan => "nan"%string
  | S754_infinity s => (sign_text s ++ "inf")%string
  | S754_zero s => (sign_text s ++ "0.00")%string
  | S754_finite s m e =>
      let cents :=
        if 0 <=? e then Z.pos m * 100 * 2 ^ e
        else round_half_even (Z.pos m * 100) (2 ^ (- e)) in
      (sign_text s ++ digits (cents / 100) ++ "." ++ two_digits (cents mod 100))%string
  end.

End Py.

Notation "x <- c ;; k" := (Py.bind c (fun x => k))
  (at level 61, c at next level, right associativity).

Import Py.

(* ===================================================================== *)
(** * Data model *)
(* ===================================================================== *)

(** A row of the [products] table. *)
Module Product.
Record t : Type := {
  id : Z;
  name : string;
  category : string;
  description : string;
  price : F64.t;
  rating : F64.t
}.
End Product.

(** A row of the [interactions] table. *)
Module Interaction.
Record t : Type := {
  user_id : Z;
  product_id : Z;
  interaction_type : string;
  rating : F64.t
}.
End Interaction.

(** [products_df]: the loaded rows, and the derived ['content'] column once
    it has been assigned. *)
Record ProductsFrame : Type := {
  rows : list Product.t;
  content : option (list string)
}.

(** The state of a [RecommenderEngine] after [load_data]: both frames are
    always set (to empty frames when loading failed). *)
Record RecommenderEngine : Type := {
  products_df : ProductsFrame;
  interactions_df : list Interaction.t
}.

Definition Matrix := list (list F64.t).

(* ===================================================================== *)
(** * pandas *)
(* ===================================================================== *)

Module Pd.

(** [Series.unique()]: distinct values in order of first appearance. *)
Definition unique (l : list Z) : list Z :=
  fold_left (fun acc x => if mem x acc then acc else acc ++ [x]) l [].

Definition unique_str (l : list string) : list string :=
  fold_left (fun acc x => if existsb (String.eqb x) acc then acc else acc ++ [x]) l [].

(** The sorted distinct labels of a group-by axis. *)
Fixpoint insert_label (x : Z) (l : list Z) : list Z :=
  match l with
  | [] => [x]
  | y :: l' =>
      if x <? y then x :: l
      else if x =? y then l
      else y :: insert_label x l'
  end.

Definition sorted_unique (l : list Z) : list Z := fold_right insert_label [] l.

(** Reductions skip missing values (NaN). *)
Definition dropna (l : list F64.t) : list F64.t :=
  filter (fun x => negb (F64.is_nan x)) l.

(** The mean of the values present, summed from left to right.  pandas
    sums a group with compensation and NumPy sums long arrays pairwise;
    either can differ from this sum in the last bit, and no statement of
    this development depends on how a mean is rounded. *)
Definition mean (l : list F64.t) : F64.t :=
  let v := dropna l in
  F64.div (fold_left F64.add v F64.zero) (F64.of_nat (length v)).

Definition min (l : list F64.t) : F64.t :=
  match dropna l with
  | [] => S754_nan
  | x :: v => fold_left (fun m y => if F64.ltb y m then y else m) v x
  end.

Definition max (l : list F64.t) : F64.t :=
  match dropna l with
  | [] => S754_nan
  | x :: v => fold_left (fun m y => if F64.ltb m y then y else m) v x
  end.

(** [pivot_table(index='user_id', columns='product_id', values='rating',
    fill_value=0)]: one row per user and one column per product among the
    rows whose rating is present, labels ascending; a cell is the mean of
    the ratings of its (user, product) pair and [0] where there is none. *)
Record PivotTable : Type := {
  index : list Z;
  columns : list Z;
  values : Matrix
}.

Definition cell (data : list Interaction.t) (u p : Z) : F64.t :=
  match filter (fun r => (Interaction.user_id r =? u) && (Interaction.product_id r =? p)) data with
  | [] => F64.zero
  | rs => mean (map Interaction.rating rs)
  end.

Definition pivot_table (data : list Interaction.t) : PivotTable :=
  let present := filter (fun r => negb (F64.is_nan (Interaction.rating r))) data in
  let idx := sorted_unique (map Interaction.user_id present) in
  let cols := sorted_unique (map Interaction.product_id present) in
  {| index := idx;
     columns := cols;
     values := map (fun u => map (fun p => cell present u p) cols) idx |}.

Fixpoint position (x : Z) (l : list Z) : option nat :=
  match l with
  | [] => None
  | y :: l' => if x =? y then Some O else option_map S (position x l')
  end.

(** [frame.loc[label]]: the row with that label. *)
Definition loc (pt : PivotTable) (label : Z) : result (list F64.t) :=
  i <- of_option KeyError (position label (index pt)) ;;
  of_option IndexError (nth_error (values pt) i).

End Pd.

(* ===================================================================== *)
(** * What the libraries and the interpreter decide *)
(* ===================================================================== *)

(** The engine's results depend on choices that its own code does not make:
    the order in which a [set] is iterated, how NumPy's and pandas' default
    (unstable) sorts arrange equal values, the floating-point similarity
    kernel of scikit-learn, and the TF-IDF vectorizer.  They are collected
    here; the properties below hold for every runtime that meets the
    documented contracts. *)
Record Runtime : Type := {
  (** [list(s)] / [for x in s]: iteration order of a set, given its
      insertion history. *)
  set_iter : pyset -> list Z;
  (** [a.argsort()]: positions of [a] in ascending order of value. *)
  argsort : list F64.t -> list nat;
  (** [Series.sort_values(ascending=False)]: positions in descending order
      of value. *)
  sort_values_desc : list F64.t -> list nat;
  (** Cosine of the angle between two rows. *)
  cosine : list F64.t -> list F64.t -> F64.t;
  (** [TfidfVectorizer(stop_words='english').fit_transform(docs)]: one row
      per document, or [None] when the vectorizer rejects the corpus (empty
      vocabulary). *)
  tfidf : list string -> option Matrix
}.

(** [a] occurs before [b] in [l]. *)
Definition before {A : Type} (l : list A) (a b : A) : Prop :=
  exists l1 l2 l3, l = l1 ++ a :: l2 ++ b :: l3.

Definition no_nan (v : list F64.t) : Prop :=
  Forall (fun x => F64.is_nan x = false) v.

Definition at_pos (v : list F64.t) (i : nat) : F64.t := nth i v S754_nan.

(** Lists whose keys are numbers, and the two directions of order: no
    later element is below (above) an earlier one. *)
Section Ordered.
Variable A : Type.
Variable key : A -> F64.t.

Definition keys_ok (l : list A) : Prop := Forall (fun x => F64.is_nan (key x) = false) l.

Definition ascending (l : list A) : Prop :=
  forall a b, before l a b -> F64.ltb (key b) (key a) = false.

Definition descending (l : list A) : Prop :=
  forall a b, before l a b -> F64.ltb (key a) (key b) = false.

End Ordered.

(** Strictly increasing labels. *)
Definition increasing (l : list Z) : Prop := forall a b, before l a b -> a < b.

(** Contracts of the two sorts: a permutation of the positions, in order. *)
Record sorts_ok (rt : Runtime) : Prop := {
  argsort_perm : forall v, Permutation (argsort rt v) (seq 0 (length v));
  argsort_ascending : forall v i j, no_nan v -> before (argsort rt v) i j ->
    F64.ltb (at_pos v j) (at_pos v i) = false;
  sort_values_perm : forall v, Permutation (sort_values_desc rt v) (seq 0 (length v));
  sort_values_descending : forall v i j, no_nan v -> before (sort_values_desc rt v) i j ->
    F64.ltb (at_pos v i) (at_pos v j) = false
}.

(** Iterating a set visits each of its elements once. *)
Definition set_iter_ok (rt : Runtime) : Prop :=
  forall s, NoDup s -> Permutation (set_iter rt s) s.

(** ** scikit-learn's [cosine_similarity(X, Y)] *)
Definition is_finite (x : F64.t) : bool :=
  match x with
  | S754_zero _ | S754_finite _ _ _ => true
  | _ => false
  end.

(** Input validation: NaN and infinities are rejected with [ValueError]. *)
Definition check_array (m : Matrix) : bool := forallb (forallb is_finite) m.

Definition cosine_similarity (rt : Runtime) (X Y : Matrix) : result Matrix :=
  if check_array X && check_array Y
  then Ok (map (fun x => map (fun y => cosine rt x y) Y) X)
  else Raise ValueError.

(* ===================================================================== *)
(** * RecommenderEngine *)
(* ===================================================================== *)

(** Loops whose body may raise. *)
Fixpoint foldM {A B : Type} (f : B -> A -> result B) (l : list A) (b : B) : result B :=
  match l with
  | [] => Ok b
  | x :: l' => b' <- f b x ;; foldM f l' b'
  end.

Fixpoint mapM {A B : Type} (f : A -> result B) (l : list A) : result (list B) :=
  match l with
  | [] => Ok []
  | x :: l' => y <- f x ;; ys <- mapM f l' ;; Ok (y :: ys)
  end.

Definition is_purchase (r : Interaction.t) : bool :=
  String.eqb (Interaction.interaction_type r) "purchase".

Definition is_view (r : Interaction.t) : bool :=
  String.eqb (Interaction.interaction_type r) "view".

(** [get_user_history] *)
Definition get_user_history (self : RecommenderEngine) (user_id : Z) : list Interaction.t :=
  if (length (interactions_df self) =? 0)%nat then []
  else filter (fun r => Interaction.user_id r =? user_id) (interactions_df self).

Section Engine.
Variable rt : Runtime.

(** ** Collaborative filtering *)

(** [set(matrix.columns[row > 0])] *)
Definition rated_products (cols : list Z) (row : list F64.t) : pyset :=
  set_of_list (map fst (filter (fun cv => F64.gt0 (snd cv)) (combine cols row))).

(** [a - b] on sets: the elements of [a], in its iteration order, that are
    not in [b], inserted into a fresh set. *)
Definition set_difference (a b : pyset) : pyset :=
  set_of_list (filter (fun x => negb (mem x b)) (set_iter rt a)).

(** [d[k] += s]; [KeyError] if [k] is absent. *)
Definition dict_iadd (k : Z) (s : F64.t) (d : dict F64.t) : result (dict F64.t) :=
  w <- of_option KeyError (dict_get k d) ;;
  Ok (dict_set k (F64.add w s) d).

(** Lines 72-79: the target's column of the user-user similarity frame,
    sorted by descending similarity, entries two to six. *)
Definition similar_users (pt : Pd.PivotTable) (user_id : Z) : result (list (Z * F64.t)) :=
  user_similarity <- cosine_similarity rt (Pd.values pt) (Pd.values pt) ;;
  t <- of_option KeyError (Pd.position user_id (Pd.index pt)) ;;
  col <- mapM (fun row => of_option IndexError (nth_error row t)) user_similarity ;;
  series <- mapM (fun i =>
      u <- of_option IndexError (nth_error (Pd.index pt) i) ;;
      s <- of_option IndexError (nth_error col i) ;;
      Ok (u, s)) (sort_values_desc rt col) ;;
  Ok (slice 1 6 series).

(** Lines 82-92: per-product sum of the similarities of the neighbours who
    rated it, over the products the target has not rated. *)
Definition accumulate_neighbours (pt : Pd.PivotTable) (user_products : pyset)
  (neighbours : list (Z * F64.t)) : result (dict F64.t) :=
  foldM (fun recommendations us =>
      let '(similar_user_id, similarity_score) := us in
      row <- Pd.loc pt similar_user_id ;;
      let similar_user_products := rated_products (Pd.columns pt) row in
      let new_products := set_difference similar_user_products user_products in
      foldM (fun recommendations product_id =>
          let recommendations :=
            if negb (dict_mem product_id recommendations)
            then dict_set product_id F64.zero recommendations
            else recommendations in
          dict_iadd product_id similarity_score recommendations)
        (set_iter rt new_products) recommendations)
    neighbours [].

Definition collaborative_filtering (self : RecommenderEngine) (user_id : Z)
  (n_recommendations : Z) : result (list Z) :=
  if (length (interactions_df self) =? 0)%nat then Ok [] else
  let purchase_data := filter is_purchase (interactions_df self) in
  if (length purchase_data =? 0)%nat then Ok [] else
  let user_product_matrix := Pd.pivot_table purchase_data in
  if negb (mem user_id (Pd.index user_product_matrix)) then Ok [] else
  neighbours <- similar_users user_product_matrix user_id ;;
  target_row <- Pd.loc user_product_matrix user_id ;;
  let user_products := rated_products (Pd.columns user_product_matrix) target_row in
  recommendations <- accumulate_neighbours user_product_matrix user_products neighbours ;;
  let top_products := sorted (@snd Z F64.t) true recommendations in
  Ok (map fst (slice_to n_recommendations top_products)).

(** ** Content-based filtering *)

(** Lines 102-112: the seed products. *)
Definition seed_products (self : RecommenderEngine) (user_id : Z) : list Z :=
  let user_purchases := Pd.unique (map Interaction.product_id
      (filter (fun r => (Interaction.user_id r =? user_id) && is_purchase r)
              (interactions_df self))) in
  if (length user_purchases =? 0)%nat then
    let user_views := Pd.unique (map Interaction.product_id
        (filter (fun r => (Interaction.user_id r =? user_id) && is_view r)
                (interactions_df self))) in
    if (0 <? length user_views)%nat then slice_to 3 user_views else [1; 2; 3]
  else user_purchases.

(** Lines 114-117: [products_df['content'] = category + ' ' + description],
    assigned on the engine's own frame. *)
Definition content_column (ps : list Product.t) : list string :=
  map (fun p => (Product.category p ++ " " ++ Product.description p)%string) ps.

Definition assign_content (self : RecommenderEngine) : RecommenderEngine :=
  {| products_df := {| rows := rows (products_df self);
                       content := Some (content_column (rows (products_df self))) |};
     interactions_df := interactions_df self |}.

(** Line 126: [content_similarity[product_idx].argsort()[-6:-1][::-1]] *)
Definition similar_indices (row : list F64.t) : list nat :=
  rev (slice (-6) (-1) (argsort rt row)).

(** Lines 123-131: the candidates of every seed, added to one set. *)
Definition collect_similar (ps : list Product.t) (content_similarity : Matrix)
  (user_purchases : list Z) : result pyset :=
  foldM (fun recommendations product_id =>
      let product_idx := product_id - 1 in
      row <- index content_similarity product_idx ;;
      foldM (fun recommendations idx =>
          p <- of_option IndexError (nth_error ps idx) ;;
          let similar_product_id := Product.id p in
          if negb (mem similar_product_id user_purchases)
          then Ok (set_add similar_product_id recommendations)
          else Ok recommendations)
        (similar_indices row) recommendations)
    user_purchases [].

(** The method returns its result and leaves the engine in a new state. *)
Definition content_based_filtering (self : RecommenderEngine) (user_id : Z)
  (n_recommendations : Z) : RecommenderEngine * result (list Z) :=
  if (length (rows (products_df self)) =? 0)%nat || (length (interactions_df self) =? 0)%nat
  then (self, Ok [])
  else
    let user_purchases := seed_products self user_id in
    let self' := assign_content self in
    (self',
     tfidf_matrix <- of_option ValueError
         (tfidf rt (content_column (rows (products_df self)))) ;;
     content_similarity <- cosine_similarity rt tfidf_matrix tfidf_matrix ;;
     recommendations <- collect_similar (rows (products_df self')) content_similarity
         user_purchases ;;
     Ok (slice_to n_recommendations (set_iter rt recommendations))).

(** ** Hybrid ranking *)

(** Lines 140-151, on the two ranked lists. *)
Definition position_score (len i : nat) (weight : F64.t) : F64.t :=
  F64.mul (F64.of_Z (Z.of_nat len - Z.of_nat i)) weight.

Definition score_collab (collab_recs : list Z) : dict F64.t :=
  fold_left (fun all_recs ip =>
      dict_set (snd ip) (position_score (length collab_recs) (fst ip) F64.lit_0_6) all_recs)
    (enumerate collab_recs) [].

Definition score_content (content_recs : list Z) (all_recs : dict F64.t) : dict F64.t :=
  fold_left (fun all_recs ip =>
      let s := position_score (length content_recs) (fst ip) F64.lit_0_4 in
      match dict_get (snd ip) all_recs with
      | Some w => dict_set (snd ip) (F64.add w s) all_recs
      | None => dict_set (snd ip) s all_recs
      end)
    (enumerate content_recs) all_recs.

Definition hybrid_scores (collab_recs content_recs : list Z) : dict F64.t :=
  score_content content_recs (score_collab collab_recs).

Definition hybrid_fuse (collab_recs content_recs : list Z) (n_recommendations : Z) : list Z :=
  let sorted_recs := sorted (@snd Z F64.t) true (hybrid_scores collab_recs content_recs) in
  map fst (slice_to n_recommendations sorted_recs).

Definition hybrid_recommendations (self : RecommenderEngine) (user_id : Z)
  (n_recommendations : Z) : RecommenderEngine * result (list Z) :=
  match collaborative_filtering self user_id n_recommendations with
  | Raise e => (self, Raise e)
  | Ok collab_recs =>
      let '(self', r) := content_based_filtering self user_id n_recommendations in
      (self', content_recs <- r ;; Ok (hybrid_fuse collab_recs content_recs n_recommendations))
  end.

End Engine.

(** ** Product details and statistics *)

(** A record of [to_dict('records')]: the table's fields, and the
    ['content'] field when the frame has that column. *)
Definition ProductRecord : Type := (Product.t * option string)%type.

Definition records (df : ProductsFrame) : list ProductRecord :=
  match content df with
  | None => map (fun p => (p, None)) (rows df)
  | Some col => map (fun pc => (fst pc, Some (snd pc))) (combine (rows df) col)
  end.

(** [get_product_details] on a frame that has the table's columns.  The
    frame of a failed load ([pd.DataFrame()], line 41) has no rows and no
    column either, and line 159 raises [KeyError] on it for a non-empty
    list of ids; an engine with no product and no interaction stands here
    for the empty tables of a database that was read. *)
Definition get_product_details (self : RecommenderEngine) (product_ids : list Z)
  : list ProductRecord :=
  if (length product_ids =? 0)%nat then []
  else filter (fun r => mem (Product.id (fst r)) product_ids) (records (products_df self)).

(** A number of a statistics dictionary: the defaults are the integer [0],
    the computed values are floats. *)
Inductive pynum : Type :=
| PyInt (z : Z)
| PyFloat (x : F64.t).

Record PriceRange : Type := {
  pr_min : pynum;
  pr_max : pynum;
  pr_avg : pynum
}.

Record Statistics : Type := {
  total_products : nat;
  total_users : nat;
  total_interactions : nat;
  total_purchases : nat;
  categories : list string;
  avg_rating : pynum;
  price_range : PriceRange
}.

Definition get_statistics (self : RecommenderEngine) : Statistics :=
  let ps := rows (products_df self) in
  if (length ps =? 0)%nat || (length (interactions_df self) =? 0)%nat then
    {| total_products := 0;
       total_users := 0;
       total_interactions := 0;
       total_purchases := 0;
       categories := [];
       avg_rating := PyInt 0;
       price_range := {| pr_min := PyInt 0; pr_max := PyInt 0; pr_avg := PyInt 0 |} |}
  else
    {| total_products := length ps;
       total_users := length (Pd.unique (map Interaction.user_id (interactions_df self)));
       total_interactions := length (interactions_df self);
       total_purchases := length (filter is_purchase (interactions_df self));
       categories := Pd.unique_str (map Product.category ps);
       avg_rating := PyFloat (Pd.mean (map Product.rating ps));
       price_range := {| pr_min := PyFloat (Pd.min (map Product.price ps));
                         pr_max := PyFloat (Pd.max (map Product.price ps));
                         pr_avg := PyFloat (Pd.mean (map Product.price ps)) |} |}.

(* ===================================================================== *)
(** * LLMExplainer *)
(* ===================================================================== *)

Section Explainer.

(** Iteration order of a set of strings (string hashes are salted per
    process), given its insertion history. *)
Variable str_set_iter : list string -> list string.

(** [str(x)] of a float inside an f-string. *)
Variable float_str : F64.t -> string.

Definition category_keywords : list (string * list string) :=
  [ ("Electronics", ["headphone"; "mouse"; "charger"; "laptop"; "phone"]);
    ("Sports & Fitness", ["yoga"; "fitness"; "sport"; "gym"; "exercise"]);
    ("Books", ["book"; "novel"; "planner"]);
    ("Home & Kitchen", ["kitchen"; "pan"; "coffee"; "bottle"; "knife"]);
    ("Fashion", ["shoes"; "jacket"; "backpack"; "glasses"]) ]%string.

Definition str_set_add (x : string) (s : list string) : list string :=
  if existsb (String.eqb x) s then s else s ++ [x].

(** Lines 225-229: the categories one of whose keywords occurs in a
    purchased product's name. *)
Definition matched_categories (purchased_names : list string) : list string :=
  fold_left (fun categories name =>
      let name_lower := lower name in
      fold_left (fun categories ck =>
          if existsb (fun keyword => contains keyword name_lower) (snd ck)
          then str_set_add (fst ck) categories
          else categories)
        category_keywords categories)
    purchased_names [].

Definition generic_explanation (product : Product.t) : string :=
  ("We think you'll love this " ++ Product.name product ++ "! "
   ++ "It's highly rated (" ++ float_str (Product.rating product) ++ "/5) in the "
   ++ Product.category product ++ " category.")%string.

Definition _generate_smart_explanation (product : Product.t)
  (purchased_names : list string) : string :=
  match purchased_names with
  | [] => generic_explanation product
  | _ =>
      match matched_categories purchased_names with
      | [] => generic_explanation product
      | categories =>
          let category_text := join " and " (str_set_iter categories) in
          ("Based on your interest in " ++ category_text ++ ", we recommend this "
           ++ Product.name product ++ ". It has a " ++ float_str (Product.rating product)
           ++ "/5 rating and offers "
           ++ "excellent value at $" ++ format_2f (Product.price product) ++ ".")%string
      end
  end.

(** [generate_explanation]: the names of the catalog products the user
    purchased, in catalog order, then the sentence. *)
Definition generate_explanation (recommender_engine : RecommenderEngine)
  (product : Product.t) (user_history : list Interaction.t) : string :=
  let purchased_products :=
    map Interaction.product_id (filter is_purchase user_history) in
  let purchased_names :=
    if (0 <? length purchased_products)%nat
    then map Product.name
           (filter (fun p => mem (Product.id p) purchased_products)
                   (rows (products_df recommender_engine)))
    else [] in
  _generate_smart_explanation product purchased_names.

End Explainer.

(* ===================================================================== *)
(** * The web API (app.py) *)
(* ===================================================================== *)

Module App.

(** What a route does at its end: it hands a dictionary to [jsonify], or
    it answers with status 500, either because the module-level [engine] is
    [None] or with the text of the exception its [except] clause caught. *)
Inductive response (A : Type) : Type :=
| Json (body : A)
| NotInitialized
| Error500 (e : exn).

Arguments Json {A} body.
Arguments NotInitialized {A}.
Arguments Error500 {A} e.

Record Recommendations : Type := {
  rec_user_id : Z;
  recommendations : list (ProductRecord * string);
  count : nat
}.

Record PurchaseHistory : Type := {
  hist_user_id : Z;
  purchase_history : list ProductRecord;
  hist_total_purchases : nat
}.

Section Routes.
Variable rt : Runtime.
Variable str_set_iter : list string -> list string.
Variable float_str : F64.t -> string.

(** [/api/recommendations/<user_id>], lines 43-70.  The engine is a module
    global: the state it is left in is returned with the response.  Each
    record is paired with its ['explanation']. *)
Definition get_recommendations (engine : option RecommenderEngine) (user_id : Z)
  : option RecommenderEngine * response Recommendations :=
  match engine with
  | None => (None, NotInitialized)
  | Some engine =>
      let '(engine', r) := hybrid_recommendations rt engine user_id 5 in
      match r with
      | Raise e => (Some engine', Error500 e)
      | Ok recommendations =>
          let products := get_product_details engine' recommendations in
          let user_history := get_user_history engine' user_id in
          let products :=
            map (fun product =>
                   (product,
                    generate_explanation str_set_iter float_str engine'
                      (fst product) user_history))
                products in
          (Some engine',
           Json {| rec_user_id := user_id;
                   recommendations := products;
                   count := length products |})
      end
  end.

(** [/api/user/<user_id>/history], lines 101-119.  For an empty log the
    engine's [get_user_history] returns [pd.DataFrame()], a frame without
    columns, and [user_history['interaction_type']] raises [KeyError]. *)
Definition get_user_history (engine : option RecommenderEngine) (user_id : Z)
  : response PurchaseHistory :=
  match engine with
  | None => NotInitialized
  | Some engine =>
      if (length (interactions_df engine) =? 0)%nat then Error500 KeyError else
      let user_history := get_user_history engine user_id in
      let purchases := filter is_purchase user_history in
      let purchased_products :=
        get_product_details engine (map Interaction.product_id purchases) in
      Json {| hist_user_id := user_id;
              purchase_history := purchased_products;
              hist_total_purchases := length purchased_products |}
  end.

End Routes.

End App.

(* ===================================================================== *)
(** * Notions of the specification *)
(* ===================================================================== *)

(** ** Hybrid ranking *)

(** The total score the specification gives a product: its positional score
    in each list it occurs in, summed when it occurs in both. *)
Definition total_score (collab content : list Z) (p : Z) : option F64.t :=
  match Pd.position p collab, Pd.position p content with
  | Some i, Some j =>
      Some (F64.add (position_score (length collab) i F64.lit_0_6)
                    (position_score (length content) j F64.lit_0_4))
  | Some i, None => Some (position_score (length collab) i F64.lit_0_6)
  | None, Some j => Some (position_score (length content) j F64.lit_0_4)
  | None, None => None
  end.

(** The specification's tie-break: of two returned products with equal
    total scores, the one with the smaller id comes first. *)
Definition hybrid_ties_by_ascending_id (collab content : list Z) (n : Z) : Prop :=
  forall a b sa sb,
    before (hybrid_fuse collab content n) a b ->
    total_score collab content a = Some sa ->
    total_score collab content b = Some sb ->
    F64.eqb sa sb = true ->
    a < b.

(** The order in which the products enter [all_recs]: the collaborative
    list, then the products only the content list has. *)
Definition first_scored (collab content : list Z) : list Z :=
  collab ++ filter (fun p => negb (mem p collab)) content.

(** ** Collaborative filtering *)

(** The user-item matrix of line 62. *)
Definition user_item_matrix (self : RecommenderEngine) : Pd.PivotTable :=
  Pd.pivot_table (filter is_purchase (interactions_df self)).

(** Lines 52-92: the candidate products with their accumulated weights, in
    the order in which they were first accumulated. *)
Definition collaborative_weights (rt : Runtime) (self : RecommenderEngine)
  (user_id : Z) : result (dict F64.t) :=
  if (length (interactions_df self) =? 0)%nat then Ok [] else
  if (length (filter is_purchase (interactions_df self)) =? 0)%nat then Ok [] else
  if negb (mem user_id (Pd.index (user_item_matrix self))) then Ok [] else
  neighbours <- similar_users rt (user_item_matrix self) user_id ;;
  target_row <- Pd.loc (user_item_matrix self) user_id ;;
  accumulate_neighbours rt (user_item_matrix self)
    (rated_products (Pd.columns (user_item_matrix self)) target_row) neighbours.

(** Every pairwise similarity of the matrix is an ordinary non-negative
    number, as cosines of non-negative rating rows are. *)
Definition similarities_nonneg (rt : Runtime) (m : Matrix) : bool :=
  forallb (fun x => forallb (fun y => F64.nonneg (cosine rt x y)) m) m.

(** The specification's tie-break for the collaborative ranking. *)
Definition collaborative_ties_by_ascending_id (rt : Runtime)
  (self : RecommenderEngine) (user_id n : Z) : Prop :=
  forall out weights a b wa wb,
    collaborative_filtering rt self user_id n = Ok out ->
    collaborative_weights rt self user_id = Ok weights ->
    before out a b ->
    dict_get a weights = Some wa ->
    dict_get b weights = Some wb ->
    F64.eqb wa wb = true ->
    a < b.

(** Every user of the matrix with its similarity to the target, in index
    order: the series that line 79 sorts. *)
Definition similarity_series (rt : Runtime) (pt : Pd.PivotTable) (user_id : Z)
  : list (Z * F64.t) :=
  match Pd.loc pt user_id with
  | Ok r => combine (Pd.index pt) (map (fun x => cosine rt x r) (Pd.values pt))
  | Raise _ => []
  end.

(** The specification's self-exclusion: the target is not among its own
    neighbours. *)
Definition neighbours_exclude_target (rt : Runtime) (self : RecommenderEngine)
  (user_id : Z) : Prop :=
  forall neighbours,
    similar_users rt (user_item_matrix self) user_id = Ok neighbours ->
    ~ In user_id (map fst neighbours).

(** ** Content-based filtering *)

(** The id of the product in a given row of the catalog. *)
Definition id_at (ps : list Product.t) (i : nat) : Z :=
  match nth_error ps i with
  | Some p => Product.id p
  | None => 0
  end.

(** Lines 119-121: the item-item similarity matrix. *)
Definition content_matrix (rt : Runtime) (self : RecommenderEngine) : result Matrix :=
  tfidf_matrix <- of_option ValueError
      (tfidf rt (content_column (rows (products_df self)))) ;;
  cosine_similarity rt tfidf_matrix tfidf_matrix.

(** The ids of the candidates of one seed, most similar first. *)
Definition candidates_of_seed (rt : Runtime) (ps : list Product.t) (sim : Matrix)
  (seed : Z) : result (list Z) :=
  row <- index sim (seed - 1) ;;
  mapM (fun idx => p <- of_option IndexError (nth_error ps idx) ;; Ok (Product.id p))
       (similar_indices rt row).

(** The accumulation order of the specification: the candidates of every
    seed, seed after seed, without the seeds themselves, each product where
    it is first seen. *)
Definition accumulation_order (rt : Runtime) (self : RecommenderEngine) (user_id : Z)
  : result (list Z) :=
  let seeds := seed_products self user_id in
  sim <- content_matrix rt self ;;
  cands <- mapM (candidates_of_seed rt (rows (products_df self)) sim) seeds ;;
  Ok (Pd.unique (filter (fun p => negb (mem p seeds)) (concat cands))).

(** Lines 119-133 for a given list of seeds: what the content ranking
    returns once the seeds are chosen. *)
Definition ranking_of_seeds (rt : Runtime) (self : RecommenderEngine) (seeds : list Z)
  (n : Z) : result (list Z) :=
  sim <- content_matrix rt self ;;
  cands <- mapM (candidates_of_seed rt (rows (products_df self)) sim) seeds ;;
  Ok (slice_to n (set_iter rt
        (Pd.unique (filter (fun p => negb (mem p seeds)) (concat cands))))).


(** The row of the similarity matrix that line 125 reads for a seed. *)
Definition seed_in_range (n : nat) (seed : Z) : Prop :=
  - Z.of_nat n <= seed - 1 < Z.of_nat n.

Definition row_of_seed (n : nat) (seed : Z) : nat :=
  Z.to_nat (if seed - 1 <? 0 then seed - 1 + Z.of_nat n else seed - 1).



(** ** Users without history, missing data and errors *)

(** No interaction row at all. *)
Definition unknown_user (self : RecommenderEngine) (user_id : Z) : Prop :=
  forall r, In r (interactions_df self) -> Interaction.user_id r <> user_id.

(** No purchase and no view. *)
Definition cold_user (self : RecommenderEngine) (user_id : Z) : Prop :=
  forall r, In r (interactions_df self) -> Interaction.user_id r = user_id ->
            is_purchase r = false /\ is_view r = false.

Definition three_lowest_ids (self : RecommenderEngine) : list Z :=
  firstn 3 (Pd.sorted_unique (map Product.id (rows (products_df self)))).

(** "Uses as seed set the three lowest catalog product ids". *)
Definition cold_seeds_are_lowest_ids (self : RecommenderEngine) (user_id : Z) : Prop :=
  cold_user self user_id -> seed_products self user_id = three_lowest_ids self.

(** The invariant of the data model: ids are [1 .. N], in row order. *)
Definition dense_catalog (self : RecommenderEngine) : Prop :=
  map Product.id (rows (products_df self)) =
  map Z.of_nat (seq 1 (length (rows (products_df self)))).

(** "All ranking operations return an empty list" for an unknown user. *)
Definition unknown_user_gets_nothing (rt : Runtime) (self : RecommenderEngine)
  (user_id n : Z) : Prop :=
  unknown_user self user_id ->
  collaborative_filtering rt self user_id n = Ok [] /\
  snd (content_based_filtering rt self user_id n) = Ok [] /\
  snd (hybrid_recommendations rt self user_id n) = Ok [].

(** "Must not crash; such rows are excluded from similarity computations":
    the content ranking completes, and every column of the user-item matrix
    is a catalog product. *)
Definition dangling_rows_tolerated (rt : Runtime) (self : RecommenderEngine)
  (user_id n : Z) : Prop :=
  (exists l, snd (content_based_filtering rt self user_id n) = Ok l) /\
  (forall p, In p (Pd.columns (user_item_matrix self)) ->
             In p (map Product.id (rows (products_df self)))).

(** "They throw for a negative [n]". *)
Definition raises_on_negative_n (rt : Runtime) (self : RecommenderEngine)
  (user_id n : Z) : Prop :=
  n < 0 -> exists e, collaborative_filtering rt self user_id n = Raise e.

(** ** The operations of the core and the state they leave *)

Inductive operation : Type :=
| CollaborativeRank (user_id n : Z)
| ContentRank (user_id n : Z)
| HybridRank (user_id n : Z)
| Explain (product : Product.t) (user_history : list Interaction.t)
| UserHistory (user_id : Z)
| ProductDetails (product_ids : list Z)
| GetStatistics.

(** The engine after an operation.  Only the content ranking, and the
    hybrid ranking through it, contain an assignment to the engine's
    frames. *)
Definition state_after (rt : Runtime) (op : operation) (self : RecommenderEngine)
  : RecommenderEngine :=
  match op with
  | ContentRank u n => fst (content_based_filtering rt self u n)
  | HybridRank u n => fst (hybrid_recommendations rt self u n)
  | CollaborativeRank _ _ | Explain _ _ | UserHistory _ | ProductDetails _
  | GetStatistics => self
  end.

(** The specification's frame condition. *)
Definition read_only (rt : Runtime) (op : operation) (self : RecommenderEngine) : Prop :=
  state_after rt op self = self.

(** ** Explanations *)

(** Some purchased product's name contains a keyword of some category. *)
Definition name_matches_keyword (purchased_names : list string) : Prop :=
  exists name category keywords keyword,
    In name purchased_names /\
    In (category, keywords) category_keywords /\
    In keyword keywords /\
    contains keyword (lower name) = true.

(* ===================================================================== *)
(** * Notions of the proofs *)
(* ===================================================================== *)

(** A table whose rows match its labels. *)
Record table_ok (pt : Pd.PivotTable) : Prop := {
  index_NoDup : NoDup (Pd.index pt);
  values_rows : length (Pd.values pt) = length (Pd.index pt);
  values_cols : Forall (fun r => length r = length (Pd.columns pt)) (Pd.values pt)
}.

(** One pass of the loop of lines 144-148, the score of the entry given by
    [g]. *)
Definition content_step (g : nat * Z -> F64.t) (d : dict F64.t) (ip : nat * Z)
  : dict F64.t :=
  match dict_get (snd ip) d with
  | Some w => dict_set (snd ip) (F64.add w (g ip)) d
  | None => dict_set (snd ip) (g ip) d
  end.

(** One pass of the inner loop of lines 89-92 on a product. *)
Definition bump (s : F64.t) (recommendations : dict F64.t) (p : Z) : dict F64.t :=
  match dict_get p recommendations with
  | Some w => dict_set p (F64.add w s) recommendations
  | None => dict_set p (F64.add F64.zero s) (dict_set p F64.zero recommendations)
  end.

(** A table of weights: one entry per product, every weight an ordinary
    non-negative number. *)
Definition weights_ok (d : dict F64.t) : Prop :=
  NoDup (map fst d) /\ Forall (fun kv => F64.nonneg (snd kv) = true) d.

(** Line 80: the products the target has rated, read off its row of the
    user-item matrix. *)
Definition user_products (self : RecommenderEngine) (user_id : Z) : pyset :=
  match Pd.loc (user_item_matrix self) user_id with
  | Ok row => rated_products (Pd.columns (user_item_matrix self)) row
  | Raise _ => []
  end.

(** The catalog frame as it was loaded, or as line 114 leaves it. *)
Definition frame_ok (df : ProductsFrame) : Prop :=
  content df = None \/ content df = Some (content_column (rows df)).

(** The record of a catalog row: its own fields, and the ['content'] field
    of line 114 when the frame has that column. *)
Definition record_of (df : ProductsFrame) (p : Product.t) : ProductRecord :=
  (p, match content df with
      | None => None
      | Some _ => Some (Product.category p ++ " " ++ Product.description p)%string
      end).

Definition catalog_ids (self : RecommenderEngine) : list Z :=
  map Product.id (rows (products_df self)).

Definition record_id (r : ProductRecord) : Z := Product.id (fst r).

(** The log has a purchase (a view) of product [p] by user [u]. *)
Definition purchased_by (self : RecommenderEngine) (u p : Z) : Prop :=
  exists r, In r (interactions_df self) /\ Interaction.user_id r = u /\
            is_purchase r = true /\ Interaction.product_id r = p.

Definition viewed_by (self : RecommenderEngine) (u p : Z) : Prop :=
  exists r, In r (interactions_df self) /\ Interaction.user_id r = u /\
            is_view r = true /\ Interaction.product_id r = p.

(** The product ids of the purchase rows of a history. *)
Definition purchased_ids (user_history : list Interaction.t) : list Z :=
  map Interaction.product_id (filter is_purchase user_history).

(* ===================================================================== *)
(** * A reference runtime and example data *)
(* ===================================================================== *)

(** What CPython, NumPy and pandas do on the small inputs used as examples
    below: sets of fewer than five small non-negative integers with distinct
    residues modulo 8 are iterated in order of that residue (the slot
    [hash & 7] of the initial eight-slot table); arrays of at most sixteen
    values are sorted by insertion, which keeps equal values in their
    original order; the cosine kernel divides each row by its Euclidean norm
    (a zero norm is replaced by one) and takes the dot product. *)
Module Reference.

Fixpoint slot_insert (x : Z) (l : list Z) : list Z :=
  match l with
  | [] => [x]
  | y :: l' => if x mod 8 <? y mod 8 then x :: l else y :: slot_insert x l'
  end.

Definition set_iter (s : pyset) : list Z :=
  fold_left (fun acc x => slot_insert x acc) s [].

Definition argsort (v : list F64.t) : list nat :=
  map fst (sort_asc (@snd nat F64.t) (enumerate v)).

Definition sort_values_desc (v : list F64.t) : list nat :=
  map fst (sorted (@snd nat F64.t) true (enumerate v)).

Definition dot (x y : list F64.t) : F64.t :=
  fold_left (fun acc ab => F64.add acc (F64.mul (fst ab) (snd ab))) (combine x y) F64.zero.

Definition normalize (x : list F64.t) : list F64.t :=
  let norm := F64.sqrt (dot x x) in
  let norm := if F64.eqb norm F64.zero then F64.one else norm in
  map (fun a => F64.div a norm) x.

Definition cosine (x y : list F64.t) : F64.t := dot (normalize x) (normalize y).

End Reference.

Definition reference_runtime (tfidf : list string -> option Matrix) : Runtime :=
  {| set_iter := Reference.set_iter;
     argsort := Reference.argsort;
     sort_values_desc := Reference.sort_values_desc;
     cosine := Reference.cosine;
     tfidf := tfidf |}.

(** ** Example data *)

Definition five : F64.t := Eval vm_compute in F64.of_Z 5.

Definition purchase (u p : Z) (r : F64.t) : Interaction.t :=
  {| Interaction.user_id := u; Interaction.product_id := p;
     Interaction.interaction_type := "purchase"; Interaction.rating := r |}.

Definition view (u p : Z) : Interaction.t :=
  {| Interaction.user_id := u; Interaction.product_id := p;
     Interaction.interaction_type := "view"; Interaction.rating := F64.zero |}.

Definition product (i : Z) (nm cat desc : string) : Product.t :=
  {| Product.id := i; Product.name := nm; Product.category := cat;
     Product.description := desc; Product.price := five; Product.rating := five |}.

Definition loaded (ps : list Product.t) (xs : list Interaction.t) : RecommenderEngine :=
  {| products_df := {| rows := ps; content := None |}; interactions_df := xs |}.

Definition decimal (n : Z) (places : Z) : F64.t :=
  F64.div (F64.of_Z n) (F64.of_Z (10 ^ places)).

(** Three products; the second and third share the term "electronics". *)
Definition related_catalog : list Product.t :=
  [ product 1 "Novel" "Books" "novel";
    product 2 "Wireless Mouse" "Electronics" "mouse";
    product 3 "Keyboard" "Electronics" "keyboard" ].

(** Their TF-IDF rows over the vocabulary books, electronics, keyboard,
    mouse, novel (smoothed idf, unit Euclidean norm), to four decimals. *)
Definition related_rows : Matrix :=
  Eval vm_compute in
  let z := F64.zero in
  let a := decimal 7071 4 in
  let b := decimal 6053 4 in
  let c := decimal 7960 4 in
  [ [a; z; z; z; a]; [z; b; z; c; z]; [z; b; c; z; z] ].

Definition tfidf_related : list string -> option Matrix :=
  fun _ => Some related_rows.

(** User 7 bought the mouse. *)
Definition mouse_buyer : RecommenderEngine :=
  loaded related_catalog [purchase 7 2 five].

(** User 8 bought a product that is not in the catalog. *)
Definition dangling_purchase : RecommenderEngine :=
  loaded related_catalog [purchase 7 2 five; purchase 8 99 five].

(** Four products without a common term: over the vocabulary books,
    cushioned, electronics, ergonomic, fitness, kitchen, paperback,
    porcelain every TF-IDF row has its own two coordinates. *)
Definition disjoint_catalog : list Product.t :=
  [ product 1 "Novel" "Books" "paperback";
    product 2 "Wireless Mouse" "Electronics" "ergonomic";
    product 3 "Yoga Mat" "Fitness" "cushioned";
    product 4 "Espresso Cup" "Kitchen" "porcelain" ].

Definition disjoint_rows : Matrix :=
  Eval vm_compute in
  let z := F64.zero in
  let a := decimal 7071 4 in
  [ [a; z; z; z; z; z; a; z];
    [z; z; a; a; z; z; z; z];
    [z; a; z; z; a; z; z; z];
    [z; z; z; z; z; a; z; a] ].

Definition tfidf_disjoint : list string -> option Matrix :=
  fun _ => Some disjoint_rows.

Definition mat_buyer : RecommenderEngine :=
  loaded disjoint_catalog [purchase 7 3 five].

Definition no_tfidf : list string -> option Matrix := fun _ => None.

(** The same four products under ids that are not [1 .. 4]. *)
Definition sparse_catalog : list Product.t :=
  [ product 10 "Novel" "Books" "paperback";
    product 20 "Wireless Mouse" "Electronics" "ergonomic";
    product 30 "Yoga Mat" "Fitness" "cushioned";
    product 40 "Espresso Cup" "Kitchen" "porcelain" ].

Definition sparse_shop : RecommenderEngine :=
  loaded sparse_catalog [purchase 7 30 five].

(** User 1 bought product 3; user 2 bought products 3, 2 and 9. *)
Definition two_buyers : RecommenderEngine :=
  loaded [] [purchase 1 3 five; purchase 2 3 five; purchase 2 2 five; purchase 2 9 five].

(** Users 1 and 2 bought the same product with the same rating. *)
Definition twins : RecommenderEngine :=
  loaded [] [purchase 1 1 five; purchase 2 1 five].

(* ===================================================================== *)
(** * Facts about binary64 comparison and rounding *)
(* ===================================================================== *)

Module F64Facts.

Lemma ltb_rank (x y : F64.t) :
  F64.ltb x y = true <->
  F64.is_nan x = false /\ F64.is_nan y = false /\ F64.lt3 (F64.rank x) (F64.rank y).
Proof.
  unfold F64.ltb, SFltb, SFcompare.
  destruct x as [[]|[]| |[] mx ex]; destruct y as [[]|[]| |[] my ey];
    cbn [F64.is_nan F64.rank F64.lt3];
    try (split; [discriminate | intros (? & ? & ?); try discriminate; lia]);
    try (split; [intros _; repeat split; lia | reflexivity]).
  all: change (Pos.compare_cont Eq mx my) with (Pos.compare mx my).
  all: destruct (Z.compare_spec ex ey); destruct (Pos.compare_spec mx my); cbn [CompOpp];
    (split; [try discriminate; intros _; repeat split; lia
            | intros (_ & _ & ?); try reflexivity; lia]).
Qed.


Lemma ltb_false_rank (x y : F64.t) :
  F64.is_nan x = false -> F64.is_nan y = false ->
  F64.ltb x y = false -> ~ F64.lt3 (F64.rank x) (F64.rank y).
Proof.
  intros Hx Hy H L.
  assert (F64.ltb x y = true) by (apply ltb_rank; auto).
  congruence.
Qed.

Lemma ltb_nan_l (x y : F64.t) : F64.is_nan x = true -> F64.ltb x y = false.
Proof. destruct x; try discriminate; reflexivity. Qed.

Lemma ltb_nan_r (x y : F64.t) : F64.is_nan y = true -> F64.ltb x y = false.
Proof. destruct y; try discriminate; destruct x as [[]|[]| |[]]; reflexivity. Qed.

Ltac rank3 :=
  repeat match goal with
  | H : context [F64.rank ?x] |- _ =>
      let c := fresh "c" in let e := fresh "e" in let m := fresh "m" in
      destruct (F64.rank x) as [[c e] m]
  | |- context [F64.rank ?x] =>
      let c := fresh "c" in let e := fresh "e" in let m := fresh "m" in
      destruct (F64.rank x) as [[c e] m]
  end; unfold F64.lt3 in *.

Lemma ltb_irrefl (x : F64.t) : F64.ltb x x = false.
Proof.
  destruct (F64.ltb x x) eqn:E; [|reflexivity].
  apply ltb_rank in E. destruct E as (_ & _ & E). rank3. lia.
Qed.

Lemma ltb_trans (x y z : F64.t) :
  F64.ltb x y = true -> F64.ltb y z = true -> F64.ltb x z = true.
Proof.
  intros H1 H2. apply ltb_rank in H1, H2. apply ltb_rank.
  destruct H1 as (? & ? & H1), H2 as (? & ? & H2).
  repeat split; auto. rank3. lia.
Qed.

Lemma ltb_asym (x y : F64.t) : F64.ltb x y = true -> F64.ltb y x = false.
Proof.
  intros H1. destruct (F64.ltb y x) eqn:H2; [|reflexivity].
  apply ltb_rank in H1, H2.
  destruct H1 as (? & ? & H1), H2 as (? & ? & H2). rank3. lia.
Qed.

(** Among numbers, "not below" is transitive. *)
Lemma ltb_negtrans (x y z : F64.t) :
  F64.is_nan y = false ->
  F64.ltb x y = false -> F64.ltb y z = false -> F64.ltb x z = false.
Proof.
  intros Hy H1 H2.
  destruct (F64.ltb x z) eqn:E; [|reflexivity].
  apply ltb_rank in E. destruct E as (Hx & Hz & E).
  apply ltb_false_rank in H1, H2; auto.
  rank3. lia.
Qed.

Lemma ltb_tied_l (x y z : F64.t) :
  F64.is_nan x = false -> F64.is_nan y = false ->
  F64.tied x y = true -> F64.ltb x z = F64.ltb y z.
Proof.
  unfold F64.tied. intros Hx Hy H.
  apply andb_true_iff in H. destruct H as [H1 H2].
  apply negb_true_iff in H1, H2.
  destruct (F64.ltb y z) eqn:E.
  - destruct (F64.ltb x z) eqn:E'; [reflexivity|].
    rewrite <- E. symmetry. apply ltb_negtrans with x; auto.
  - apply ltb_negtrans with y; auto.
Qed.

Lemma ltb_tied_r (x y z : F64.t) :
  F64.is_nan x = false -> F64.is_nan y = false ->
  F64.tied x y = true -> F64.ltb z x = F64.ltb z y.
Proof.
  unfold F64.tied. intros Hx Hy H.
  apply andb_true_iff in H. destruct H as [H1 H2].
  apply negb_true_iff in H1, H2.
  destruct (F64.ltb z y) eqn:E.
  - destruct (F64.ltb z x) eqn:E'; [reflexivity|].
    rewrite <- E. symmetry. apply ltb_negtrans with x; auto.
  - apply ltb_negtrans with y; auto.
Qed.

Lemma nonneg_not_nan (x : F64.t) : F64.nonneg x = true -> F64.is_nan x = false.
Proof. destruct x as [[]|[]| |[]]; simpl; congruence. Qed.

(** ** Rounding never turns a non-negative significand into NaN *)

Lemma shr_1_nonneg (mrs : shr_record) : 0 <= shr_m mrs -> 0 <= shr_m (shr_1 mrs).
Proof.
  destruct mrs as [m r s]. simpl.
  destruct m as [|p|p]; simpl; try lia; destruct p; simpl; lia.
Qed.

Lemma iter_pos_shr_1_nonneg (p : positive) (mrs : shr_record) :
  0 <= shr_m mrs -> 0 <= shr_m (iter_pos shr_1 p mrs).
Proof.
  revert mrs. induction p as [p IH|p IH|]; intros mrs H; simpl.
  - apply IH, IH, shr_1_nonneg, H.
  - apply IH, IH, H.
  - apply shr_1_nonneg, H.
Qed.

Lemma shr_fexp_nonneg (m e : Z) (l : location) :
  0 <= m -> 0 <= shr_m (fst (shr_fexp F64.prec F64.emax m e l)).
Proof.
  intros H. unfold shr_fexp, shr.
  assert (H0 : 0 <= shr_m (shr_record_of_loc m l))
    by (destruct l as [|[]]; simpl; exact H).
  destruct (fexp F64.prec F64.emax (Zdigits2 m + e) - e); simpl; auto.
  apply iter_pos_shr_1_nonneg, H0.
Qed.

Lemma round_nearest_even_nonneg (m : Z) (l : location) :
  0 <= m -> 0 <= round_nearest_even m l.
Proof.
  intros H. destruct l as [|[]]; simpl; try lia.
  destruct (Z.even m); lia.
Qed.

Lemma binary_round_aux_nonneg (m e : Z) (l : location) :
  0 <= m -> F64.nonneg (binary_round_aux F64.prec F64.emax false m e l) = true.
Proof.
  intros H. unfold binary_round_aux.
  pose proof (@shr_fexp_nonneg m e l H) as H1.
  destruct (shr_fexp F64.prec F64.emax m e l) as [mrs' e'].
  simpl in H1.
  pose proof (@shr_fexp_nonneg _ e' loc_Exact
                (@round_nearest_even_nonneg _ (loc_of_shr_record mrs') H1)) as H2.
  destruct (shr_fexp F64.prec F64.emax _ e' loc_Exact) as [mrs'' e''].
  simpl in H2.
  destruct (shr_m mrs'') as [|p|p]; simpl; try reflexivity; try lia.
  destruct (_ <=? _); reflexivity.
Qed.

Lemma binary_round_nonneg (m : positive) (e : Z) :
  F64.nonneg (binary_round F64.prec F64.emax false m e) = true.
Proof.
  unfold binary_round.
  destruct (shl_align m e _) as [mz ez].
  apply binary_round_aux_nonneg. lia.
Qed.

Lemma of_Z_nonneg (z : Z) : 0 <= z -> F64.nonneg (F64.of_Z z) = true.
Proof.
  intros H. unfold F64.of_Z, binary_normalize.
  destruct z as [|p|p]; try lia; [reflexivity|].
  apply binary_round_nonneg.
Qed.

Lemma add_nonneg (x y : F64.t) :
  F64.nonneg x = true -> F64.nonneg y = true -> F64.nonneg (F64.add x y) = true.
Proof.
  destruct x as [[]|[]| |[] mx ex]; destruct y as [[]|[]| |[] my ey];
    simpl; try congruence; intros _ _.
  unfold binary_normalize. simpl.
  apply binary_round_nonneg.
Qed.

(** Multiplying by a positive finite constant. *)
Lemma mul_nonneg (x : F64.t) (m : positive) (e : Z) :
  F64.nonneg x = true -> F64.nonneg (F64.mul x (S754_finite false m e)) = true.
Proof.
  destruct x as [[]|[]| |[] mx ex]; simpl; try congruence; intros _.
  apply binary_round_aux_nonneg. lia.
Qed.

End F64Facts.
(** * Order of occurrence *)
Section BeforeFacts.
Variable A : Type.
Implicit Types (l : list A) (a b x : A).

Lemma before_In_l l a b : before l a b -> In a l.
Proof. intros (l1 & l2 & l3 & ->). apply in_or_app. right. left. reflexivity. Qed.

Lemma before_In_r l a b : before l a b -> In b l.
Proof.
  intros (l1 & l2 & l3 & ->). apply in_or_app. right. right.
  apply in_or_app. right. left. reflexivity.
Qed.

Lemma before_head l a b : In b l -> before (a :: l) a b.
Proof.
  intros H. apply in_split in H. destruct H as (l2 & l3 & ->).
  exists [], l2, l3. reflexivity.
Qed.

Lemma before_cons l x a b : before l a b -> before (x :: l) a b.
Proof. intros (l1 & l2 & l3 & ->). exists (x :: l1), l2, l3. reflexivity. Qed.

Lemma before_cons_inv l x a b :
  before (x :: l) a b -> (x = a /\ In b l) \/ before l a b.
Proof.
  intros (l1 & l2 & l3 & H). destruct l1 as [|y l1]; simpl in H.
  - injection H as -> ->. left. split; [reflexivity|].
    apply in_or_app. right. left. reflexivity.
  - injection H as -> ->. right. exists l1, l2, l3. reflexivity.
Qed.

Lemma before_app_l l l' a b : before l a b -> before (l ++ l') a b.
Proof.
  intros (l1 & l2 & l3 & ->). exists l1, l2, (l3 ++ l').
  repeat (rewrite <- app_assoc; simpl). reflexivity.
Qed.

Lemma before_app_r l l' a b : before l' a b -> before (l ++ l') a b.
Proof.
  intros (l1 & l2 & l3 & ->). exists (l ++ l1), l2, l3.
  rewrite <- app_assoc. reflexivity.
Qed.

Lemma before_app_mid l l' a b : In a l -> In b l' -> before (l ++ l') a b.
Proof.
  intros Ha Hb. apply in_split in Ha, Hb.
  destruct Ha as (l1 & l2 & ->), Hb as (l3 & l4 & ->).
  exists l1, (l2 ++ l3), l4.
  repeat (rewrite <- app_assoc; simpl). reflexivity.
Qed.

Lemma before_app_inv l l' a b :
  before (l ++ l') a b -> before l a b \/ before l' a b \/ (In a l /\ In b l').
Proof.
  induction l as [|x l IH]; simpl; intros H.
  - right. left. exact H.
  - apply before_cons_inv in H. destruct H as [[-> H]|H].
    + apply in_app_or in H. destruct H as [H|H].
      * left. apply before_head, H.
      * right. right. split; [left; reflexivity|exact H].
    + destruct (IH H) as [H1|[H1|[H1 H2]]].
      * left. apply before_cons, H1.
      * right. left. exact H1.
      * right. right. split; [right; exact H1|exact H2].
Qed.

Lemma before_rev l a b : before (rev l) a b <-> before l b a.
Proof.
  assert (E : forall l a b, before l b a -> before (rev l) a b).
  { intros l0 a0 b0 (l1 & l2 & l3 & ->).
    exists (rev l3), (rev l2), (rev l1).
    repeat (rewrite rev_app_distr; simpl; repeat rewrite <- app_assoc; simpl).
    reflexivity. }
  split; [|apply E].
  intros H. apply E in H. rewrite rev_involutive in H. exact H.
Qed.

Lemma before_filter (f : A -> bool) l a b :
  before (filter f l) a b <-> before l a b /\ f a = true /\ f b = true.
Proof.
  induction l as [|x l IH]; simpl.
  - split; [intros (l1 & l2 & l3 & H)|intros ((l1 & l2 & l3 & H) & _)];
      destruct l1; discriminate.
  - destruct (f x) eqn:E.
    + split.
      * intros H. apply before_cons_inv in H. destruct H as [[-> H]|H].
        -- apply filter_In in H. destruct H as [H1 H2].
           repeat split; auto. apply before_head, H1.
        -- apply IH in H. destruct H as (H1 & H2 & H3).
           repeat split; auto. apply before_cons, H1.
      * intros (H & Ha & Hb). apply before_cons_inv in H.
        destruct H as [[-> H]|H].
        -- apply before_head. apply filter_In. auto.
        -- apply before_cons. apply IH. auto.
    + rewrite IH. split.
      * intros (H1 & H2 & H3). repeat split; auto. apply before_cons, H1.
      * intros (H & Ha & Hb). apply before_cons_inv in H.
        destruct H as [[-> H]|H]; [congruence|auto].
Qed.

Lemma before_firstn n l a b : before (firstn n l) a b -> before l a b.
Proof.
  intros H. rewrite <- (firstn_skipn n l). apply before_app_l, H.
Qed.

Lemma before_NoDup_neq l a b : NoDup l -> before l a b -> a <> b.
Proof.
  intros N (l1 & l2 & l3 & ->) ->.
  apply NoDup_remove_2 in N. apply N.
  apply in_or_app. right. apply in_or_app. right. left. reflexivity.
Qed.

Lemma before_NoDup_asym l a b : NoDup l -> before l a b -> ~ before l b a.
Proof.
  induction l as [|x l IH]; intros N H H'.
  - destruct H as (l1 & l2 & l3 & H). destruct l1; discriminate.
  - inversion N as [|? ? Nx Nl]; subst.
    apply before_cons_inv in H. apply before_cons_inv in H'.
    destruct H as [[-> H]|H], H' as [[-> H']|H'].
    + contradiction.
    + apply Nx. eapply before_In_r, H'.
    + apply Nx. eapply before_In_r, H.
    + exact (IH Nl H H').
Qed.

Lemma before_total l a b : In a l -> In b l -> a <> b -> before l a b \/ before l b a.
Proof.
  induction l as [|x l IH]; simpl; intros Ha Hb N; [contradiction|].
  destruct Ha as [->|Ha], Hb as [->|Hb].
  - congruence.
  - left. apply before_head, Hb.
  - right. apply before_head, Ha.
  - destruct (IH Ha Hb N); [left|right]; apply before_cons; assumption.
Qed.

End BeforeFacts.

Lemma before_map (A B : Type) (f : A -> B) (l : list A) (a b : A) :
  before l a b -> before (map f l) (f a) (f b).
Proof.
  intros (l1 & l2 & l3 & ->). exists (map f l1), (map f l2), (map f l3).
  repeat (rewrite map_app; simpl). reflexivity.
Qed.

Lemma before_map_inv (A B : Type) (f : A -> B) (l : list A) (x y : B) :
  before (map f l) x y -> exists a b, f a = x /\ f b = y /\ before l a b.
Proof.
  induction l as [|c l IH]; simpl; intros H.
  - destruct H as (l1 & l2 & l3 & H). destruct l1; discriminate.
  - apply before_cons_inv in H. destruct H as [[<- H]|H].
    + apply in_map_iff in H. destruct H as (b & <- & Hb).
      exists c, b. repeat split. apply before_head, Hb.
    + destruct (IH H) as (a & b & Ha & Hb & Hab).
      exists a, b. repeat split; auto. apply before_cons, Hab.
Qed.

(** * [sorted] *)
Section SortedFacts.
Variable A : Type.
Variable key : A -> F64.t.

Lemma insert_split (x : A) (l : list A) :
  exists l1 l2, l = l1 ++ l2 /\ insert key x l = l1 ++ x :: l2 /\
    Forall (fun y => F64.ltb (key x) (key y) = false) l1 /\
    match l2 with [] => True | y :: _ => F64.ltb (key x) (key y) = true end.
Proof.
  induction l as [|y l IH]; simpl.
  - exists [], []. repeat split. constructor.
  - destruct (F64.ltb (key x) (key y)) eqn:E.
    + exists [], (y :: l). repeat split; auto. 
    + destruct IH as (l1 & l2 & -> & -> & H1 & H2).
      exists (y :: l1), l2. repeat split; auto.
Qed.

Lemma insert_perm (x : A) (l : list A) : Permutation (insert key x l) (x :: l).
Proof.
  destruct (insert_split x l) as (l1 & l2 & -> & -> & _).
  symmetry. apply Permutation_middle.
Qed.

Lemma ascending_tail_above (x : A) (l2 : list A) :
  keys_ok key l2 -> ascending key l2 ->
  match l2 with [] => True | y :: _ => F64.ltb (key x) (key y) = true end ->
  Forall (fun b => F64.ltb (key x) (key b) = true) l2.
Proof.
  intros K S H. destruct l2 as [|y l2]; [constructor|].
  constructor; [exact H|].
  apply Forall_forall. intros b Hb.
  assert (Hyb : F64.ltb (key b) (key y) = false) by (apply S, before_head, Hb).
  destruct (F64.ltb (key x) (key b)) eqn:E; [reflexivity|].
  assert (F64.ltb (key x) (key y) = false); [|congruence].
  apply F64Facts.ltb_negtrans with (key b); auto.
  inversion K as [|? ? _ K']; subst.
  rewrite Forall_forall in K'. apply K', Hb.
Qed.

Lemma ascending_app_inv_l (l1 l2 : list A) : ascending key (l1 ++ l2) -> ascending key l1.
Proof. intros S a b H. apply S, before_app_l, H. Qed.

Lemma ascending_app_inv_r (l1 l2 : list A) : ascending key (l1 ++ l2) -> ascending key l2.
Proof. intros S a b H. apply S, before_app_r, H. Qed.

Lemma insert_ascending (x : A) (l : list A) :
  keys_ok key l -> ascending key l -> ascending key (insert key x l).
Proof.
  intros K S.
  destruct (insert_split x l) as (l1 & l2 & -> & -> & H1 & H2).
  assert (K2 : keys_ok key l2) by (apply Forall_app in K; tauto).
  pose proof (ascending_tail_above x K2 (ascending_app_inv_r _ S) H2) as H3.
  intros a b H.
  apply before_app_inv in H. destruct H as [H|[H|[Ha Hb]]].
  - apply S, before_app_l, H.
  - apply before_cons_inv in H. destruct H as [[<- H]|H].
    + rewrite Forall_forall in H3. apply F64Facts.ltb_asym, H3, H.
    + apply S, before_app_r, H.
  - destruct Hb as [<-|Hb].
    + rewrite Forall_forall in H1. apply H1, Ha.
    + apply S, before_app_mid; assumption.
Qed.

Lemma sort_asc_rev (l : list A) : sort_asc key (rev l) = sort_rev key l.
Proof.
  unfold sort_asc, sort_rev.
  rewrite <- (rev_involutive l) at 2.
  rewrite fold_left_rev_right. reflexivity.
Qed.

Lemma sort_rev_perm (l : list A) : Permutation (sort_rev key l) l.
Proof.
  induction l as [|x l IH]; simpl; [constructor|].
  rewrite insert_perm. constructor. exact IH.
Qed.

Lemma keys_ok_perm (l l' : list A) : Permutation l l' -> keys_ok key l -> keys_ok key l'.
Proof. intros P K. unfold keys_ok. rewrite <- P. exact K. Qed.

Lemma sort_rev_ascending (l : list A) : keys_ok key l -> ascending key (sort_rev key l).
Proof.
  induction l as [|x l IH]; simpl; intros K.
  - intros a b (l1 & l2 & l3 & H). destruct l1; discriminate.
  - inversion K; subst. apply insert_ascending; auto.
    apply keys_ok_perm with l; auto. symmetry. apply sort_rev_perm.
Qed.

(** Elements with tied keys come out of [sort_rev] in reverse order. *)
Lemma sort_rev_ties (k : F64.t) (l : list A) :
  F64.is_nan k = false -> keys_ok key l ->
  filter (fun y => F64.tied k (key y)) (sort_rev key l) =
  rev (filter (fun y => F64.tied k (key y)) l).
Proof.
  intros Hk. induction l as [|x l IH]; simpl; intros K; [reflexivity|].
  inversion K as [|? ? Kx Kl]; subst.
  specialize (IH Kl).
  assert (Ks : keys_ok key (sort_rev key l))
    by (apply keys_ok_perm with l; auto; symmetry; apply sort_rev_perm).
  pose proof (sort_rev_ascending Kl) as S.
  destruct (insert_split x (sort_rev key l)) as (l1 & l2 & E & -> & H1 & H2).
  rewrite E in *.
  assert (K2 : keys_ok key l2) by (apply Forall_app in Ks; tauto).
  pose proof (ascending_tail_above x K2 (ascending_app_inv_r _ S) H2) as H3.
  rewrite filter_app in *. simpl.
  destruct (F64.tied k (key x)) eqn:T; simpl.
  - assert (E2 : filter (fun y => F64.tied k (key y)) l2 = []).
    { clear - H3 T Hk Kx K2. induction l2 as [|b l2 IH2]; simpl; [reflexivity|].
      inversion H3; subst. inversion K2; subst.
      rewrite IH2 by assumption.
      assert (F64.tied k (key b) = false); [|now rewrite H].
      unfold F64.tied.
      rewrite (F64Facts.ltb_tied_l k (key x) (key b) Hk Kx T).
      rewrite H1. reflexivity. }
    rewrite E2 in *. rewrite app_nil_r in IH. rewrite IH. reflexivity.
  - exact IH.
Qed.

Lemma sorted_desc_eq (l : list A) : sorted key true l = rev (sort_rev key l).
Proof. unfold sorted. rewrite sort_asc_rev. reflexivity. Qed.

Lemma sorted_desc_perm (l : list A) : Permutation (sorted key true l) l.
Proof.
  rewrite sorted_desc_eq. rewrite <- Permutation_rev. apply sort_rev_perm.
Qed.

Lemma sorted_desc_descending (l : list A) :
  keys_ok key l -> descending key (sorted key true l).
Proof.
  intros K a b H. rewrite sorted_desc_eq in H.
  apply (proj1 (before_rev _ _ _)) in H.
  exact (sort_rev_ascending K H).
Qed.

(** [sorted(..., reverse=True)] is stable: tied elements keep the order
    they had in the input. *)
Lemma sorted_desc_stable (l : list A) (a b : A) :
  keys_ok key l -> before (sorted key true l) a b ->
  F64.ltb (key b) (key a) = false -> before l a b.
Proof.
  intros K H T.
  assert (Ha : F64.is_nan (key a) = false).
  { unfold keys_ok in K. rewrite Forall_forall in K. apply K.
    apply (Permutation_in _ (sorted_desc_perm l)). eapply before_In_l, H. }
  set (f := fun y => F64.tied (key a) (key y)).
  assert (Hfa : f a = true)
    by (unfold f, F64.tied; rewrite F64Facts.ltb_irrefl; reflexivity).
  assert (Hfb : f b = true).
  { unfold f, F64.tied. rewrite T, (sorted_desc_descending K H). reflexivity. }
  assert (H' : before (filter f (sorted key true l)) a b)
    by (apply before_filter; auto).
  rewrite sorted_desc_eq, filter_rev in H'.
  unfold f in H'. rewrite sort_rev_ties in H' by assumption.
  rewrite rev_involutive in H'.
  apply before_filter in H'. tauto.
Qed.

Lemma sort_asc_perm (l : list A) : Permutation (sort_asc key l) l.
Proof.
  rewrite <- (rev_involutive l) at 1. rewrite sort_asc_rev.
  rewrite sort_rev_perm. symmetry. apply Permutation_rev.
Qed.

Lemma sort_asc_ascending (l : list A) : keys_ok key l -> ascending key (sort_asc key l).
Proof.
  intros K. rewrite <- (rev_involutive l). rewrite sort_asc_rev.
  apply sort_rev_ascending.
  apply keys_ok_perm with l; auto. apply Permutation_rev.
Qed.

End SortedFacts.

(** * Dictionaries and sets *)
Section DictFacts.
Variable V : Type.
Implicit Types (d : dict V) (k : Z) (v : V).

Lemma mem_In (x : Z) (l : list Z) : mem x l = true <-> In x l.
Proof.
  unfold mem. rewrite existsb_exists. split.
  - intros (y & H & E). apply Z.eqb_eq in E. subst. exact H.
  - intros H. exists x. split; [exact H|apply Z.eqb_refl].
Qed.

Lemma mem_false (x : Z) (l : list Z) : mem x l = false <-> ~ In x l.
Proof.
  rewrite <- mem_In. destruct (mem x l); split; congruence.
Qed.

Lemma dict_get_None d k : dict_get k d = None <-> ~ In k (map fst d).
Proof.
  induction d as [|[k' v'] d IH]; simpl.
  - tauto.
  - destruct (Z.eqb_spec k k') as [->|N].
    + split; [discriminate|]. intros H. exfalso. apply H. left. reflexivity.
    + rewrite IH. split; [intros H [E|E]; [congruence|auto]|tauto].
Qed.

Lemma dict_get_In d k v : dict_get k d = Some v -> In (k, v) d.
Proof.
  induction d as [|[k' v'] d IH]; simpl; [discriminate|].
  destruct (Z.eqb_spec k k') as [->|N].
  - intros [= ->]. left. reflexivity.
  - intros H. right. apply IH, H.
Qed.

Lemma In_dict_get d k v : NoDup (map fst d) -> In (k, v) d -> dict_get k d = Some v.
Proof.
  induction d as [|[k' v'] d IH]; simpl; [contradiction|].
  intros N H. inversion N as [|? ? Nk Nd]; subst.
  destruct H as [[= -> ->]|H].
  - rewrite Z.eqb_refl. reflexivity.
  - destruct (Z.eqb_spec k k') as [->|Ne]; [|apply IH; assumption].
    exfalso. apply Nk. apply in_map_iff. exists (k', v). split; auto.
Qed.

Lemma dict_get_set_eq d k v : dict_get k (dict_set k v d) = Some v.
Proof.
  induction d as [|[k' v'] d IH]; simpl.
  - rewrite Z.eqb_refl. reflexivity.
  - destruct (Z.eqb_spec k k') as [->|N]; simpl.
    + rewrite Z.eqb_refl. reflexivity.
    + destruct (Z.eqb_spec k k'); [contradiction|exact IH].
Qed.

Lemma dict_get_set_neq d k k' v : k <> k' -> dict_get k' (dict_set k v d) = dict_get k' d.
Proof.
  intros N. induction d as [|[k0 v0] d IH]; simpl.
  - destruct (Z.eqb_spec k' k); [congruence|reflexivity].
  - destruct (Z.eqb_spec k k0) as [->|N0]; simpl.
    + destruct (Z.eqb_spec k' k0); [congruence|reflexivity].
    + rewrite IH. reflexivity.
Qed.

(** Assigning to a key that is present keeps the order of the keys. *)
Lemma dict_set_present d k v w :
  dict_get k d = Some w -> map fst (dict_set k v d) = map fst d.
Proof.
  induction d as [|[k' v'] d IH]; simpl; [discriminate|].
  destruct (Z.eqb_spec k k') as [->|N]; simpl; [reflexivity|].
  intros H. rewrite IH by exact H. reflexivity.
Qed.

(** Assigning to a new key appends it. *)
Lemma dict_set_absent d k v : dict_get k d = None -> dict_set k v d = d ++ [(k, v)].
Proof.
  induction d as [|[k' v'] d IH]; simpl; [reflexivity|].
  destruct (Z.eqb_spec k k') as [->|N]; [discriminate|].
  intros H. rewrite IH by exact H. reflexivity.
Qed.

Lemma dict_set_keys d k v :
  map fst (dict_set k v d) = if dict_mem k d then map fst d else map fst d ++ [k].
Proof.
  unfold dict_mem. destruct (dict_get k d) eqn:E.
  - eapply dict_set_present, E.
  - rewrite dict_set_absent by exact E. rewrite map_app. reflexivity.
Qed.

Lemma dict_mem_In d k : dict_mem k d = true <-> In k (map fst d).
Proof.
  unfold dict_mem. pose proof (dict_get_None d k) as H.
  destruct (dict_get k d).
  - split; [intros _|reflexivity].
    destruct (in_dec Z.eq_dec k (map fst d)) as [I|I]; [exact I|].
    apply H in I. discriminate.
  - split; [discriminate|]. intros I. exfalso. apply H; auto.
Qed.

End DictFacts.

(** * Hybrid ranking *)
Section HybridFacts.

Lemma position_lt (p : Z) (l : list Z) (i : nat) :
  Pd.position p l = Some i -> (i < length l)%nat.
Proof.
  revert i. induction l as [|y l IH]; simpl; intros i; [discriminate|].
  destruct (p =? y); [intros [= <-]; lia|].
  destruct (Pd.position p l) as [j|]; simpl; [|discriminate].
  intros [= <-]. specialize (IH j eq_refl). lia.
Qed.

Lemma position_None (p : Z) (l : list Z) : Pd.position p l = None <-> ~ In p l.
Proof.
  induction l as [|y l IH]; simpl; [tauto|].
  destruct (Z.eqb_spec p y) as [->|N].
  - split; [discriminate|]. intros H. exfalso. apply H. auto.
  - destruct (Pd.position p l); simpl.
    + split; [discriminate|]. intros H. exfalso. apply H. right.
      destruct IH as [_ IH].
      destruct (in_dec Z.eq_dec p l) as [I|I]; [exact I|].
      specialize (IH I). discriminate.
    + split; [|reflexivity]. intros _ [E|I]; [congruence|].
      destruct IH as [IH _]. apply IH; auto.
Qed.

Lemma position_nth (p : Z) (l : list Z) (i : nat) :
  Pd.position p l = Some i -> nth_error l i = Some p.
Proof.
  revert i. induction l as [|y l IH]; simpl; intros i; [discriminate|].
  destruct (Z.eqb_spec p y) as [->|N]; [intros [= <-]; reflexivity|].
  destruct (Pd.position p l) as [j|]; simpl; [|discriminate].
  intros [= <-]. simpl. apply IH. reflexivity.
Qed.

Variable V : Type.

Lemma fold_set_fresh (f : nat * Z -> V) (ips : list (nat * Z)) (d : dict V) :
  NoDup (map snd ips) ->
  (forall ip, In ip ips -> ~ In (snd ip) (map fst d)) ->
  fold_left (fun d ip => dict_set (snd ip) (f ip) d) ips d =
  d ++ map (fun ip => (snd ip, f ip)) ips.
Proof.
  revert d. induction ips as [|ip ips IH]; simpl; intros d N F.
  - rewrite app_nil_r. reflexivity.
  - inversion N as [|? ? Nx Nl]; subst.
    rewrite dict_set_absent by (apply dict_get_None, F; auto).
    rewrite IH; auto.
    + rewrite <- app_assoc. reflexivity.
    + intros ip' I. rewrite map_app. simpl. intros H.
      apply in_app_or in H. destruct H as [H|[H|[]]].
      * apply (F ip'); auto.
      * apply Nx. rewrite H. apply in_map, I.
Qed.

Lemma dict_get_enumerated (f : nat -> V) (p : Z) (l : list Z) (s : nat) :
  dict_get p (map (fun ip : nat * Z => (snd ip, f (fst ip))) (combine (seq s (length l)) l)) =
  option_map (fun i => f (s + i)%nat) (Pd.position p l).
Proof.
  revert s. induction l as [|y l IH]; simpl; intros s; [reflexivity|].
  destruct (p =? y).
  - simpl. rewrite Nat.add_0_r. reflexivity.
  - rewrite IH. destruct (Pd.position p l); simpl; [|reflexivity].
    rewrite Nat.add_succ_r. reflexivity.
Qed.

Lemma map_snd_combine_seq (l : list Z) (s : nat) :
  map snd (combine (seq s (length l)) l) = l.
Proof.
  revert s. induction l as [|y l IH]; simpl; intros s; [reflexivity|].
  rewrite IH. reflexivity.
Qed.

End HybridFacts.

Section HybridContent.
Variable g : nat * Z -> F64.t.

Lemma content_step_get (d : dict F64.t) (ip : nat * Z) (p : Z) :
  dict_get p (content_step g d ip) =
  if snd ip =? p
  then Some (match dict_get p d with Some w => F64.add w (g ip) | None => g ip end)
  else dict_get p d.
Proof.
  unfold content_step. destruct (Z.eqb_spec (snd ip) p) as [<-|N].
  - destruct (dict_get (snd ip) d); apply dict_get_set_eq.
  - destruct (dict_get (snd ip) d); apply dict_get_set_neq; exact N.
Qed.

Lemma content_fold_get (ips : list (nat * Z)) (d : dict F64.t) (p : Z) :
  NoDup (map snd ips) ->
  dict_get p (fold_left (content_step g) ips d) =
  match find (fun ip => snd ip =? p) ips with
  | Some ip => Some (match dict_get p d with Some w => F64.add w (g ip) | None => g ip end)
  | None => dict_get p d
  end.
Proof.
  revert d. induction ips as [|ip ips IH]; simpl; intros d N; [reflexivity|].
  inversion N as [|? ? Nx Nl]; subst.
  rewrite IH by exact Nl. rewrite content_step_get.
  destruct (Z.eqb_spec (snd ip) p) as [E|E].
  - destruct (find (fun ip0 => snd ip0 =? p) ips) as [ip'|] eqn:F; [|reflexivity].
    apply find_some in F. destruct F as [I F]. apply Z.eqb_eq in F.
    exfalso. apply Nx. rewrite E, <- F. apply in_map, I.
  - reflexivity.
Qed.

Lemma content_step_keys (d : dict F64.t) (ip : nat * Z) :
  map fst (content_step g d ip) =
  if mem (snd ip) (map fst d) then map fst d else map fst d ++ [snd ip].
Proof.
  unfold content_step. destruct (dict_get (snd ip) d) eqn:E.
  - erewrite dict_set_present by exact E.
    assert (M : mem (snd ip) (map fst d) = true).
    { apply mem_In. apply dict_get_In in E. apply in_map_iff.
      exists (snd ip, t). auto. }
    rewrite M. reflexivity.
  - rewrite dict_set_absent by exact E. rewrite map_app. simpl.
    assert (M : mem (snd ip) (map fst d) = false)
      by (apply mem_false, dict_get_None, E).
    rewrite M. reflexivity.
Qed.

Lemma content_fold_keys (ips : list (nat * Z)) (d : dict F64.t) :
  NoDup (map snd ips) ->
  map fst (fold_left (content_step g) ips d) =
  map fst d ++ filter (fun p => negb (mem p (map fst d))) (map snd ips).
Proof.
  revert d. induction ips as [|ip ips IH]; simpl; intros d N.
  - rewrite app_nil_r. reflexivity.
  - inversion N as [|? ? Nx Nl]; subst.
    rewrite IH by exact Nl. rewrite content_step_keys.
    destruct (mem (snd ip) (map fst d)) eqn:M; simpl; [reflexivity|].
    rewrite <- app_assoc. simpl. f_equal. f_equal.
    apply filter_ext_in. intros q Hq. f_equal.
    unfold mem. rewrite existsb_app. simpl.
    destruct (Z.eqb_spec q (snd ip)) as [->|]; [contradiction|].
    rewrite orb_false_r. reflexivity.
Qed.

End HybridContent.

Lemma find_enumerated (p : Z) (l : list Z) (s : nat) :
  find (fun ip : nat * Z => snd ip =? p) (combine (seq s (length l)) l) =
  option_map (fun i => ((s + i)%nat, p)) (Pd.position p l).
Proof.
  revert s. induction l as [|y l IH]; simpl; intros s; [reflexivity|].
  rewrite (Z.eqb_sym y p).
  destruct (Z.eqb_spec p y) as [->|N].
  - simpl. rewrite Nat.add_0_r. reflexivity.
  - rewrite IH. destruct (Pd.position p l); simpl; [|reflexivity].
    rewrite Nat.add_succ_r. reflexivity.
Qed.

Lemma score_collab_eq (collab : list Z) :
  NoDup collab ->
  score_collab collab =
  map (fun ip : nat * Z => (snd ip, position_score (length collab) (fst ip) F64.lit_0_6))
      (enumerate collab).
Proof.
  intros N. unfold score_collab.
  rewrite (fold_set_fresh
             (fun ip => position_score (length collab) (fst ip) F64.lit_0_6)).
  - reflexivity.
  - unfold enumerate. rewrite map_snd_combine_seq. exact N.
  - simpl. tauto.
Qed.

Lemma score_collab_keys (collab : list Z) :
  NoDup collab -> map fst (score_collab collab) = collab.
Proof.
  intros N. rewrite score_collab_eq by exact N.
  rewrite map_map. simpl. apply map_snd_combine_seq.
Qed.

Lemma hybrid_scores_keys (collab content : list Z) :
  NoDup collab -> NoDup content ->
  map fst (hybrid_scores collab content) = first_scored collab content.
Proof.
  intros Nc Nt. unfold hybrid_scores, score_content, first_scored.
  change (fun (all_recs : dict F64.t) (ip : nat * Z) => _)
    with (content_step (fun ip => position_score (length content) (fst ip) F64.lit_0_4)).
  rewrite content_fold_keys
    by (unfold enumerate; rewrite map_snd_combine_seq; exact Nt).
  rewrite score_collab_keys by exact Nc.
  unfold enumerate. rewrite map_snd_combine_seq. reflexivity.
Qed.

(** Every product gets the total score of the specification. *)
Lemma hybrid_scores_get (collab content : list Z) (p : Z) :
  NoDup collab -> NoDup content ->
  dict_get p (hybrid_scores collab content) = total_score collab content p.
Proof.
  intros Nc Nt. unfold hybrid_scores, score_content, total_score.
  change (fun (all_recs : dict F64.t) (ip : nat * Z) => _)
    with (content_step (fun ip => position_score (length content) (fst ip) F64.lit_0_4)).
  rewrite content_fold_get
    by (unfold enumerate; rewrite map_snd_combine_seq; exact Nt).
  unfold enumerate. rewrite find_enumerated.
  rewrite score_collab_eq by exact Nc. unfold enumerate.
  rewrite (dict_get_enumerated
             (fun i => position_score (length collab) i F64.lit_0_6)).
  destruct (Pd.position p collab), (Pd.position p content); reflexivity.
Qed.

Lemma first_scored_NoDup (collab content : list Z) :
  NoDup collab -> NoDup content -> NoDup (first_scored collab content).
Proof.
  intros Nc Nt. unfold first_scored. apply NoDup_app.
  - exact Nc.
  - apply NoDup_filter, Nt.
  - intros x Hx Hf. apply filter_In in Hf. destruct Hf as [_ Hf].
    apply negb_true_iff, mem_false in Hf. contradiction.
Qed.

Lemma position_score_nonneg (len i : nat) (m : positive) (e : Z) :
  (i <= len)%nat ->
  F64.nonneg (position_score len i (S754_finite false m e)) = true.
Proof.
  intros H. unfold position_score.
  apply F64Facts.mul_nonneg, F64Facts.of_Z_nonneg. lia.
Qed.

Lemma total_score_nonneg (collab content : list Z) (p : Z) (s : F64.t) :
  total_score collab content p = Some s -> F64.nonneg s = true.
Proof.
  unfold total_score.
  destruct (Pd.position p collab) as [i|] eqn:Ei;
    destruct (Pd.position p content) as [j|] eqn:Ej; intros [= <-].
  - apply position_lt in Ei, Ej.
    apply F64Facts.add_nonneg; apply position_score_nonneg; lia.
  - apply position_lt in Ei. apply position_score_nonneg; lia.
  - apply position_lt in Ej. apply position_score_nonneg; lia.
Qed.

(** * Slices *)
Section SliceFacts.
Variable A : Type.
Implicit Types (l : list A).

Lemma slice_to_nonneg (n : Z) l : 0 <= n -> slice_to n l = firstn (Z.to_nat n) l.
Proof.
  intros H. unfold slice_to, slice, clamp.
  destruct (Z.ltb_spec n 0) as [|_]; [lia|]. simpl.
  rewrite (Z.min_l 0) by lia. rewrite Z.sub_0_r. simpl.
  destruct (Z.le_ge_cases n (Z.of_nat (length l))) as [L|L].
  - rewrite Z.min_l by lia. reflexivity.
  - rewrite Z.min_r by lia. rewrite Nat2Z.id.
    rewrite !firstn_all2 by lia. reflexivity.
Qed.

Lemma slice_to_neg (n : Z) l :
  n < 0 -> slice_to n l = firstn (length l - Z.to_nat (- n)) l.
Proof.
  intros H. unfold slice_to, slice, clamp.
  destruct (Z.ltb_spec n 0) as [_|]; [|lia]. simpl.
  rewrite (Z.min_l 0) by lia. rewrite Z.sub_0_r. simpl.
  f_equal. lia.
Qed.

Lemma slice_to_length (n : Z) l : 0 <= n -> (length (slice_to n l) <= Z.to_nat n)%nat.
Proof.
  intros H. rewrite slice_to_nonneg by exact H. apply firstn_le_length.
Qed.

Lemma slice_to_prefix (n : Z) l : exists k, slice_to n l = firstn k l.
Proof.
  destruct (Z.lt_ge_cases n 0).
  - eexists. apply slice_to_neg. assumption.
  - eexists. apply slice_to_nonneg. assumption.
Qed.

End SliceFacts.

(* ===================================================================== *)
(** * C1: hybrid ranking *)
(* ===================================================================== *)

(** C1, as stated, fails: [9] and [2] both total
    [4*0.6 + 1*0.4 = 2*0.6 + 4*0.4] (the same double), and [9] is returned
    first because it entered the score table first. *)
Lemma hybrid_ties_not_by_id :
  ~ hybrid_ties_by_ascending_id [9; 5; 2; 6] [2; 7; 8; 9] 4.
Proof.
  intros H.
  assert (L : 9 < 2); [|lia].
  eapply (H 9 2).
  - exists [], [], [5; 7]. vm_compute. reflexivity.
  - vm_compute. reflexivity.
  - vm_compute. reflexivity.
  - vm_compute. reflexivity.
Qed.

(** C1 (amended): for duplicate-free input lists and every [n],
    [hybrid_fuse] gives the item at position [i] of a list of length [L] the
    score [(L - i) * weight], weight [0.6] for the collaborative list and
    [0.4] for the content list, sums the two scores of a product in both
    lists, orders the products by descending total score, keeps products
    with equal totals in the order in which they were first scored (the
    collaborative list, then the remaining products of the content list),
    and returns the first [n] (for [n >= 0]; [[:n]] of the ranking in
    general). *)
Theorem hybrid_fuse_ranking (collab content : list Z) (n : Z) :
  NoDup collab -> NoDup content ->
  exists ranked : list (Z * F64.t),
    hybrid_fuse collab content n = map fst (slice_to n ranked) /\
    (0 <= n -> hybrid_fuse collab content n = firstn (Z.to_nat n) (map fst ranked)) /\
    Permutation (map fst ranked) (first_scored collab content) /\
    (forall p s, In (p, s) ranked -> total_score collab content p = Some s) /\
    (forall a b, before ranked a b -> F64.ltb (snd a) (snd b) = false) /\
    (forall a b, before ranked a b -> F64.ltb (snd b) (snd a) = false ->
       before (first_scored collab content) (fst a) (fst b)).
Proof.
  intros Nc Nt.
  set (scores := hybrid_scores collab content).
  assert (Hget : forall p s, In (p, s) scores -> total_score collab content p = Some s).
  { intros p s I. rewrite <- hybrid_scores_get by assumption.
    apply In_dict_get; [|exact I].
    unfold scores. rewrite hybrid_scores_keys by assumption.
    apply first_scored_NoDup; assumption. }
  assert (K : keys_ok (@snd Z F64.t) scores).
  { apply Forall_forall. intros [p s] I. simpl.
    apply F64Facts.nonneg_not_nan. eapply total_score_nonneg, Hget, I. }
  exists (sorted (@snd Z F64.t) true scores).
  split; [reflexivity|]. split; [|split; [|split; [|split]]].
  - intros Hn. unfold hybrid_fuse. fold scores.
    rewrite slice_to_nonneg by exact Hn. symmetry. apply firstn_map.
  - rewrite <- hybrid_scores_keys by assumption.
    apply Permutation_map, sorted_desc_perm.
  - intros p s I. apply Hget.
    apply (Permutation_in _ (sorted_desc_perm (@snd Z F64.t) scores)), I.
  - intros a b H. exact (sorted_desc_descending K H).
  - intros a b H T. rewrite <- hybrid_scores_keys by assumption.
    apply before_map. exact (sorted_desc_stable K H T).
Qed.

(** The ranking of the two lists above. *)
Lemma hybrid_fuse_ranking_witness :
  exists ranked : list (Z * F64.t),
    hybrid_fuse [9; 5; 2; 6] [2; 7; 8; 9] 4 = map fst (slice_to 4 ranked) /\
    (0 <= 4 -> hybrid_fuse [9; 5; 2; 6] [2; 7; 8; 9] 4 = firstn (Z.to_nat 4) (map fst ranked)) /\
    Permutation (map fst ranked) (first_scored [9; 5; 2; 6] [2; 7; 8; 9]) /\
    (forall p s, In (p, s) ranked -> total_score [9; 5; 2; 6] [2; 7; 8; 9] p = Some s) /\
    (forall a b, before ranked a b -> F64.ltb (snd a) (snd b) = false) /\
    (forall a b, before ranked a b -> F64.ltb (snd b) (snd a) = false ->
       before (first_scored [9; 5; 2; 6] [2; 7; 8; 9]) (fst a) (fst b)).
Proof.
  apply (@hybrid_fuse_ranking [9; 5; 2; 6] [2; 7; 8; 9] 4);
    repeat constructor; simpl; intuition lia.
Defined.

(* ===================================================================== *)
(** * Facts about the pandas model and the loops *)
(* ===================================================================== *)

Lemma mapM_map (A B C : Type) (f : B -> result C) (h : A -> B) (g : A -> C) (l : list A) :
  (forall x, In x l -> f (h x) = Ok (g x)) ->
  mapM f (map h l) = Ok (map g l).
Proof.
  induction l as [|x l IH]; simpl; intros H; [reflexivity|].
  rewrite H by auto. simpl. rewrite IH by auto. reflexivity.
Qed.

Lemma mapM_ok (A B : Type) (f : A -> result B) (g : A -> B) (l : list A) :
  (forall x, In x l -> f x = Ok (g x)) ->
  mapM f l = Ok (map g l).
Proof.
  intros H. rewrite <- (map_id l) at 1. apply mapM_map. exact H.
Qed.

Lemma map_fst_combine (A B : Type) (l : list A) (l' : list B) :
  length l = length l' -> map fst (combine l l') = l.
Proof.
  revert l'. induction l as [|x l IH]; intros [|y l']; simpl; try discriminate; auto.
  intros [= E]. rewrite IH by exact E. reflexivity.
Qed.

Lemma map_snd_combine (A B : Type) (l : list A) (l' : list B) :
  length l = length l' -> map snd (combine l l') = l'.
Proof.
  revert l'. induction l as [|x l IH]; intros [|y l']; simpl; try discriminate; auto.
  intros [= E]. rewrite IH by exact E. reflexivity.
Qed.

Lemma before_nil (A : Type) (a b : A) : ~ before [] a b.
Proof. intros (l1 & l2 & l3 & E). destruct l1; discriminate. Qed.

Lemma before_single (A : Type) (x a b : A) : ~ before [x] a b.
Proof.
  intros B. apply before_cons_inv in B. destruct B as [[_ []]|B].
  exact (before_nil B).
Qed.

(** ** Labels of a pivot table *)

Lemma increasing_tail (x : Z) (l : list Z) : increasing (x :: l) -> increasing l.
Proof. intros H a b B. apply H, before_cons, B. Qed.

Lemma increasing_NoDup (l : list Z) : increasing l -> NoDup l.
Proof.
  induction l as [|x l IH]; intros H; constructor.
  - intros I. assert (x < x); [|lia]. apply H, before_head, I.
  - apply IH. eapply increasing_tail, H.
Qed.

Lemma insert_label_In (x y : Z) (l : list Z) :
  In y (Pd.insert_label x l) <-> y = x \/ In y l.
Proof.
  induction l as [|z l IH]; simpl.
  - intuition.
  - destruct (Z.ltb_spec x z); [simpl; intuition|].
    destruct (Z.eqb_spec x z) as [->|]; simpl; [intuition|].
    rewrite IH. intuition.
Qed.

Lemma insert_label_increasing (x : Z) (l : list Z) :
  increasing l -> increasing (Pd.insert_label x l).
Proof.
  induction l as [|z l IH]; simpl; intros H.
  - intros a b B. destruct (before_single B).
  - destruct (Z.ltb_spec x z) as [L|L].
    + intros a b B. apply before_cons_inv in B. destruct B as [[<- I]|B].
      * destruct I as [<-|I]; [exact L|].
        assert (z < b); [|lia]. apply H, before_head, I.
      * apply H, B.
    + destruct (Z.eqb_spec x z) as [->|N]; [exact H|].
      intros a b B. apply before_cons_inv in B. destruct B as [[<- I]|B].
      * apply insert_label_In in I. destruct I as [->|I]; [lia|].
        apply H, before_head, I.
      * apply IH; [|exact B]. eapply increasing_tail, H.
Qed.

Lemma sorted_unique_increasing (l : list Z) : increasing (Pd.sorted_unique l).
Proof.
  induction l as [|x l IH]; simpl.
  - intros a b B. destruct (before_nil B).
  - apply insert_label_increasing, IH.
Qed.

Lemma sorted_unique_In (x : Z) (l : list Z) : In x (Pd.sorted_unique l) <-> In x l.
Proof.
  induction l as [|y l IH]; simpl; [tauto|].
  rewrite insert_label_In, IH. intuition.
Qed.

Lemma pivot_table_ok (data : list Interaction.t) : table_ok (Pd.pivot_table data).
Proof.
  unfold Pd.pivot_table. constructor; simpl.
  - apply increasing_NoDup, sorted_unique_increasing.
  - apply length_map.
  - apply Forall_forall. intros r I. apply in_map_iff in I.
    destruct I as (u & <- & _). apply length_map.
Qed.

Lemma position_Some (x : Z) (l : list Z) :
  In x l -> exists t, Pd.position x l = Some t.
Proof.
  intros I. destruct (Pd.position x l) eqn:E; [eauto|].
  apply position_None in E. contradiction.
Qed.

Lemma loc_ok (pt : Pd.PivotTable) (u : Z) :
  table_ok pt -> In u (Pd.index pt) ->
  exists t r, Pd.position u (Pd.index pt) = Some t /\
              nth_error (Pd.values pt) t = Some r /\ Pd.loc pt u = Ok r.
Proof.
  intros W I. destruct (@position_Some u (Pd.index pt) I) as [t E].
  pose proof (@position_lt u (Pd.index pt) t E) as L.
  destruct (nth_error (Pd.values pt) t) as [r|] eqn:N.
  - exists t, r. unfold Pd.loc. rewrite E. simpl. rewrite N. auto.
  - apply nth_error_None in N. rewrite (values_rows W) in N. lia.
Qed.

(** ** The neighbours *)

Lemma similarity_series_eq (rt : Runtime) (pt : Pd.PivotTable) (u : Z) (r : list F64.t) :
  Pd.loc pt u = Ok r ->
  similarity_series rt pt u =
  combine (Pd.index pt) (map (fun x => cosine rt x r) (Pd.values pt)).
Proof. intros E. unfold similarity_series. rewrite E. reflexivity. Qed.

Lemma similarity_series_fst (rt : Runtime) (pt : Pd.PivotTable) (u : Z) :
  table_ok pt -> In u (Pd.index pt) ->
  map fst (similarity_series rt pt u) = Pd.index pt.
Proof.
  intros W I. destruct (@loc_ok pt u W I) as (t & r & _ & _ & E).
  rewrite (@similarity_series_eq rt pt u r E).
  apply map_fst_combine. rewrite length_map. symmetry. apply (values_rows W).
Qed.

Lemma similarity_series_snd (rt : Runtime) (pt : Pd.PivotTable) (u : Z) (r : list F64.t) :
  table_ok pt -> Pd.loc pt u = Ok r ->
  map snd (similarity_series rt pt u) = map (fun x => cosine rt x r) (Pd.values pt).
Proof.
  intros W E. rewrite (@similarity_series_eq rt pt u r E).
  apply map_snd_combine. rewrite length_map. symmetry. apply (values_rows W).
Qed.

(** Line 79 on a well-formed table: the series of all users, permuted by
    the sort, entries two to six. *)
Lemma similar_users_ok (rt : Runtime) (pt : Pd.PivotTable) (u : Z) :
  (forall v, Permutation (sort_values_desc rt v) (seq 0 (length v))) ->
  table_ok pt -> check_array (Pd.values pt) = true -> In u (Pd.index pt) ->
  similar_users rt pt u =
  Ok (slice 1 6
        (map (fun i => nth i (similarity_series rt pt u) (0, S754_nan))
             (sort_values_desc rt (map snd (similarity_series rt pt u))))).
Proof.
  intros P W C I.
  destruct (@loc_ok pt u W I) as (t & r & Et & Er & El).
  rewrite (@similarity_series_snd rt pt u r W El).
  rewrite (@similarity_series_eq rt pt u r El).
  unfold similar_users, cosine_similarity. rewrite C. simpl.
  rewrite Et. simpl.
  rewrite (mapM_map _ _ (fun x => cosine rt x r)).
  2:{ intros x _. rewrite (map_nth_error _ _ _ Er). reflexivity. }
  simpl.
  set (col := map (fun x => cosine rt x r) (Pd.values pt)).
  assert (Lc : length col = length (Pd.index pt))
    by (unfold col; rewrite length_map; apply (values_rows W)).
  rewrite (mapM_ok _ (fun i => nth i (combine (Pd.index pt) col) (0, S754_nan))).
  - reflexivity.
  - intros i Hi.
    apply (Permutation_in _ (P col)) in Hi. apply in_seq in Hi.
    rewrite (nth_error_nth' (Pd.index pt) 0) by lia.
    rewrite (nth_error_nth' col S754_nan) by lia.
    simpl. rewrite combine_nth by (symmetry; exact Lc). reflexivity.
Qed.

(** ** The accumulation loop *)

Lemma dict_set_In (V : Type) (d : dict V) (k : Z) (v : V) (kv : Z * V) :
  In kv (dict_set k v d) -> kv = (k, v) \/ In kv d.
Proof.
  induction d as [|[k' v'] d IH]; simpl.
  - intuition.
  - destruct (k =? k'); simpl; intuition.
Qed.

Lemma dict_set_NoDup (V : Type) (d : dict V) (k : Z) (v : V) :
  NoDup (map fst d) -> NoDup (map fst (dict_set k v d)).
Proof.
  intros N. rewrite dict_set_keys.
  destruct (dict_mem k d) eqn:M; [exact N|].
  apply NoDup_app; [exact N|repeat constructor; simpl; tauto|].
  intros x Hx [<-|[]].
  apply dict_mem_In in Hx. congruence.
Qed.

Lemma dict_set_weights_ok (d : dict F64.t) (k : Z) (v : F64.t) :
  weights_ok d -> F64.nonneg v = true -> weights_ok (dict_set k v d).
Proof.
  intros [N F] Hv. split; [apply dict_set_NoDup, N|].
  apply Forall_forall. intros kv I. apply dict_set_In in I.
  destruct I as [->|I]; [exact Hv|].
  rewrite Forall_forall in F. apply F, I.
Qed.

Lemma bump_weights_ok (s : F64.t) (d : dict F64.t) (p : Z) :
  weights_ok d -> F64.nonneg s = true -> weights_ok (bump s d p).
Proof.
  intros W Hs. unfold bump. destruct (dict_get p d) as [w|] eqn:E.
  - apply dict_set_weights_ok; [exact W|].
    apply F64Facts.add_nonneg; [|exact Hs].
    apply dict_get_In in E. destruct W as [_ F].
    rewrite Forall_forall in F. apply (F _ E).
  - apply dict_set_weights_ok.
    + apply dict_set_weights_ok; [exact W|reflexivity].
    + apply F64Facts.add_nonneg; [reflexivity|exact Hs].
Qed.

Lemma inner_step (s : F64.t) (d : dict F64.t) (p : Z) :
  dict_iadd p s (if negb (dict_mem p d) then dict_set p F64.zero d else d) =
  Ok (bump s d p).
Proof.
  unfold dict_iadd, bump, dict_mem.
  destruct (dict_get p d) as [w|] eqn:E; simpl.
  - rewrite E. reflexivity.
  - rewrite dict_get_set_eq. reflexivity.
Qed.

Lemma inner_loop (s : F64.t) (l : list Z) (d : dict F64.t) :
  foldM (fun recommendations product_id =>
      let recommendations :=
        if negb (dict_mem product_id recommendations)
        then dict_set product_id F64.zero recommendations
        else recommendations in
      dict_iadd product_id s recommendations) l d =
  Ok (fold_left (bump s) l d).
Proof.
  revert d. induction l as [|p l IH]; simpl; intros d; [reflexivity|].
  rewrite inner_step. simpl. apply IH.
Qed.

Lemma fold_bump_weights_ok (s : F64.t) (l : list Z) (d : dict F64.t) :
  weights_ok d -> F64.nonneg s = true -> weights_ok (fold_left (bump s) l d).
Proof.
  revert d. induction l as [|p l IH]; simpl; intros d W Hs; [exact W|].
  apply IH; [|exact Hs]. apply bump_weights_ok; assumption.
Qed.

Lemma accumulate_from (rt : Runtime) (pt : Pd.PivotTable) (up : pyset)
  (nb : list (Z * F64.t)) (d : dict F64.t) :
  table_ok pt -> weights_ok d ->
  (forall vs, In vs nb -> In (fst vs) (Pd.index pt) /\ F64.nonneg (snd vs) = true) ->
  exists w,
    foldM (fun recommendations us =>
        let '(similar_user_id, similarity_score) := us in
        row <- Pd.loc pt similar_user_id ;;
        let similar_user_products := rated_products (Pd.columns pt) row in
        let new_products := set_difference rt similar_user_products up in
        foldM (fun recommendations product_id =>
            let recommendations :=
              if negb (dict_mem product_id recommendations)
              then dict_set product_id F64.zero recommendations
              else recommendations in
            dict_iadd product_id similarity_score recommendations)
          (set_iter rt new_products) recommendations) nb d = Ok w /\
    weights_ok w.
Proof.
  intros T. revert d. induction nb as [|[v s] nb IH]; simpl; intros d W H.
  - exists d. auto.
  - destruct (H (v, s) (or_introl eq_refl)) as [Iv Hs]. simpl in Iv, Hs.
    destruct (@loc_ok pt v T Iv) as (t & r & _ & _ & E).
    rewrite E. simpl. rewrite inner_loop. simpl.
    apply IH; [|intros vs I; apply H; auto].
    apply fold_bump_weights_ok; assumption.
Qed.

Lemma accumulate_ok (rt : Runtime) (pt : Pd.PivotTable) (up : pyset)
  (nb : list (Z * F64.t)) :
  table_ok pt ->
  (forall vs, In vs nb -> In (fst vs) (Pd.index pt) /\ F64.nonneg (snd vs) = true) ->
  exists w, accumulate_neighbours rt pt up nb = Ok w /\ weights_ok w.
Proof.
  intros T H. apply accumulate_from; auto.
  split; constructor.
Qed.

Lemma In_firstn (A : Type) (n : nat) (l : list A) (x : A) : In x (firstn n l) -> In x l.
Proof.
  intros H. rewrite <- (firstn_skipn n l). apply in_or_app. left. exact H.
Qed.

Lemma In_skipn (A : Type) (n : nat) (l : list A) (x : A) : In x (skipn n l) -> In x l.
Proof.
  intros H. rewrite <- (firstn_skipn n l). apply in_or_app. right. exact H.
Qed.

Lemma slice_In (A : Type) (a b : Z) (l : list A) (x : A) : In x (slice a b l) -> In x l.
Proof.
  unfold slice. intros H. apply In_firstn in H. apply In_skipn in H. exact H.
Qed.

Lemma forallb_In (A : Type) (f : A -> bool) (l : list A) (x : A) :
  forallb f l = true -> In x l -> f x = true.
Proof. intros H I. rewrite forallb_forall in H. apply H, I. Qed.

Lemma similarity_series_In (rt : Runtime) (pt : Pd.PivotTable) (u : Z) (vs : Z * F64.t) :
  table_ok pt -> similarities_nonneg rt (Pd.values pt) = true ->
  In vs (similarity_series rt pt u) ->
  In (fst vs) (Pd.index pt) /\ F64.nonneg (snd vs) = true.
Proof.
  intros T S I. unfold similarity_series in I.
  destruct (Pd.loc pt u) as [r|] eqn:E; [|contradiction].
  destruct vs as [v s].
  split; [eapply in_combine_l, I|].
  apply in_combine_r in I. apply in_map_iff in I. destruct I as (x & <- & Hx).
  simpl. unfold similarities_nonneg in S.
  eapply forallb_In in S; [|exact Hx]. simpl in S.
  rewrite forallb_forall in S. apply S.
  unfold Pd.loc in E. destruct (Pd.position u (Pd.index pt)); [|discriminate].
  simpl in E. destruct (nth_error (Pd.values pt) n) eqn:N; [|discriminate].
  injection E as <-. eapply nth_error_In, N.
Qed.

Lemma slice_to_nil (A : Type) (n : Z) : slice_to n (@nil A) = [].
Proof.
  unfold slice_to, slice. rewrite skipn_nil. apply firstn_nil.
Qed.

(** The method is the accumulation followed by [sorted] and [[:n]]. *)
Lemma collaborative_filtering_weights (rt : Runtime) (self : RecommenderEngine) (u n : Z) :
  collaborative_filtering rt self u n =
  (w <- collaborative_weights rt self u ;;
   Ok (map fst (slice_to n (sorted (@snd Z F64.t) true w)))).
Proof.
  unfold collaborative_filtering, collaborative_weights, user_item_matrix.
  destruct (_ =? _)%nat; [simpl; rewrite slice_to_nil; reflexivity|].
  destruct (_ =? _)%nat; [simpl; rewrite slice_to_nil; reflexivity|].
  destruct (negb _); [simpl; rewrite slice_to_nil; reflexivity|].
  destruct (similar_users _ _ _); simpl; [|reflexivity].
  destruct (Pd.loc _ _); simpl; reflexivity.
Qed.

(** The accumulation never fails on a matrix of finite ratings whose
    similarities are ordinary non-negative numbers. *)
Lemma collaborative_weights_ok (rt : Runtime) (self : RecommenderEngine) (u : Z) :
  sorts_ok rt ->
  check_array (Pd.values (user_item_matrix self)) = true ->
  similarities_nonneg rt (Pd.values (user_item_matrix self)) = true ->
  exists w, collaborative_weights rt self u = Ok w /\ weights_ok w.
Proof.
  intros S C N.
  assert (W0 : weights_ok []) by (split; constructor).
  unfold collaborative_weights.
  destruct (_ =? _)%nat; [eauto|].
  destruct (_ =? _)%nat; [eauto|].
  destruct (mem u (Pd.index (user_item_matrix self))) eqn:M; simpl; [|eauto].
  apply mem_In in M.
  pose proof (pivot_table_ok (filter is_purchase (interactions_df self))) as T.
  fold (user_item_matrix self) in T.
  rewrite (@similar_users_ok rt _ u (sort_values_perm S) T C M). simpl.
  destruct (@loc_ok _ u T M) as (t & r & _ & _ & E). rewrite E. simpl.
  apply accumulate_ok; [exact T|].
  intros vs I. apply slice_In in I. apply in_map_iff in I.
  destruct I as (i & <- & Hi).
  apply (Permutation_in _ (sort_values_perm S _)) in Hi. apply in_seq in Hi.
  rewrite length_map in Hi.
  apply (@similarity_series_In rt _ u _ T N). apply nth_In. lia.
Qed.

(** Without any assumption on the similarities the accumulation still
    returns. *)
Lemma accumulate_total (rt : Runtime) (pt : Pd.PivotTable) (up : pyset)
  (nb : list (Z * F64.t)) :
  table_ok pt ->
  (forall vs, In vs nb -> In (fst vs) (Pd.index pt)) ->
  exists w, accumulate_neighbours rt pt up nb = Ok w.
Proof.
  intros T. unfold accumulate_neighbours. generalize (@nil (Z * F64.t)).
  induction nb as [|[v s] nb IH]; simpl; intros d H; [eauto|].
  assert (Iv : In v (Pd.index pt)) by (apply (H (v, s)); auto).
  destruct (@loc_ok pt v T Iv) as (t & r & _ & _ & E).
  rewrite E. simpl. rewrite inner_loop. simpl.
  apply IH. intros vs I. apply H. auto.
Qed.

Lemma similarity_series_user (rt : Runtime) (pt : Pd.PivotTable) (u : Z) (vs : Z * F64.t) :
  In vs (similarity_series rt pt u) -> In (fst vs) (Pd.index pt).
Proof.
  unfold similarity_series. destruct (Pd.loc pt u); [|contradiction].
  destruct vs as [v s]. intros I. eapply in_combine_l, I.
Qed.

Lemma collaborative_weights_total (rt : Runtime) (self : RecommenderEngine) (u : Z) :
  sorts_ok rt ->
  check_array (Pd.values (user_item_matrix self)) = true ->
  exists w, collaborative_weights rt self u = Ok w.
Proof.
  intros S C. unfold collaborative_weights.
  destruct (_ =? _)%nat; [eauto|].
  destruct (_ =? _)%nat; [eauto|].
  destruct (mem u (Pd.index (user_item_matrix self))) eqn:M; simpl; [|eauto].
  apply mem_In in M.
  pose proof (pivot_table_ok (filter is_purchase (interactions_df self))) as T.
  fold (user_item_matrix self) in T.
  rewrite (@similar_users_ok rt _ u (sort_values_perm S) T C M). simpl.
  destruct (@loc_ok _ u T M) as (t & r & _ & _ & E). rewrite E. simpl.
  apply accumulate_total; [exact T|].
  intros vs I. apply slice_In in I. apply in_map_iff in I.
  destruct I as (i & <- & Hi).
  apply (Permutation_in _ (sort_values_perm S _)) in Hi. apply in_seq in Hi.
  rewrite length_map in Hi.
  apply (@similarity_series_user rt _ u). apply nth_In. lia.
Qed.

(* ===================================================================== *)
(** * The reference runtime meets the contracts *)
(* ===================================================================== *)

Lemma In_enumerated (A : Type) (l : list A) (s i : nat) (x : A) :
  In (i, x) (combine (seq s (length l)) l) ->
  (s <= i)%nat /\ nth_error l (i - s) = Some x.
Proof.
  revert s. induction l as [|y l IH]; simpl; intros s H; [contradiction|].
  destruct H as [[= <- <-]|H].
  - rewrite Nat.sub_diag. auto with arith.
  - apply IH in H. destruct H as [L N]. split; [lia|].
    replace (i - s)%nat with (S (i - S s)) by lia. exact N.
Qed.

Lemma In_enumerate_at (v : list F64.t) (i : nat) (x : F64.t) :
  In (i, x) (enumerate v) -> at_pos v i = x.
Proof.
  intros H. apply In_enumerated in H. destruct H as [_ N].
  rewrite Nat.sub_0_r in N. unfold at_pos. apply nth_error_nth, N.
Qed.

Lemma enumerate_keys_ok (v : list F64.t) :
  no_nan v -> keys_ok (@snd nat F64.t) (enumerate v).
Proof.
  intros N. apply Forall_forall. intros [i x] I.
  apply in_combine_r in I. unfold no_nan in N. rewrite Forall_forall in N.
  apply N, I.
Qed.

Lemma enumerate_fst (A : Type) (l : list A) : map fst (enumerate l) = seq 0 (length l).
Proof. apply map_fst_combine. apply length_seq. Qed.

Lemma reference_argsort_perm (v : list F64.t) :
  Permutation (Reference.argsort v) (seq 0 (length v)).
Proof.
  unfold Reference.argsort. rewrite <- enumerate_fst.
  apply Permutation_map, sort_asc_perm.
Qed.

Lemma reference_argsort_ascending (v : list F64.t) (i j : nat) :
  no_nan v -> before (Reference.argsort v) i j ->
  F64.ltb (at_pos v j) (at_pos v i) = false.
Proof.
  intros N B. apply before_map_inv in B.
  destruct B as ([i' x] & [j' y] & Ei & Ej & B). simpl in Ei, Ej. subst.
  pose proof (sort_asc_ascending (enumerate_keys_ok N) B) as H. simpl in H.
  assert (Ix : In (i, x) (enumerate v))
    by (apply (Permutation_in _ (sort_asc_perm (@snd nat F64.t) _));
        eapply before_In_l, B).
  assert (Iy : In (j, y) (enumerate v))
    by (apply (Permutation_in _ (sort_asc_perm (@snd nat F64.t) _));
        eapply before_In_r, B).
  rewrite (@In_enumerate_at v i x Ix), (@In_enumerate_at v j y Iy). exact H.
Qed.

Lemma reference_sort_values_perm (v : list F64.t) :
  Permutation (Reference.sort_values_desc v) (seq 0 (length v)).
Proof.
  unfold Reference.sort_values_desc. rewrite <- enumerate_fst.
  apply Permutation_map, sorted_desc_perm.
Qed.

Lemma reference_sort_values_descending (v : list F64.t) (i j : nat) :
  no_nan v -> before (Reference.sort_values_desc v) i j ->
  F64.ltb (at_pos v i) (at_pos v j) = false.
Proof.
  intros N B. apply before_map_inv in B.
  destruct B as ([i' x] & [j' y] & Ei & Ej & B). simpl in Ei, Ej. subst.
  pose proof (sorted_desc_descending (enumerate_keys_ok N) B) as H. simpl in H.
  assert (Ix : In (i, x) (enumerate v))
    by (apply (Permutation_in _ (sorted_desc_perm (@snd nat F64.t) _));
        eapply before_In_l, B).
  assert (Iy : In (j, y) (enumerate v))
    by (apply (Permutation_in _ (sorted_desc_perm (@snd nat F64.t) _));
        eapply before_In_r, B).
  rewrite (@In_enumerate_at v i x Ix), (@In_enumerate_at v j y Iy). exact H.
Qed.

Lemma reference_sorts_ok (tf : list string -> option Matrix) :
  sorts_ok (reference_runtime tf).
Proof.
  constructor; simpl.
  - apply reference_argsort_perm.
  - intros v i j. apply reference_argsort_ascending.
  - apply reference_sort_values_perm.
  - intros v i j. apply reference_sort_values_descending.
Qed.

Lemma slot_insert_perm (x : Z) (l : list Z) : Permutation (Reference.slot_insert x l) (x :: l).
Proof.
  induction l as [|y l IH]; simpl; [reflexivity|].
  destruct (_ <? _); [reflexivity|].
  rewrite IH. apply perm_swap.
Qed.

Lemma reference_set_iter_perm (s : pyset) : Permutation (Reference.set_iter s) s.
Proof.
  unfold Reference.set_iter.
  assert (G : forall acc, Permutation
              (fold_left (fun acc x => Reference.slot_insert x acc) s acc) (acc ++ s)).
  { induction s as [|x s IH]; simpl; intros acc.
    - rewrite app_nil_r. reflexivity.
    - rewrite IH. rewrite slot_insert_perm.
      apply Permutation_middle. }
  apply (G []).
Qed.

Lemma reference_set_iter_ok (tf : list string -> option Matrix) :
  set_iter_ok (reference_runtime tf).
Proof. intros s _. apply reference_set_iter_perm. Qed.

(* ===================================================================== *)
(** * C4: order of the collaborative ranking *)
(* ===================================================================== *)

(** C4, as stated, fails: for user 1 the products 9 and 2 both carry the
    similarity of user 2 as weight, and 9 is returned first, because the set
    of new products was iterated in that order. *)
Lemma collaborative_ties_not_by_id :
  ~ collaborative_ties_by_ascending_id (reference_runtime no_tfidf) two_buyers 1 5.
Proof.
  intros H.
  assert (L : 9 < 2); [|lia].
  eapply (H [9; 2] _ 9 2).
  - vm_compute. reflexivity.
  - vm_compute. reflexivity.
  - exists [], [], []. reflexivity.
  - vm_compute. reflexivity.
  - vm_compute. reflexivity.
  - vm_compute. reflexivity.
Qed.

(** C4 (amended): on a user-item matrix of finite ratings with ordinary
    non-negative similarities, [collaborative_filtering] returns a list: the
    candidate products sorted by accumulated neighbour-similarity weight in
    descending order, candidates of equal weight in the order in which they
    were first accumulated (neighbour by neighbour, each neighbour's new
    products in set-iteration order) rather than by ascending id, cut to the
    first [n]. *)
Theorem collaborative_filtering_order (rt : Runtime) (self : RecommenderEngine) (u n : Z) :
  sorts_ok rt ->
  check_array (Pd.values (user_item_matrix self)) = true ->
  similarities_nonneg rt (Pd.values (user_item_matrix self)) = true ->
  exists weights ranked : dict F64.t,
    collaborative_weights rt self u = Ok weights /\
    NoDup (map fst weights) /\
    collaborative_filtering rt self u n = Ok (map fst (slice_to n ranked)) /\
    (0 <= n ->
     collaborative_filtering rt self u n = Ok (firstn (Z.to_nat n) (map fst ranked))) /\
    Permutation ranked weights /\
    (forall a b, before ranked a b -> F64.ltb (snd a) (snd b) = false) /\
    (forall a b, before ranked a b -> F64.ltb (snd b) (snd a) = false ->
       before weights a b).
Proof.
  intros S C N.
  destruct (@collaborative_weights_ok rt self u S C N) as (w & E & Nw & Fw).
  assert (K : keys_ok (@snd Z F64.t) w).
  { apply Forall_forall. intros kv I. rewrite Forall_forall in Fw.
    apply F64Facts.nonneg_not_nan, Fw, I. }
  exists w, (sorted (@snd Z F64.t) true w).
  rewrite collaborative_filtering_weights, E. simpl.
  split; [reflexivity|]. split; [exact Nw|]. split; [reflexivity|].
  split; [|split; [|split]].
  - intros Hn. rewrite slice_to_nonneg by exact Hn.
    rewrite firstn_map. reflexivity.
  - apply sorted_desc_perm.
  - intros a b B. exact (sorted_desc_descending K B).
  - intros a b B T. exact (sorted_desc_stable K B T).
Qed.

(** The ranking of user 1 among the two buyers. *)
Lemma collaborative_filtering_order_witness :
  exists weights ranked : dict F64.t,
    collaborative_weights (reference_runtime no_tfidf) two_buyers 1 = Ok weights /\
    NoDup (map fst weights) /\
    collaborative_filtering (reference_runtime no_tfidf) two_buyers 1 5 =
      Ok (map fst (slice_to 5 ranked)) /\
    (0 <= 5 ->
     collaborative_filtering (reference_runtime no_tfidf) two_buyers 1 5 =
       Ok (firstn (Z.to_nat 5) (map fst ranked))) /\
    Permutation ranked weights /\
    (forall a b, before ranked a b -> F64.ltb (snd a) (snd b) = false) /\
    (forall a b, before ranked a b -> F64.ltb (snd b) (snd a) = false ->
       before weights a b).
Proof.
  apply (@collaborative_filtering_order (reference_runtime no_tfidf) two_buyers 1 5).
  - apply reference_sorts_ok.
  - vm_compute. reflexivity.
  - vm_compute. reflexivity.
Defined.

(* ===================================================================== *)
(** * Entries two to six of a sorted sequence *)
(* ===================================================================== *)

Lemma slice_map (A B : Type) (f : A -> B) (a b : Z) (l : list A) :
  slice a b (map f l) = map f (slice a b l).
Proof.
  unfold slice. rewrite length_map, skipn_map, firstn_map. reflexivity.
Qed.

Lemma before_skipn (A : Type) (n : nat) (l : list A) (a b : A) :
  before (skipn n l) a b -> before l a b.
Proof.
  intros H. rewrite <- (firstn_skipn n l). apply before_app_r, H.
Qed.

Lemma before_slice (A : Type) (s e : Z) (l : list A) (a b : A) :
  before (slice s e l) a b -> before l a b.
Proof.
  unfold slice. intros H. apply before_firstn in H. apply before_skipn in H. exact H.
Qed.

Lemma slice_1_6 (A : Type) (x : A) (l : list A) : slice 1 6 (x :: l) = firstn 5 l.
Proof.
  unfold slice, clamp.
  change (1 <? 0) with false. change (6 <? 0) with false. cbv iota.
  set (len := Z.of_nat (length (x :: l))).
  assert (E : len = Z.of_nat (length l) + 1) by (unfold len; simpl length; lia).
  rewrite (Z.min_l 1) by lia.
  change (Z.to_nat 1) with 1%nat. cbn [skipn].
  destruct (Z.le_ge_cases 6 len) as [L|L].
  - rewrite Z.min_l by lia. reflexivity.
  - rewrite Z.min_r by lia.
    replace (Z.to_nat (len - 1)) with (length l) by lia.
    rewrite firstn_all. symmetry. apply firstn_all2. lia.
Qed.

(** In a descending arrangement of the positions of [v], a position whose
    value is strictly above all others comes first. *)
Lemma strict_max_first (v : list F64.t) (d : list nat) (t : nat) :
  Permutation d (seq 0 (length v)) ->
  (forall i j, before d i j -> F64.ltb (at_pos v i) (at_pos v j) = false) ->
  (t < length v)%nat ->
  (forall i, (i < length v)%nat -> i <> t -> F64.ltb (at_pos v i) (at_pos v t) = true) ->
  exists rest, d = t :: rest.
Proof.
  intros P D Lt M.
  assert (It : In t d)
    by (apply (Permutation_in _ (Permutation_sym P)), in_seq; lia).
  destruct d as [|h rest]; [contradiction|].
  destruct (Nat.eq_dec h t) as [->|Ne]; [eauto|].
  destruct It as [->|It]; [congruence|].
  assert (Ih : In h (seq 0 (length v)))
    by (apply (Permutation_in _ P); left; reflexivity).
  apply in_seq in Ih.
  assert (F : F64.ltb (at_pos v h) (at_pos v t) = false)
    by (apply D, before_head, It).
  rewrite M in F by (lia || exact Ne). discriminate.
Qed.

Lemma NoDup_nth_eq (l : list Z) (i j : nat) :
  NoDup l -> (i < length l)%nat -> (j < length l)%nat ->
  nth i l 0 = nth j l 0 -> i = j.
Proof. intros N Hi Hj E. exact (proj1 (NoDup_nth l 0) N i j Hi Hj E). Qed.

Lemma NoDup_fst_unique (V : Type) (l : list (Z * V)) (k : Z) (x y : V) :
  NoDup (map fst l) -> In (k, x) l -> In (k, y) l -> x = y.
Proof.
  intros N Hx Hy. apply In_dict_get in Hx, Hy; auto. congruence.
Qed.

Lemma position_nth_default (p : Z) (l : list Z) (t : nat) :
  Pd.position p l = Some t -> nth t l 0 = p.
Proof. intros E. apply nth_error_nth, position_nth, E. Qed.

Lemma similarities_no_nan (rt : Runtime) (pt : Pd.PivotTable) (u : Z) :
  table_ok pt -> similarities_nonneg rt (Pd.values pt) = true ->
  no_nan (map snd (similarity_series rt pt u)).
Proof.
  intros T S. apply Forall_forall. intros s I. apply in_map_iff in I.
  destruct I as (vs & <- & I).
  apply F64Facts.nonneg_not_nan.
  apply (@similarity_series_In rt pt u vs T S I).
Qed.

Lemma similarity_series_length (rt : Runtime) (pt : Pd.PivotTable) (u : Z) :
  table_ok pt -> In u (Pd.index pt) ->
  length (similarity_series rt pt u) = length (Pd.index pt).
Proof.
  intros T I. rewrite <- (@similarity_series_fst rt pt u T I).
  symmetry. apply length_map.
Qed.

(* ===================================================================== *)
(** * C5: the neighbours of the target *)
(* ===================================================================== *)

(** Users 1 and 2 have bought the same product with the same rating.
    Whatever order the sort gives their equal similarities, the entry that
    [[1:6]] drops is the target for one of them only: the other user is
    among its own neighbours. *)
Lemma twins_own_neighbour (rt : Runtime) :
  sorts_ok rt ->
  (exists nb, similar_users rt (user_item_matrix twins) 1 = Ok nb /\ In 1 (map fst nb)) \/
  (exists nb, similar_users rt (user_item_matrix twins) 2 = Ok nb /\ In 2 (map fst nb)).
Proof.
  intros S.
  pose proof (pivot_table_ok (filter is_purchase (interactions_df twins))) as T.
  fold (user_item_matrix twins) in T.
  assert (C : check_array (Pd.values (user_item_matrix twins)) = true)
    by (vm_compute; reflexivity).
  assert (I1 : In 1 (Pd.index (user_item_matrix twins))) by (vm_compute; auto).
  assert (I2 : In 2 (Pd.index (user_item_matrix twins))) by (vm_compute; auto).
  pose proof (@similar_users_ok rt _ 1 (sort_values_perm S) T C I1) as E1.
  pose proof (@similar_users_ok rt _ 2 (sort_values_perm S) T C I2) as E2.
  set (c := cosine rt [five] [five]).
  assert (S1 : similarity_series rt (user_item_matrix twins) 1 = [(1, c); (2, c)])
    by reflexivity.
  assert (S2 : similarity_series rt (user_item_matrix twins) 2 = [(1, c); (2, c)])
    by reflexivity.
  rewrite S1 in E1. rewrite S2 in E2. simpl map in E1, E2.
  pose proof (sort_values_perm S [c; c]) as P. simpl in P.
  apply Permutation_sym, Permutation_length_2_inv in P.
  destruct P as [P|P]; rewrite P in E1, E2.
  - right. eexists. split; [exact E2|]. vm_compute. auto.
  - left. eexists. split; [exact E1|]. vm_compute. auto.
Qed.

(** C5 (code defect): users 1 and 2 have bought the same product with the
    same rating, so each is as similar to user 2 as user 2 itself.  The
    descending sort keeps user 1 first, [[1:6]] drops that entry, and the
    only neighbour of user 2 is user 2, whose purchases then yield no new
    product.  With any sort that meets the contract one of the two users is
    its own neighbour. *)
Theorem target_among_neighbours :
  similar_users (reference_runtime no_tfidf) (user_item_matrix twins) 2
    = Ok [(2, F64.one)] /\
  collaborative_filtering (reference_runtime no_tfidf) twins 2 5 = Ok [] /\
  ~ neighbours_exclude_target (reference_runtime no_tfidf) twins 2 /\
  (forall rt, sorts_ok rt ->
     (exists nb, similar_users rt (user_item_matrix twins) 1 = Ok nb /\
                 In 1 (map fst nb)) \/
     (exists nb, similar_users rt (user_item_matrix twins) 2 = Ok nb /\
                 In 2 (map fst nb))).
Proof.
  split; [vm_compute; reflexivity|].
  split; [vm_compute; reflexivity|].
  split; [|apply twins_own_neighbour].
  intros H. apply (H [(2, F64.one)]).
  - vm_compute. reflexivity.
  - left. reflexivity.
Qed.

(** What line 79 selects when no similarity ties with the target's own:
    for a target user of a purchase matrix with finite ratings and ordinary
    non-negative similarities, the neighbours are at most five users of the
    similarity series, in descending order of similarity; when the target
    is strictly more similar to itself than every other user is to it, they
    are the five (or all) most similar other users and do not include the
    target.  Users with identical rows of the matrix get the same list. *)
Lemma neighbours_of_target (rt : Runtime) (self : RecommenderEngine) (u : Z) :
  sorts_ok rt ->
  check_array (Pd.values (user_item_matrix self)) = true ->
  similarities_nonneg rt (Pd.values (user_item_matrix self)) = true ->
  In u (Pd.index (user_item_matrix self)) ->
  exists nb,
    similar_users rt (user_item_matrix self) u = Ok nb /\
    incl nb (similarity_series rt (user_item_matrix self) u) /\
    (length nb <= 5)%nat /\
    (forall a b, before nb a b -> F64.ltb (snd a) (snd b) = false) /\
    (forall su,
       In (u, su) (similarity_series rt (user_item_matrix self) u) ->
       (forall w s, In (w, s) (similarity_series rt (user_item_matrix self) u) ->
                    w <> u -> F64.ltb s su = true) ->
       ~ In u (map fst nb) /\
       NoDup (map fst nb) /\
       length nb = Nat.min 5 (length (Pd.index (user_item_matrix self)) - 1) /\
       (forall ws vs,
          In ws (similarity_series rt (user_item_matrix self) u) ->
          fst ws <> u -> ~ In ws nb -> In vs nb ->
          F64.ltb (snd vs) (snd ws) = false)) /\
    (forall v,
       In v (Pd.index (user_item_matrix self)) ->
       Pd.loc (user_item_matrix self) v = Pd.loc (user_item_matrix self) u ->
       similar_users rt (user_item_matrix self) v = Ok nb).
Proof.
  intros S C Nn Iu.
  set (pt := user_item_matrix self) in *.
  pose proof (pivot_table_ok (filter is_purchase (interactions_df self))) as T.
  fold (user_item_matrix self) in T. fold pt in T.
  set (series := similarity_series rt pt u).
  set (g := fun i => nth i series (0, S754_nan)).
  set (v := map snd series).
  set (d := sort_values_desc rt v).
  assert (E : similar_users rt pt u = Ok (slice 1 6 (map g d)))
    by (apply similar_users_ok; auto; apply (sort_values_perm S)).
  assert (Ls : length series = length (Pd.index pt))
    by (apply similarity_series_length; assumption).
  assert (Lv : length v = length (Pd.index pt))
    by (unfold v; rewrite length_map; exact Ls).
  assert (Fs : map fst series = Pd.index pt)
    by (apply similarity_series_fst; assumption).
  assert (Nv : no_nan v) by (apply similarities_no_nan; assumption).
  pose proof (sort_values_perm S v) as P. fold d in P.
  assert (Hd : forall i, In i d -> (i < length (Pd.index pt))%nat).
  { intros i Hi. apply (Permutation_in _ P) in Hi. apply in_seq in Hi. lia. }
  assert (Gv : forall i, at_pos v i = snd (g i)).
  { intros i. unfold at_pos, v, g.
    change S754_nan with (snd (0, S754_nan)) at 1. apply map_nth. }
  assert (Gf : forall i, fst (g i) = nth i (Pd.index pt) 0).
  { intros i. unfold g. rewrite <- Fs.
    change 0 with (fst (0, S754_nan)) at 2. symmetry. apply map_nth. }
  assert (D : forall i j, before d i j -> F64.ltb (snd (g i)) (snd (g j)) = false).
  { intros i j B. rewrite <- !Gv. apply (@sort_values_descending rt S v i j Nv B). }
  exists (slice 1 6 (map g d)).
  split; [exact E|]. split; [|split; [|split; [|split]]].
  - intros x Hx. apply slice_In in Hx. apply in_map_iff in Hx.
    destruct Hx as (i & <- & Hi). apply nth_In. rewrite Ls. apply Hd, Hi.
  - destruct (map g d) as [|x l] eqn:El.
    + unfold slice. rewrite skipn_nil, firstn_nil. simpl. lia.
    + rewrite slice_1_6. apply firstn_le_length.
  - intros a b B. apply before_slice in B. apply before_map_inv in B.
    destruct B as (i & j & <- & <- & B). apply D, B.
  - intros su Hsu Hmax.
    destruct (@position_Some u (Pd.index pt) Iu) as [t Et].
    pose proof (@position_lt u (Pd.index pt) t Et) as Lt.
    pose proof (@position_nth_default u (Pd.index pt) t Et) as Nt.
    assert (Nf : NoDup (map fst series)) by (rewrite Fs; apply (index_NoDup T)).
    assert (Gt : g t = (u, su)).
    { assert (It : In (g t) series) by (apply nth_In; lia).
      destruct (g t) as [w s] eqn:Eg.
      assert (w = u) by (rewrite <- Nt, <- Gf, Eg; reflexivity). subst w.
      f_equal. apply (@NoDup_fst_unique _ series u s su Nf It Hsu). }
    destruct (@strict_max_first v d t P) as [rest Er].
    + intros i j B. rewrite !Gv. apply D, B.
    + lia.
    + intros i Hi Ne. rewrite !Gv, Gt. simpl.
      assert (Ii : In (g i) series) by (apply nth_In; lia).
      destruct (g i) as [w s] eqn:Eg. simpl.
      apply (Hmax w s Ii). intros ->. apply Ne.
      apply (@NoDup_nth_eq (Pd.index pt) i t (index_NoDup T)); try lia.
      rewrite Nt, <- Gf, Eg. reflexivity.
    + fold d in Er. rewrite Er in *. simpl map. rewrite slice_1_6.
      rewrite firstn_map.
      assert (Nd : NoDup (t :: rest))
        by (apply (Permutation_NoDup (Permutation_sym P)), seq_NoDup).
      inversion Nd as [|? ? Ntr Nr]; subst.
      assert (Inj : forall i j, In i (t :: rest) -> In j (t :: rest) ->
                                fst (g i) = fst (g j) -> i = j).
      { intros i j Hi Hj Eq. rewrite !Gf in Eq.
        apply (@NoDup_nth_eq (Pd.index pt) i j (index_NoDup T)); auto. }
      assert (Lr : length rest = (length (Pd.index pt) - 1)%nat).
      { apply Permutation_length in P. rewrite length_seq in P. simpl in P. lia. }
      split; [|split; [|split]].
      * intros Hu. rewrite map_map in Hu. apply in_map_iff in Hu.
        destruct Hu as (i & Ei & Hi). apply In_firstn in Hi.
        assert (i = t).
        { apply Inj; simpl; auto. rewrite Ei, Gt. reflexivity. }
        subst i. contradiction.
      * rewrite map_map.
        assert (Nf5 : NoDup (firstn 5 rest)).
        { rewrite <- (firstn_skipn 5 rest) in Nr.
          apply NoDup_app_remove_r in Nr. exact Nr. }
        assert (Sub : forall i, In i (firstn 5 rest) -> In i (t :: rest))
          by (intros i Hi; right; eapply In_firstn, Hi).
        clear - Nf5 Sub Inj. induction (firstn 5 rest) as [|a l IH]; simpl.
        -- constructor.
        -- inversion Nf5 as [|? ? Na Nl]; subst. constructor.
           ++ intros Ha. apply in_map_iff in Ha. destruct Ha as (b & Eb & Hb).
              apply Inj in Eb; [subst; contradiction| |]; apply Sub; simpl; auto.
           ++ apply IH; auto. intros i Hi. apply Sub. right. exact Hi.
      * rewrite length_map, length_firstn, Lr. reflexivity.
      * intros ws vs Iw Nw Nin Iv.
        apply in_map_iff in Iv.
        destruct Iv as (i & <- & Hi).
        apply In_nth with (d := (0, S754_nan)) in Iw.
        destruct Iw as (j & Lj & Ej). fold (g j) in Ej. subst ws.
        assert (Ij : In j (t :: rest))
          by (apply (Permutation_in _ (Permutation_sym P)), in_seq; lia).
        destruct Ij as [<-|Ij]; [rewrite Gt in Nw; simpl in Nw; congruence|].
        assert (J5 : In j (skipn 5 rest)).
        { rewrite <- (firstn_skipn 5 rest) in Ij. apply in_app_or in Ij.
          destruct Ij as [Ij|Ij]; [|exact Ij].
          exfalso. apply Nin. apply in_map, Ij. }
        apply D. apply before_cons. rewrite <- (firstn_skipn 5 rest).
        apply before_app_mid; assumption.
  - intros w Iw El.
    rewrite (@similar_users_ok rt pt w (sort_values_perm S) T C Iw).
    unfold similarity_series. rewrite El.
    fold (similarity_series rt pt u). reflexivity.
Qed.

(* ===================================================================== *)
(** * Facts about the content-based loop *)
(* ===================================================================== *)

Lemma fold_set_add_app (l : list Z) (s : pyset) :
  exists s', fold_left (fun s x => set_add x s) l s = s ++ s'.
Proof.
  revert s. induction l as [|x l IH]; simpl; intros s.
  - exists []. rewrite app_nil_r. reflexivity.
  - unfold set_add at 2. destruct (mem x s).
    + apply IH.
    + destruct (IH (s ++ [x])) as [s' E]. exists (x :: s').
      rewrite E, <- app_assoc. reflexivity.
Qed.

Lemma fold_set_add_NoDup (l : list Z) (s : pyset) :
  NoDup s -> NoDup (fold_left (fun s x => set_add x s) l s).
Proof.
  revert s. induction l as [|x l IH]; simpl; intros s N; [exact N|].
  apply IH. unfold set_add. destruct (mem x s) eqn:M; [exact N|].
  apply NoDup_app; [exact N|repeat constructor; simpl; tauto|].
  intros y Hy [<-|[]]. apply mem_false in M. contradiction.
Qed.

Lemma fold_set_add_In (l : list Z) (s : pyset) (y : Z) :
  In y (fold_left (fun s x => set_add x s) l s) <-> In y s \/ In y l.
Proof.
  revert s. induction l as [|x l IH]; simpl; intros s; [tauto|].
  rewrite IH. unfold set_add. destruct (mem x s) eqn:M.
  - apply mem_In in M. intuition (subst; auto).
  - rewrite in_app_iff. simpl. intuition.
Qed.

Lemma unique_NoDup (l : list Z) : NoDup (Pd.unique l).
Proof. apply (@fold_set_add_NoDup l []). constructor. Qed.

Lemma unique_In (l : list Z) (y : Z) : In y (Pd.unique l) <-> In y l.
Proof.
  unfold Pd.unique. rewrite (@fold_set_add_In l [] y). simpl. tauto.
Qed.

Section CollectFacts.
Variable rt : Runtime.
Variable ps : list Product.t.
Variable seeds : list Z.

Lemma inner_collect (idxs : list nat) (recs : pyset) :
  foldM (fun recommendations idx =>
      p <- of_option IndexError (nth_error ps idx) ;;
      let similar_product_id := Product.id p in
      if negb (mem similar_product_id seeds)
      then Ok (set_add similar_product_id recommendations)
      else Ok recommendations) idxs recs =
  (ids <- mapM (fun idx => p <- of_option IndexError (nth_error ps idx) ;; Ok (Product.id p)) idxs ;;
   Ok (fold_left (fun s x => set_add x s)
         (filter (fun p => negb (mem p seeds)) ids) recs)).
Proof.
  revert recs. induction idxs as [|i idxs IH]; simpl; intros recs; [reflexivity|].
  destruct (nth_error ps i) as [p|]; simpl; [|reflexivity].
  destruct (negb (mem (Product.id p) seeds)) eqn:M; simpl; rewrite IH;
    destruct (mapM _ idxs); simpl; rewrite ?M; reflexivity.
Qed.

Lemma outer_collect (sim : Matrix) (todo : list Z) (recs : pyset) :
  foldM (fun recommendations product_id =>
      let product_idx := product_id - 1 in
      row <- index sim product_idx ;;
      foldM (fun recommendations idx =>
          p <- of_option IndexError (nth_error ps idx) ;;
          let similar_product_id := Product.id p in
          if negb (mem similar_product_id seeds)
          then Ok (set_add similar_product_id recommendations)
          else Ok recommendations)
        (similar_indices rt row) recommendations) todo recs =
  (cands <- mapM (candidates_of_seed rt ps sim) todo ;;
   Ok (fold_left (fun s x => set_add x s)
         (filter (fun p => negb (mem p seeds)) (concat cands)) recs)).
Proof.
  revert recs. induction todo as [|s todo IH]; simpl; intros recs; [reflexivity|].
  unfold candidates_of_seed at 1.
  destruct (index sim (s - 1)) as [row|]; simpl; [|reflexivity].
  rewrite inner_collect.
  destruct (mapM _ (similar_indices rt row)) as [ids|]; simpl; [|reflexivity].
  rewrite IH. destruct (mapM _ todo) as [cands|]; simpl; [|reflexivity].
  rewrite filter_app, fold_left_app. reflexivity.
Qed.

End CollectFacts.

Lemma collect_similar_eq (rt : Runtime) (ps : list Product.t) (sim : Matrix) (seeds : list Z) :
  collect_similar rt ps sim seeds =
  (cands <- mapM (candidates_of_seed rt ps sim) seeds ;;
   Ok (Pd.unique (filter (fun p => negb (mem p seeds)) (concat cands)))).
Proof. unfold collect_similar. apply outer_collect. Qed.

(** The content ranking is the accumulation of the specification, iterated
    as a set and cut to [[:n]]. *)
Lemma content_based_filtering_eq (rt : Runtime) (self : RecommenderEngine) (u n : Z) :
  rows (products_df self) <> [] -> interactions_df self <> [] ->
  content_based_filtering rt self u n =
  (assign_content self,
   acc <- accumulation_order rt self u ;; Ok (slice_to n (set_iter rt acc))).
Proof.
  intros Hp Hi. unfold content_based_filtering.
  destruct (rows (products_df self)) as [|p ps] eqn:Ep; [congruence|].
  destruct (interactions_df self) as [|x xs] eqn:Ex; [congruence|].
  simpl orb. cbv iota. f_equal.
  unfold accumulation_order, content_matrix. rewrite Ep. simpl rows.
  destruct (tfidf rt _) as [tm|]; simpl; [|reflexivity].
  destruct (cosine_similarity rt tm tm) as [sim|]; simpl; [|reflexivity].
  rewrite collect_similar_eq.
  cbn [assign_content products_df rows]. rewrite Ep.
  destruct (mapM _ _); reflexivity.
Qed.

Lemma content_based_filtering_empty (rt : Runtime) (self : RecommenderEngine) (u n : Z) :
  rows (products_df self) = [] \/ interactions_df self = [] ->
  content_based_filtering rt self u n = (self, Ok []).
Proof.
  intros H. unfold content_based_filtering.
  destruct H as [-> | ->]; simpl; [reflexivity|].
  rewrite orb_true_r. reflexivity.
Qed.

(** ** When the loop cannot fail *)

Lemma mapM_exists (A B : Type) (f : A -> result B) (l : list A) :
  (forall x, In x l -> exists y, f x = Ok y) -> exists ys, mapM f l = Ok ys.
Proof.
  induction l as [|x l IH]; simpl; intros H; [eauto|].
  destruct (H x (or_introl eq_refl)) as [y Ey]. rewrite Ey. simpl.
  destruct IH as [ys Eys]; [intros; apply H; auto|].
  rewrite Eys. simpl. eauto.
Qed.

Lemma mapM_In (A B : Type) (f : A -> result B) (l : list A) (ys : list B) (y : B) :
  mapM f l = Ok ys -> In y ys -> exists x, In x l /\ f x = Ok y.
Proof.
  revert ys. induction l as [|x l IH]; simpl; intros ys E I.
  - injection E as <-. contradiction.
  - destruct (f x) as [y0|] eqn:Ef; simpl in E; [|discriminate].
    destruct (mapM f l) as [ys0|]; simpl in E; [|discriminate].
    injection E as <-. destruct I as [<-|I]; [eauto|].
    destruct (IH ys0 eq_refl I) as (x' & Hx & Ex). eauto.
Qed.

Lemma mapM_In_ok (A B : Type) (f : A -> result B) (l : list A) (ys : list B) (x : A) :
  mapM f l = Ok ys -> In x l -> exists y, f x = Ok y /\ In y ys.
Proof.
  revert ys. induction l as [|x0 l IH]; simpl; intros ys E I; [contradiction|].
  destruct (f x0) as [y0|] eqn:Ef; simpl in E; [|discriminate].
  destruct (mapM f l) as [ys0|]; simpl in E; [|discriminate].
  injection E as <-. destruct I as [<-|I].
  - exists y0. simpl. auto.
  - destruct (IH ys0 eq_refl I) as (y & Ey & Hy). exists y. simpl. auto.
Qed.

Lemma index_ok (A : Type) (l : list A) (i : Z) (d : A) :
  - Z.of_nat (length l) <= i < Z.of_nat (length l) ->
  index l i =
  Ok (nth (Z.to_nat (if i <? 0 then i + Z.of_nat (length l) else i)) l d).
Proof.
  intros H. unfold index.
  set (j := if i <? 0 then i + Z.of_nat (length l) else i).
  assert (Hj : 0 <= j < Z.of_nat (length l))
    by (unfold j; destruct (Z.ltb_spec i 0); lia).
  destruct (Z.leb_spec 0 j); [|lia]. destruct (Z.ltb_spec j (Z.of_nat (length l))); [|lia].
  simpl. rewrite (nth_error_nth' l d) by lia. reflexivity.
Qed.

Lemma index_raise (A : Type) (l : list A) (i : Z) :
  Z.of_nat (length l) <= i -> index l i = Raise IndexError.
Proof.
  intros H. unfold index. destruct (Z.ltb_spec i 0); [lia|].
  destruct (Z.ltb_spec i (Z.of_nat (length l))); [lia|].
  rewrite andb_false_r. reflexivity.
Qed.

Lemma content_matrix_ok (rt : Runtime) (self : RecommenderEngine) (tm : Matrix) :
  tfidf rt (content_column (rows (products_df self))) = Some tm ->
  check_array tm = true ->
  content_matrix rt self = Ok (map (fun x => map (fun y => cosine rt x y) tm) tm).
Proof.
  intros E C. unfold content_matrix, cosine_similarity. rewrite E. simpl.
  rewrite C. reflexivity.
Qed.

(** ** The candidates of a seed *)

Lemma slice_m6_m1 (A : Type) (l : list A) :
  rev (slice (-6) (-1) l) = firstn 5 (tl (rev l)).
Proof.
  destruct (rev l) as [|x r] eqn:E.
  - apply (f_equal (@rev A)) in E. rewrite rev_involutive in E. subst l. reflexivity.
  - apply (f_equal (@rev A)) in E. rewrite rev_involutive in E. simpl in E. subst l.
    simpl tl. set (target := firstn 5 r). unfold slice, clamp.
    change (-6 <? 0) with true. change (-1 <? 0) with true. cbv iota.
    rewrite length_app, length_rev. simpl length.
    replace (Z.max (-1 + Z.of_nat (length r + 1)) 0) with (Z.of_nat (length r)) by lia.
    set (s := Z.to_nat (Z.max (-6 + Z.of_nat (length r + 1)) 0)).
    assert (Es : s = (length r - 5)%nat) by (unfold s; lia).
    replace (Z.to_nat (Z.of_nat (length r) - Z.max (-6 + Z.of_nat (length r + 1)) 0))
      with (length (rev r) - s)%nat by (rewrite length_rev; lia).
    rewrite skipn_app.
    replace (s - length (rev r))%nat with 0%nat by (rewrite length_rev; lia).
    simpl skipn. rewrite firstn_app.
    rewrite length_skipn.
    replace (length (rev r) - s - (length (rev r) - s))%nat with 0%nat by lia.
    simpl firstn. rewrite app_nil_r.
    rewrite firstn_all2 by (rewrite length_skipn; lia).
    rewrite Es. rewrite <- (length_rev r).
    rewrite <- firstn_rev, rev_involutive. reflexivity.
Qed.



Lemma similar_indices_lt (rt : Runtime) (row : list F64.t) (i : nat) :
  sorts_ok rt -> In i (similar_indices rt row) -> (i < length row)%nat.
Proof.
  intros S H. unfold similar_indices in H. apply in_rev, slice_In in H.
  apply (Permutation_in _ (argsort_perm S row)), in_seq in H. lia.
Qed.

Lemma candidates_of_seed_ok (rt : Runtime) (ps : list Product.t) (sim : Matrix) (s : Z) :
  sorts_ok rt ->
  length sim = length ps ->
  Forall (fun row => length row = length ps) sim ->
  seed_in_range (length ps) s ->
  candidates_of_seed rt ps sim s =
  Ok (map (id_at ps) (similar_indices rt (nth (row_of_seed (length ps) s) sim []))).
Proof.
  intros S Ls Fr R. unfold candidates_of_seed, seed_in_range in *.
  rewrite (@index_ok _ sim (s - 1) []) by (rewrite Ls; exact R).
  simpl. rewrite Ls. fold (row_of_seed (length ps) s).
  set (row := nth (row_of_seed (length ps) s) sim []).
  assert (Lrow : length row = length ps).
  { rewrite Forall_forall in Fr. apply Fr. apply nth_In.
    unfold row_of_seed. destruct (Z.ltb_spec (s - 1) 0); lia. }
  apply mapM_ok. intros i Hi.
  apply (@similar_indices_lt rt row i S) in Hi. rewrite Lrow in Hi.
  unfold id_at. destruct (nth_error ps i) eqn:E; [reflexivity|].
  apply nth_error_None in E. lia.
Qed.

Lemma cosine_rows (rt : Runtime) (tm : Matrix) :
  Forall (fun row => length row = length tm)
         (map (fun x => map (fun y => cosine rt x y) tm) tm).
Proof.
  apply Forall_forall. intros row I. apply in_map_iff in I.
  destruct I as (x & <- & _). apply length_map.
Qed.

(** The accumulation succeeds when the vectorizer accepts the catalog and
    every seed designates a row of the matrix. *)
Lemma accumulation_order_ok (rt : Runtime) (self : RecommenderEngine) (u : Z) (tm : Matrix) :
  sorts_ok rt ->
  tfidf rt (content_column (rows (products_df self))) = Some tm ->
  length tm = length (rows (products_df self)) ->
  check_array tm = true ->
  (forall s, In s (seed_products self u) ->
             seed_in_range (length (rows (products_df self))) s) ->
  exists acc, accumulation_order rt self u = Ok acc.
Proof.
  intros S E L C R. unfold accumulation_order.
  rewrite (@content_matrix_ok rt self tm E C). simpl.
  destruct (@mapM_exists _ _
              (candidates_of_seed rt (rows (products_df self))
                 (map (fun x => map (fun y => cosine rt x y) tm) tm))
              (seed_products self u)) as [cands Ec].
  - intros s Hs. eexists. apply candidates_of_seed_ok; auto.
    + rewrite length_map. exact L.
    + rewrite <- L. apply cosine_rows.
  - rewrite Ec. simpl. eauto.
Qed.

(* ===================================================================== *)
(** * C3: order of the content ranking *)
(* ===================================================================== *)




(* ===================================================================== *)
(** * Seeds of users without history *)
(* ===================================================================== *)

Lemma filter_nil (A : Type) (f : A -> bool) (l : list A) :
  (forall x, In x l -> f x = false) -> filter f l = [].
Proof.
  induction l as [|x l IH]; simpl; intros H; [reflexivity|].
  rewrite H by auto. apply IH. auto.
Qed.

Lemma cold_user_seeds (self : RecommenderEngine) (u : Z) :
  cold_user self u -> seed_products self u = [1; 2; 3].
Proof.
  intros H. unfold seed_products.
  rewrite !filter_nil; [reflexivity| |].
  - intros r I. destruct (Z.eqb_spec (Interaction.user_id r) u) as [E|]; [|reflexivity].
    destruct (H r I E) as [_ ->]. reflexivity.
  - intros r I. destruct (Z.eqb_spec (Interaction.user_id r) u) as [E|]; [|reflexivity].
    destruct (H r I E) as [-> _]. reflexivity.
Qed.

Lemma unknown_user_cold (self : RecommenderEngine) (u : Z) :
  unknown_user self u -> cold_user self u.
Proof. intros H r I E. destruct (H r I E). Qed.

Lemma content_based_filtering_seeds (rt : Runtime) (self : RecommenderEngine) (u1 u2 n : Z) :
  seed_products self u1 = seed_products self u2 ->
  content_based_filtering rt self u1 n = content_based_filtering rt self u2 n.
Proof. intros E. unfold content_based_filtering. rewrite E. reflexivity. Qed.

Lemma sorted_unique_range (s n : nat) :
  Pd.sorted_unique (map Z.of_nat (seq s n)) = map Z.of_nat (seq s n).
Proof.
  revert s. induction n as [|n IH]; intros s; [reflexivity|].
  change (Pd.sorted_unique (map Z.of_nat (seq s (S n))))
    with (Pd.insert_label (Z.of_nat s) (Pd.sorted_unique (map Z.of_nat (seq (S s) n)))).
  rewrite IH. destruct n as [|n]; [reflexivity|].
  change (map Z.of_nat (seq (S s) (S n)))
    with (Z.of_nat (S s) :: map Z.of_nat (seq (S (S s)) n)).
  change (map Z.of_nat (seq s (S (S n))))
    with (Z.of_nat s :: Z.of_nat (S s) :: map Z.of_nat (seq (S (S s)) n)).
  cbn [Pd.insert_label].
  destruct (Z.ltb_spec (Z.of_nat s) (Z.of_nat (S s))); [reflexivity|lia].
Qed.

(** ** Users without purchases in the collaborative ranking *)

Lemma pivot_index_In (data : list Interaction.t) (u : Z) :
  In u (Pd.index (Pd.pivot_table data)) ->
  exists r, In r data /\ Interaction.user_id r = u.
Proof.
  unfold Pd.pivot_table. simpl. intros H.
  apply sorted_unique_In, in_map_iff in H. destruct H as (r & E & I).
  apply filter_In in I. exists r. tauto.
Qed.

Lemma collaborative_filtering_unknown (rt : Runtime) (self : RecommenderEngine) (u n : Z) :
  (forall r, In r (interactions_df self) -> is_purchase r = true ->
             Interaction.user_id r <> u) ->
  collaborative_filtering rt self u n = Ok [].
Proof.
  intros H. unfold collaborative_filtering.
  destruct (_ =? _)%nat; [reflexivity|].
  destruct (_ =? _)%nat; [reflexivity|].
  destruct (mem u _) eqn:M; [|reflexivity].
  apply mem_In, pivot_index_In in M. destruct M as (r & I & E).
  apply filter_In in I. destruct I as [I P]. destruct (H r I P E).
Qed.

Lemma hybrid_fuse_nil (n : Z) : hybrid_fuse [] [] n = [].
Proof. unfold hybrid_fuse. simpl. rewrite slice_to_nil. reflexivity. Qed.

(* ===================================================================== *)
(** * When the rankings complete *)
(* ===================================================================== *)

(** The collaborative ranking is [[:n]] of one ranked list, for every [n]. *)
Lemma collaborative_filtering_total (rt : Runtime) (self : RecommenderEngine) (u : Z) :
  sorts_ok rt ->
  check_array (Pd.values (user_item_matrix self)) = true ->
  exists ranked, forall n,
    collaborative_filtering rt self u n = Ok (slice_to n ranked).
Proof.
  intros S C.
  destruct (@collaborative_weights_total rt self u S C) as (w & E).
  exists (map fst (sorted (@snd Z F64.t) true w)). intros n.
  rewrite collaborative_filtering_weights, E. simpl.
  unfold slice_to. rewrite slice_map. reflexivity.
Qed.

(** The content ranking is [[:n]] of one list, for every [n]. *)
Lemma content_based_filtering_total (rt : Runtime) (self : RecommenderEngine)
  (u : Z) (tm : Matrix) :
  sorts_ok rt ->
  tfidf rt (content_column (rows (products_df self))) = Some tm ->
  length tm = length (rows (products_df self)) ->
  check_array tm = true ->
  (forall s, In s (seed_products self u) ->
             seed_in_range (length (rows (products_df self))) s) ->
  exists iterated, forall n,
    snd (content_based_filtering rt self u n) = Ok (slice_to n iterated).
Proof.
  intros S E L C R.
  destruct (rows (products_df self)) as [|p ps] eqn:Ep.
  { exists []. intros n. rewrite content_based_filtering_empty by auto.
    rewrite slice_to_nil. reflexivity. }
  destruct (interactions_df self) as [|x xs] eqn:Ex.
  { exists []. intros n. rewrite content_based_filtering_empty by auto.
    rewrite slice_to_nil. reflexivity. }
  assert (Hp : rows (products_df self) <> []) by congruence.
  assert (Hi : interactions_df self <> []) by congruence.
  rewrite <- Ep in *.
  destruct (@accumulation_order_ok rt self u tm S E L C R) as [acc Ea].
  exists (set_iter rt acc). intros n.
  rewrite content_based_filtering_eq by assumption. simpl. rewrite Ea. reflexivity.
Qed.

Lemma hybrid_recommendations_total (rt : Runtime) (self : RecommenderEngine) (u n : Z) :
  (exists l, collaborative_filtering rt self u n = Ok l) ->
  (exists l, snd (content_based_filtering rt self u n) = Ok l) ->
  exists l, snd (hybrid_recommendations rt self u n) = Ok l.
Proof.
  intros [c Ec] [t Et]. unfold hybrid_recommendations. rewrite Ec.
  destruct (content_based_filtering rt self u n) as [self' r]. simpl in *.
  subst r. simpl. eauto.
Qed.

Lemma pivot_columns_In (data : list Interaction.t) (r : Interaction.t) :
  In r data -> F64.is_nan (Interaction.rating r) = false ->
  In (Interaction.product_id r) (Pd.columns (Pd.pivot_table data)).
Proof.
  intros I N. unfold Pd.pivot_table. simpl.
  apply sorted_unique_In, in_map, filter_In. rewrite N. auto.
Qed.

(* ===================================================================== *)
(** * C7: interactions with a product outside the catalog *)
(* ===================================================================== *)

(** C7, as stated, fails: user 8 bought product 99, the catalog has three
    products, and the content ranking reads row 98 of a 3-by-3 matrix. *)
Lemma dangling_row_crashes :
  ~ dangling_rows_tolerated (reference_runtime tfidf_related) dangling_purchase 8 5.
Proof.
  intros [[l H] _]. vm_compute in H. discriminate.
Qed.

(** The uncatalogued product is a column of the user-item matrix. *)
Lemma dangling_row_in_matrix :
  In 99 (Pd.columns (user_item_matrix dangling_purchase)) /\
  ~ In 99 (map Product.id (rows (products_df dangling_purchase))).
Proof.
  split; [vm_compute; auto|].
  simpl. intros [H|[H|[H|[]]]]; discriminate.
Qed.

(** C7 (amended): whether or not interactions name products outside the
    catalog, the collaborative ranking completes (on finite ratings), and
    the content and hybrid rankings complete whenever the vectorizer accepts
    the catalog and every seed id designates a row of it.  Interaction rows contribute nothing to the
    content-similarity matrix, which is computed from the catalog alone;
    every rated purchase row contributes its product, catalogued or not, as
    a column of the user-item matrix. *)
Theorem rankings_with_dangling_rows (rt : Runtime) (self : RecommenderEngine)
  (u n : Z) (tm : Matrix) :
  sorts_ok rt ->
  check_array (Pd.values (user_item_matrix self)) = true ->
  (exists l, collaborative_filtering rt self u n = Ok l) /\
  (tfidf rt (content_column (rows (products_df self))) = Some tm ->
   length tm = length (rows (products_df self)) ->
   check_array tm = true ->
   (forall s, In s (seed_products self u) ->
              seed_in_range (length (rows (products_df self))) s) ->
   (exists l, snd (content_based_filtering rt self u n) = Ok l) /\
   (exists l, snd (hybrid_recommendations rt self u n) = Ok l)) /\
  (forall other,
     rows (products_df other) = rows (products_df self) ->
     content_matrix rt other = content_matrix rt self) /\
  (forall r, In r (interactions_df self) -> is_purchase r = true ->
             F64.is_nan (Interaction.rating r) = false ->
             In (Interaction.product_id r) (Pd.columns (user_item_matrix self))).
Proof.
  intros S C.
  assert (Hc : exists l, collaborative_filtering rt self u n = Ok l).
  { destruct (@collaborative_filtering_total rt self u S C) as [ranked H].
    eexists. apply H. }
  split; [exact Hc|]. split; [|split].
  - intros E L Ct R.
    assert (Ht : exists l, snd (content_based_filtering rt self u n) = Ok l).
    { destruct (@content_based_filtering_total rt self u tm S E L Ct R) as [it H].
      eexists. apply H. }
    split; [exact Ht|]. apply hybrid_recommendations_total; assumption.
  - intros other E. unfold content_matrix. rewrite E. reflexivity.
  - intros r I P Nn. apply pivot_columns_In; [|exact Nn].
    apply filter_In. auto.
Qed.

(** The rankings of user 7 complete next to the uncatalogued purchase of
    user 8, which is a column of the matrix. *)
Lemma rankings_with_dangling_rows_witness :
  (exists l, collaborative_filtering (reference_runtime tfidf_related)
               dangling_purchase 7 5 = Ok l) /\
  (exists l, snd (content_based_filtering (reference_runtime tfidf_related)
                    dangling_purchase 7 5) = Ok l) /\
  (exists l, snd (hybrid_recommendations (reference_runtime tfidf_related)
                    dangling_purchase 7 5) = Ok l) /\
  In 99 (Pd.columns (user_item_matrix dangling_purchase)).
Proof.
  destruct (@rankings_with_dangling_rows (reference_runtime tfidf_related)
              dangling_purchase 7 5 related_rows) as (Hc & Ht & _ & Hp).
  - apply reference_sorts_ok.
  - vm_compute. reflexivity.
  - destruct Ht as [H1 H2].
    + reflexivity.
    + reflexivity.
    + vm_compute. reflexivity.
    + intros s [<-|[]]. unfold seed_in_range. simpl. lia.
    + repeat split; try assumption.
      apply (Hp (purchase 8 99 five)); simpl; auto.
Defined.

(* ===================================================================== *)
(** * C9: which inputs make a ranking raise *)
(* ===================================================================== *)

(** C9, as stated, fails: with [n = -1] the collaborative ranking does not
    raise, it returns the ranking [9, 2] without its last entry. *)
Lemma negative_n_does_not_raise :
  ~ raises_on_negative_n (reference_runtime no_tfidf) two_buyers 1 (-1).
Proof.
  intros H. destruct H as [e H]; [lia|]. vm_compute in H. discriminate.
Qed.

(** C9 (amended): no ranking raises because data is absent from the
    interaction log (an empty log gives empty lists; so does an empty
    catalog for the content ranking), or because [n] is negative.  The
    collaborative and the content ranking are each [[:n]] of a list that
    does not depend on [n], so a negative [n] drops the last [-n] entries;
    the hybrid ranking fuses these two cut lists and cuts the fused ranking
    by [[:n]] once more.  The collaborative ranking returns a list for
    every user and every [n] (on finite ratings); the content and hybrid
    rankings do whenever the vectorizer accepts the catalog and every seed
    id designates a row of it. *)
Theorem rankings_for_every_n (rt : Runtime) (self : RecommenderEngine) (u : Z) (tm : Matrix) :
  sorts_ok rt ->
  check_array (Pd.values (user_item_matrix self)) = true ->
  (interactions_df self = [] -> forall n,
     collaborative_filtering rt self u n = Ok [] /\
     snd (content_based_filtering rt self u n) = Ok [] /\
     snd (hybrid_recommendations rt self u n) = Ok []) /\
  (rows (products_df self) = [] -> forall n,
     snd (content_based_filtering rt self u n) = Ok []) /\
  (exists ranked,
     (forall n,
        collaborative_filtering rt self u n = Ok (slice_to n ranked) /\
        (n < 0 -> slice_to n ranked = firstn (length ranked - Z.to_nat (- n)) ranked)) /\
     (tfidf rt (content_column (rows (products_df self))) = Some tm ->
      length tm = length (rows (products_df self)) ->
      check_array tm = true ->
      (forall s, In s (seed_products self u) ->
                 seed_in_range (length (rows (products_df self))) s) ->
      exists iterated, forall n,
        snd (content_based_filtering rt self u n) = Ok (slice_to n iterated) /\
        (n < 0 -> slice_to n iterated =
                  firstn (length iterated - Z.to_nat (- n)) iterated) /\
        snd (hybrid_recommendations rt self u n) =
          Ok (hybrid_fuse (slice_to n ranked) (slice_to n iterated) n))).
Proof.
  intros S C.
  destruct (@collaborative_filtering_total rt self u S C) as [ranked Hr].
  split; [|split].
  - intros E n.
    assert (Ec : collaborative_filtering rt self u n = Ok [])
      by (unfold collaborative_filtering; rewrite E; reflexivity).
    assert (Et : content_based_filtering rt self u n = (self, Ok []))
      by (apply content_based_filtering_empty; auto).
    repeat split; [exact Ec|rewrite Et; reflexivity|].
    unfold hybrid_recommendations. rewrite Ec, Et. simpl.
    rewrite hybrid_fuse_nil. reflexivity.
  - intros E n. rewrite content_based_filtering_empty by auto. reflexivity.
  - exists ranked. split.
    + intros n. split; [apply Hr|apply slice_to_neg].
    + intros E L Ct R.
      destruct (@content_based_filtering_total rt self u tm S E L Ct R) as [it Hi].
      exists it. intros n. split; [apply Hi|]. split; [apply slice_to_neg|].
      unfold hybrid_recommendations. rewrite Hr.
      pose proof (Hi n) as Hn.
      destruct (content_based_filtering rt self u n) as [self' r].
      cbn [snd] in *. rewrite Hn. reflexivity.
Qed.

(** The rankings of the buyer of the mouse, for every [n]: the content
    ranking is [[:n]] of [1, 3]; for [n = -1] the hybrid ranking fuses
    [[1]] with the empty collaborative list and cuts again, to nothing. *)
Lemma rankings_for_every_n_witness :
  exists ranked,
    (forall n,
       collaborative_filtering (reference_runtime tfidf_related) mouse_buyer 7 n =
         Ok (slice_to n ranked)) /\
    exists iterated,
      (forall n,
         snd (content_based_filtering (reference_runtime tfidf_related) mouse_buyer 7 n) =
           Ok (slice_to n iterated) /\
         snd (hybrid_recommendations (reference_runtime tfidf_related) mouse_buyer 7 n) =
           Ok (hybrid_fuse (slice_to n ranked) (slice_to n iterated) n)) /\
      snd (hybrid_recommendations (reference_runtime tfidf_related) mouse_buyer 7 5) =
        Ok [1; 3] /\
      snd (hybrid_recommendations (reference_runtime tfidf_related) mouse_buyer 7 (-1)) =
        Ok [].
Proof.
  destruct (@rankings_for_every_n (reference_runtime tfidf_related)
              mouse_buyer 7 related_rows) as (_ & _ & ranked & Hc & Ht).
  - apply reference_sorts_ok.
  - vm_compute. reflexivity.
  - exists ranked. split; [intros n; apply Hc|].
    destruct Ht as [iterated Hi].
    + reflexivity.
    + reflexivity.
    + vm_compute. reflexivity.
    + intros s [<-|[]]. unfold seed_in_range. simpl. lia.
    + exists iterated. split; [|split].
      * intros n. destruct (Hi n) as (H1 & _ & H2). split; assumption.
      * vm_compute. reflexivity.
      * vm_compute. reflexivity.
Defined.

(* ===================================================================== *)
(** * C8: what the operations change *)
(* ===================================================================== *)

Lemma content_based_filtering_state (rt : Runtime) (self : RecommenderEngine) (u n : Z) :
  fst (content_based_filtering rt self u n) = self \/
  fst (content_based_filtering rt self u n) = assign_content self.
Proof.
  unfold content_based_filtering. destruct (_ || _); simpl; auto.
Qed.

Lemma hybrid_recommendations_state (rt : Runtime) (self : RecommenderEngine) (u n : Z) :
  fst (hybrid_recommendations rt self u n) = self \/
  fst (hybrid_recommendations rt self u n) = assign_content self.
Proof.
  unfold hybrid_recommendations.
  destruct (collaborative_filtering rt self u n); simpl; auto.
  pose proof (content_based_filtering_state rt self u n) as H.
  destruct (content_based_filtering rt self u n). simpl in *. exact H.
Qed.

(** C8, as stated, fails: the content ranking assigns the derived
    ['content'] column on the catalog frame itself. *)
Lemma content_rank_modifies_catalog :
  ~ read_only (reference_runtime tfidf_related) (ContentRank 7 5) mouse_buyer.
Proof.
  unfold read_only. simpl. intros H.
  apply (f_equal (fun e => content (products_df e))) in H.
  simpl in H. discriminate.
Qed.

(** The added column shows in the records handed to the presenter. *)
Lemma content_column_in_records :
  map snd (get_product_details mouse_buyer [2]) = [None] /\
  map snd (get_product_details
             (state_after (reference_runtime tfidf_related) (ContentRank 7 5) mouse_buyer)
             [2]) = [Some "Electronics mouse"%string].
Proof. split; reflexivity. Qed.

(** C8 (amended): no operation modifies an interaction record or a field
    of a product record.  The collaborative ranking, the explanation, the
    statistics, the history and the product details change nothing at all;
    the content ranking, and the hybrid ranking through it, add to the
    catalog frame the derived column ['content'] (category, a space,
    description), and nothing else; assigning it again changes nothing. *)
Theorem operations_frame (rt : Runtime) (op : operation) (self : RecommenderEngine) :
  interactions_df (state_after rt op self) = interactions_df self /\
  rows (products_df (state_after rt op self)) = rows (products_df self) /\
  (state_after rt op self = self \/ state_after rt op self = assign_content self) /\
  match op with
  | ContentRank _ _ | HybridRank _ _ => True
  | _ => state_after rt op self = self
  end /\
  content (products_df (assign_content self)) =
    Some (content_column (rows (products_df self))) /\
  assign_content (assign_content self) = assign_content self.
Proof.
  assert (H : state_after rt op self = self \/ state_after rt op self = assign_content self).
  { destruct op; simpl; auto.
    - apply content_based_filtering_state.
    - apply hybrid_recommendations_state. }
  split; [|split; [|split; [|split; [|split]]]].
  - destruct H as [-> | ->]; reflexivity.
  - destruct H as [-> | ->]; reflexivity.
  - exact H.
  - destruct op; simpl; auto.
  - reflexivity.
  - reflexivity.
Qed.

(* ===================================================================== *)
(** * Facts about strings *)
(* ===================================================================== *)

Lemma prefix_nil (s : string) : prefix EmptyString s = true.
Proof. destruct s; reflexivity. Qed.

Lemma prefix_refl (s : string) : prefix s s = true.
Proof.
  induction s as [|c s IH]; simpl; [reflexivity|].
  destruct (ascii_dec c c); [exact IH|congruence].
Qed.


Lemma contains_step (sub s : string) :
  contains sub s = prefix sub s || match s with
                                   | EmptyString => false
                                   | String _ s' => contains sub s'
                                   end.
Proof. destruct s; reflexivity. Qed.

Lemma contains_refl (s : string) : contains s s = true.
Proof. rewrite contains_step, prefix_refl. reflexivity. Qed.




(** ** Two decimals *)

Lemma two_digits_length (n : Z) : 0 <= n < 100 -> String.length (two_digits n) = 2%nat.
Proof.
  intros H.
  assert (E : n = Z.of_nat (Z.to_nat n)) by lia.
  assert (L : (Z.to_nat n < 100)%nat) by lia.
  rewrite E. generalize dependent (Z.to_nat n). clear. intros k _ L.
  do 100 (destruct k as [|k]; [reflexivity|]). lia.
Qed.

Lemma format_2f_finite (s : bool) (m : positive) (e : Z) :
  exists whole cents,
    format_2f (S754_finite s m e) =
      (sign_text s ++ digits whole ++ "." ++ two_digits cents)%string /\
    0 <= cents < 100 /\ String.length (two_digits cents) = 2%nat.
Proof.
  unfold format_2f.
  set (c := if 0 <=? e then _ else _).
  exists (c / 100), (c mod 100).
  assert (B : 0 <= c mod 100 < 100) by (apply Z.mod_pos_bound; lia).
  split; [reflexivity|]. split; [exact B|]. apply two_digits_length, B.
Qed.

(* ===================================================================== *)
(** * The matched categories *)
(* ===================================================================== *)

Lemma str_set_add_In (x y : string) (s : list string) :
  In y (str_set_add x s) <-> y = x \/ In y s.
Proof.
  unfold str_set_add. destruct (existsb (String.eqb x) s) eqn:E.
  - apply existsb_exists in E. destruct E as (z & Iz & Ez).
    apply String.eqb_eq in Ez. subst z. intuition (subst; auto).
  - rewrite in_app_iff. simpl. intuition.
Qed.

Lemma categories_of_name_In (name_lower : string) (cks : list (string * list string))
  (acc : list string) (c : string) :
  In c (fold_left (fun categories ck =>
          if existsb (fun keyword => contains keyword name_lower) (snd ck)
          then str_set_add (fst ck) categories
          else categories) cks acc) <->
  In c acc \/
  exists ck, In ck cks /\ fst ck = c /\
             existsb (fun keyword => contains keyword name_lower) (snd ck) = true.
Proof.
  revert acc. induction cks as [|ck cks IH]; simpl; intros acc.
  - split; [auto|]. intros [H|(ck & [] & _)]. exact H.
  - rewrite IH. destruct (existsb _ (snd ck)) eqn:E.
    + rewrite str_set_add_In. split.
      * intros [[->|H]|(ck' & I & F & X)]; eauto 7.
      * intros [H|(ck' & [<-|I] & F & X)]; eauto 7.
    + split.
      * intros [H|(ck' & I & F & X)]; eauto 7.
      * intros [H|(ck' & [<-|I] & F & X)]; eauto 7. congruence.
Qed.

Lemma matched_from_In (names : list string) (acc : list string) (c : string) :
  In c (fold_left (fun categories name =>
          let name_lower := lower name in
          fold_left (fun categories ck =>
              if existsb (fun keyword => contains keyword name_lower) (snd ck)
              then str_set_add (fst ck) categories
              else categories)
            category_keywords categories) names acc) <->
  In c acc \/
  exists name ck, In name names /\ In ck category_keywords /\ fst ck = c /\
    existsb (fun keyword => contains keyword (lower name)) (snd ck) = true.
Proof.
  revert acc. induction names as [|name names IH]; cbn [fold_left]; intros acc.
  - split; [auto|]. intros [H|(n & ck & [] & _)]. exact H.
  - rewrite IH. cbv zeta. rewrite categories_of_name_In. split.
    + intros [[H|(ck & I & F & X)]|(n & ck & In' & I & F & X)].
      * left. exact H.
      * right. exists name, ck. simpl. auto.
      * right. exists n, ck. simpl. auto.
    + intros [H|(n & ck & [<-|In'] & I & F & X)].
      * left. left. exact H.
      * left. right. exists ck. auto.
      * right. exists n, ck. auto.
Qed.

(** A category is matched exactly when one of its keywords occurs in the
    lower-cased name of a purchased product. *)
Lemma matched_categories_In (names : list string) (c : string) :
  In c (matched_categories names) <->
  exists name keywords keyword,
    In name names /\ In (c, keywords) category_keywords /\
    In keyword keywords /\ contains keyword (lower name) = true.
Proof.
  unfold matched_categories. rewrite matched_from_In. split.
  - intros [[]|(name & [c' kws] & In' & I & F & X)]. simpl in F, X. subst c'.
    apply existsb_exists in X. destruct X as (kw & Ik & Ek).
    exists name, kws, kw. auto.
  - intros (name & kws & kw & In' & I & Ik & Ek). right.
    exists name, (c, kws). simpl. repeat split; auto.
    apply existsb_exists. eauto.
Qed.

(** The set of matched categories holds no category twice. *)
Lemma str_set_add_NoDup (x : string) (s : list string) :
  NoDup s -> NoDup (str_set_add x s).
Proof.
  intros N. unfold str_set_add. destruct (existsb (String.eqb x) s) eqn:E; [exact N|].
  apply NoDup_app; [exact N|repeat constructor; intros []|].
  intros y Hy [E'|[]]. subst y.
  assert (existsb (String.eqb x) s = true)
    by (apply existsb_exists; exists x; split; [exact Hy|apply String.eqb_refl]).
  congruence.
Qed.

Lemma categories_of_name_NoDup (name_lower : string) (cks : list (string * list string))
  (acc : list string) :
  NoDup acc ->
  NoDup (fold_left (fun categories ck =>
           if existsb (fun keyword => contains keyword name_lower) (snd ck)
           then str_set_add (fst ck) categories else categories) cks acc).
Proof.
  revert acc. induction cks as [|ck cks IH]; simpl; intros acc N; [exact N|].
  apply IH. destruct (existsb _ (snd ck)); [apply str_set_add_NoDup, N|exact N].
Qed.

Lemma matched_from_NoDup (names acc : list string) :
  NoDup acc ->
  NoDup (fold_left (fun categories name =>
      let name_lower := lower name in
      fold_left (fun categories ck =>
          if existsb (fun keyword => contains keyword name_lower) (snd ck)
          then str_set_add (fst ck) categories
          else categories)
        category_keywords categories) names acc).
Proof.
  revert acc. induction names as [|name names IH]; intros acc N; [exact N|].
  cbn [fold_left]. apply IH. cbv zeta. apply categories_of_name_NoDup, N.
Qed.

Lemma matched_categories_NoDup (names : list string) : NoDup (matched_categories names).
Proof. apply matched_from_NoDup. constructor. Qed.

(** ** [sub in s] is the occurrence of [sub] as a substring *)

Lemma prefix_split (sub s : string) :
  prefix sub s = true <-> exists r, s = (sub ++ r)%string.
Proof.
  revert s. induction sub as [|c sub IH]; intros s.
  - split; [intros _; exists s; reflexivity|intros _; apply prefix_nil].
  - destruct s as [|c' s]; simpl.
    + split; [discriminate|intros (r & E); discriminate E].
    + destruct (ascii_dec c c') as [<-|Ne].
      * rewrite IH. split; intros (r & E); exists r; congruence.
      * split; [discriminate|]. intros (r & E). congruence.
Qed.

Lemma contains_split (sub s : string) :
  contains sub s = true <-> exists l r, s = (l ++ sub ++ r)%string.
Proof.
  induction s as [|c s IH].
  - rewrite contains_step, orb_false_r, prefix_split. split.
    + intros (r & E). exists EmptyString, r. exact E.
    + intros (l & r & E). destruct l as [|c l]; [|discriminate E].
      exists r. exact E.
  - rewrite contains_step, orb_true_iff, prefix_split, IH. split.
    + intros [(r & E)|(l & r & E)].
      * exists EmptyString, r. exact E.
      * exists (String c l), r. simpl. rewrite E. reflexivity.
    + intros (l & r & E). destruct l as [|c' l].
      * left. exists r. exact E.
      * right. exists l, r. simpl in E. congruence.
Qed.


(** ** The value that ['%.2f'] prints *)




(* ===================================================================== *)
(** * C10: the explanation sentence *)
(* ===================================================================== *)



(* ===================================================================== *)
(** * Further properties of the engine *)
(* ===================================================================== *)

(** ** Slices and keys *)

Lemma NoDup_firstn (A : Type) (k : nat) (l : list A) : NoDup l -> NoDup (firstn k l).
Proof.
  intros N. rewrite <- (firstn_skipn k l) in N.
  exact (NoDup_app_remove_r _ _ N).
Qed.

Lemma slice_to_NoDup (A : Type) (n : Z) (l : list A) : NoDup l -> NoDup (slice_to n l).
Proof.
  intros N. destruct (slice_to_prefix n l) as [k ->]. apply NoDup_firstn, N.
Qed.

Lemma slice_to_all (A : Type) (n : Z) (l : list A) :
  Z.of_nat (length l) <= n -> slice_to n l = l.
Proof.
  intros H. rewrite slice_to_nonneg by lia. apply firstn_all2. lia.
Qed.

Lemma slice_to_map (A B : Type) (f : A -> B) (n : Z) (l : list A) :
  slice_to n (map f l) = map f (slice_to n l).
Proof. unfold slice_to. apply slice_map. Qed.

Lemma enumerate_snd (A : Type) (l : list A) : map snd (enumerate l) = l.
Proof.
  unfold enumerate. generalize 0%nat.
  induction l as [|y l IH]; simpl; intros s; [reflexivity|].
  rewrite IH. reflexivity.
Qed.

(** The keys of a dictionary after a loop of assignments. *)
Lemma fold_dict_set_NoDup (V : Type) (f : nat * Z -> V) (ips : list (nat * Z))
  (d : dict V) :
  NoDup (map fst d) ->
  NoDup (map fst (fold_left (fun d ip => dict_set (snd ip) (f ip) d) ips d)).
Proof.
  revert d. induction ips as [|ip ips IH]; simpl; intros d N; [exact N|].
  apply IH, dict_set_NoDup, N.
Qed.

Lemma dict_set_keys_In (V : Type) (d : dict V) (k : Z) (v : V) (x : Z) :
  In x (map fst (dict_set k v d)) <-> x = k \/ In x (map fst d).
Proof.
  rewrite dict_set_keys. destruct (dict_mem k d) eqn:E.
  - apply dict_mem_In in E. split; [tauto|]. intros [->|H]; assumption.
  - rewrite in_app_iff. simpl. split; [intros [H|[H|[]]]; auto|intros [H|H]; auto].
Qed.

Lemma fold_dict_set_In (V : Type) (f : nat * Z -> V) (ips : list (nat * Z))
  (d : dict V) (x : Z) :
  In x (map fst (fold_left (fun d ip => dict_set (snd ip) (f ip) d) ips d)) <->
  In x (map fst d) \/ In x (map snd ips).
Proof.
  revert d. induction ips as [|ip ips IH]; simpl; intros d; [tauto|].
  rewrite IH, dict_set_keys_In. intuition auto.
Qed.

Lemma content_step_NoDup (g : nat * Z -> F64.t) (d : dict F64.t) (ip : nat * Z) :
  NoDup (map fst d) -> NoDup (map fst (content_step g d ip)).
Proof.
  intros N. unfold content_step.
  destruct (dict_get (snd ip) d); apply dict_set_NoDup, N.
Qed.

Lemma content_step_In (g : nat * Z -> F64.t) (d : dict F64.t) (ip : nat * Z) (x : Z) :
  In x (map fst (content_step g d ip)) <-> x = snd ip \/ In x (map fst d).
Proof.
  unfold content_step.
  destruct (dict_get (snd ip) d); apply dict_set_keys_In.
Qed.

Lemma content_fold_NoDup (g : nat * Z -> F64.t) (ips : list (nat * Z)) (d : dict F64.t) :
  NoDup (map fst d) -> NoDup (map fst (fold_left (content_step g) ips d)).
Proof.
  revert d. induction ips as [|ip ips IH]; simpl; intros d N; [exact N|].
  apply IH, content_step_NoDup, N.
Qed.

Lemma content_fold_In (g : nat * Z -> F64.t) (ips : list (nat * Z)) (d : dict F64.t)
  (x : Z) :
  In x (map fst (fold_left (content_step g) ips d)) <->
  In x (map fst d) \/ In x (map snd ips).
Proof.
  revert d. induction ips as [|ip ips IH]; simpl; intros d; [tauto|].
  rewrite IH, content_step_In. intuition auto.
Qed.

(** The keys of the score table, whatever the two lists are. *)
Lemma hybrid_scores_NoDup (collab content : list Z) :
  NoDup (map fst (hybrid_scores collab content)).
Proof.
  unfold hybrid_scores, score_content.
  change (fun (all_recs : dict F64.t) (ip : nat * Z) => _)
    with (content_step (fun ip => position_score (length content) (fst ip) F64.lit_0_4)).
  apply content_fold_NoDup. unfold score_collab.
  apply fold_dict_set_NoDup. constructor.
Qed.

Lemma hybrid_scores_In (collab content : list Z) (p : Z) :
  In p (map fst (hybrid_scores collab content)) <-> In p collab \/ In p content.
Proof.
  unfold hybrid_scores, score_content.
  change (fun (all_recs : dict F64.t) (ip : nat * Z) => _)
    with (content_step (fun ip => position_score (length content) (fst ip) F64.lit_0_4)).
  rewrite content_fold_In. unfold score_collab.
  rewrite fold_dict_set_In, !enumerate_snd. simpl. tauto.
Qed.

Lemma hybrid_fuse_keys (collab content : list Z) (n : Z) :
  hybrid_fuse collab content n =
  slice_to n (map fst (sorted (@snd Z F64.t) true (hybrid_scores collab content))).
Proof. unfold hybrid_fuse. rewrite slice_to_map. reflexivity. Qed.

Lemma hybrid_ranked_perm (collab content : list Z) :
  Permutation (map fst (sorted (@snd Z F64.t) true (hybrid_scores collab content)))
              (map fst (hybrid_scores collab content)).
Proof. apply Permutation_map, sorted_desc_perm. Qed.

Lemma hybrid_fuse_NoDup (collab content : list Z) (n : Z) :
  NoDup (hybrid_fuse collab content n).
Proof.
  rewrite hybrid_fuse_keys. apply slice_to_NoDup.
  apply (Permutation_NoDup (Permutation_sym (hybrid_ranked_perm collab content))).
  apply hybrid_scores_NoDup.
Qed.

Lemma hybrid_fuse_In (collab content : list Z) (n p : Z) :
  In p (hybrid_fuse collab content n) -> In p collab \/ In p content.
Proof.
  rewrite hybrid_fuse_keys. intros H. apply slice_In in H.
  apply (Permutation_in _ (hybrid_ranked_perm collab content)) in H.
  apply hybrid_scores_In, H.
Qed.

Lemma hybrid_fuse_length (collab content : list Z) (n : Z) :
  0 <= n -> (length (hybrid_fuse collab content n) <= Z.to_nat n)%nat.
Proof. intros H. rewrite hybrid_fuse_keys. apply slice_to_length, H. Qed.

Lemma hybrid_scores_length (collab content : list Z) :
  (length (hybrid_scores collab content) <= length collab + length content)%nat.
Proof.
  rewrite <- (length_map fst), <- length_app.
  apply NoDup_incl_length; [apply hybrid_scores_NoDup|].
  intros p H. apply in_app_iff, hybrid_scores_In, H.
Qed.

(** X1 (hybrid_recommendations, lines 140-151).  Whatever the two ranked
    lists are, the fused list has no product twice, holds only products of
    the two lists and, for a non-negative [n], at most [n] of them; when
    [n] is at least the number of entries of the two lists, every product
    of either list is in it. *)
Theorem hybrid_fuse_candidates (collab content : list Z) (n : Z) :
  NoDup (hybrid_fuse collab content n) /\
  (forall p, In p (hybrid_fuse collab content n) -> In p collab \/ In p content) /\
  (0 <= n -> (length (hybrid_fuse collab content n) <= Z.to_nat n)%nat) /\
  (Z.of_nat (length collab + length content) <= n ->
   forall p, In p collab \/ In p content -> In p (hybrid_fuse collab content n)).
Proof.
  split; [apply hybrid_fuse_NoDup|].
  split; [apply hybrid_fuse_In|].
  split; [apply hybrid_fuse_length|].
  intros H p Hp. rewrite hybrid_fuse_keys.
  pose proof (hybrid_scores_length collab content) as L.
  pose proof (Permutation_length (hybrid_ranked_perm collab content)) as PL.
  rewrite slice_to_all by (rewrite PL, length_map; lia).
  apply (Permutation_in _ (Permutation_sym (hybrid_ranked_perm collab content))).
  apply hybrid_scores_In, Hp.
Qed.

Lemma hybrid_fuse_candidates_witness :
  In 7 (hybrid_fuse [9; 5; 2; 6] [2; 7; 8; 9] 8).
Proof.
  apply (proj2 (proj2 (proj2 (hybrid_fuse_candidates [9; 5; 2; 6] [2; 7; 8; 9] 8)))).
  - simpl. lia.
  - right. simpl. tauto.
Defined.

(** ** Collaborative filtering: what is recommended *)

Lemma set_of_list_NoDup (l : list Z) : NoDup (set_of_list l).
Proof. unfold set_of_list. apply fold_set_add_NoDup. constructor. Qed.

Lemma set_of_list_In (l : list Z) (x : Z) : In x (set_of_list l) <-> In x l.
Proof. unfold set_of_list. rewrite fold_set_add_In. simpl. tauto. Qed.

Lemma set_iter_In (rt : Runtime) (s : pyset) (x : Z) :
  set_iter_ok rt -> NoDup s -> (In x (set_iter rt s) <-> In x s).
Proof.
  intros S N. split; intros H.
  - exact (Permutation_in _ (S s N) H).
  - exact (Permutation_in _ (Permutation_sym (S s N)) H).
Qed.

Lemma rated_products_In (cols : list Z) (row : list F64.t) (p : Z) :
  In p (rated_products cols row) -> In p cols.
Proof.
  unfold rated_products. rewrite set_of_list_In. intros H.
  apply in_map_iff in H. destruct H as ([c v] & <- & H).
  apply filter_In in H. destruct H as [H _]. exact (in_combine_l _ _ _ _ H).
Qed.

Lemma set_difference_In (rt : Runtime) (a b : pyset) (x : Z) :
  set_iter_ok rt -> NoDup a ->
  (In x (set_difference rt a b) <-> In x a /\ ~ In x b).
Proof.
  intros S N. unfold set_difference.
  rewrite set_of_list_In, filter_In, (set_iter_In x S N), negb_true_iff, mem_false.
  reflexivity.
Qed.

Lemma bump_NoDup (s : F64.t) (d : dict F64.t) (p : Z) :
  NoDup (map fst d) -> NoDup (map fst (bump s d p)).
Proof.
  intros N. unfold bump. destruct (dict_get p d); repeat apply dict_set_NoDup; exact N.
Qed.

Lemma bump_In (s : F64.t) (d : dict F64.t) (p x : Z) :
  In x (map fst (bump s d p)) <-> x = p \/ In x (map fst d).
Proof.
  unfold bump. destruct (dict_get p d); rewrite ?dict_set_keys_In; tauto.
Qed.

Lemma fold_bump_NoDup (s : F64.t) (l : list Z) (d : dict F64.t) :
  NoDup (map fst d) -> NoDup (map fst (fold_left (bump s) l d)).
Proof.
  revert d. induction l as [|p l IH]; simpl; intros d N; [exact N|].
  apply IH, bump_NoDup, N.
Qed.

Lemma fold_bump_In (s : F64.t) (l : list Z) (d : dict F64.t) (x : Z) :
  In x (map fst (fold_left (bump s) l d)) <-> In x (map fst d) \/ In x l.
Proof.
  revert d. induction l as [|p l IH]; simpl; intros d; [tauto|].
  rewrite IH, bump_In. intuition auto.
Qed.

(** The keys of the table of weights: products of the matrix that the
    target has not rated, each once. *)
Lemma accumulate_keys (rt : Runtime) (pt : Pd.PivotTable) (up : pyset)
  (nb : list (Z * F64.t)) (d w : dict F64.t) :
  set_iter_ok rt ->
  foldM (fun recommendations us =>
      let '(similar_user_id, similarity_score) := us in
      row <- Pd.loc pt similar_user_id ;;
      let similar_user_products := rated_products (Pd.columns pt) row in
      let new_products := set_difference rt similar_user_products up in
      foldM (fun recommendations product_id =>
          let recommendations :=
            if negb (dict_mem product_id recommendations)
            then dict_set product_id F64.zero recommendations
            else recommendations in
          dict_iadd product_id similarity_score recommendations)
        (set_iter rt new_products) recommendations) nb d = Ok w ->
  NoDup (map fst d) ->
  (forall p, In p (map fst d) -> In p (Pd.columns pt) /\ ~ In p up) ->
  NoDup (map fst w) /\
  (forall p, In p (map fst w) -> In p (Pd.columns pt) /\ ~ In p up).
Proof.
  intros S. revert d. induction nb as [|[v s] nb IH]; intros d H N P.
  - simpl in H. injection H as <-. auto.
  - cbn [foldM] in H. destruct (Pd.loc pt v) as [row|e]; [|discriminate H].
    cbn [bind] in H. rewrite inner_loop in H. cbn [bind] in H.
    apply IH in H; [exact H|apply fold_bump_NoDup, N|].
    intros p Hp. apply fold_bump_In in Hp. destruct Hp as [Hp|Hp]; [auto|].
    unfold set_difference in Hp.
    apply (proj1 (set_iter_In p S (set_of_list_NoDup _))) in Hp.
    apply set_of_list_In, filter_In in Hp. destruct Hp as [Hp Hm].
    apply negb_true_iff, mem_false in Hm.
    apply (proj1 (set_iter_In p S (set_of_list_NoDup _))) in Hp.
    split; [exact (rated_products_In _ _ _ Hp)|exact Hm].
Qed.

Lemma pivot_columns_purchased (data : list Interaction.t) (p : Z) :
  In p (Pd.columns (Pd.pivot_table data)) ->
  exists r, In r data /\ Interaction.product_id r = p.
Proof.
  unfold Pd.pivot_table. simpl. intros H.
  apply sorted_unique_In, in_map_iff in H. destruct H as (r & E & I).
  apply filter_In in I. exists r. tauto.
Qed.

(** The list returned is cut from the sorted table of weights. *)
Lemma collaborative_filtering_table (rt : Runtime) (self : RecommenderEngine)
  (user_id n : Z) (out : list Z) :
  set_iter_ok rt ->
  collaborative_filtering rt self user_id n = Ok out ->
  exists w : dict F64.t,
    out = slice_to n (map fst (sorted (@snd Z F64.t) true w)) /\
    NoDup (map fst w) /\
    (forall p, In p (map fst w) ->
       In p (Pd.columns (user_item_matrix self)) /\
       ~ In p (user_products self user_id)).
Proof.
  intros S H. unfold collaborative_filtering in H.
  assert (E : exists w : dict F64.t,
    [] = slice_to n (map fst (sorted (@snd Z F64.t) true w)) /\
    NoDup (map fst w) /\
    (forall p, In p (map fst w) ->
       In p (Pd.columns (user_item_matrix self)) /\
       ~ In p (user_products self user_id))).
  { exists []. split; [rewrite slice_to_nil; reflexivity|].
    split; [constructor|intros p []]. }
  destruct (length (interactions_df self) =? 0)%nat;
    [inversion H; subst; exact E|].
  destruct (length (filter is_purchase (interactions_df self)) =? 0)%nat;
    [inversion H; subst; exact E|].
  fold (user_item_matrix self) in H.
  destruct (negb (mem user_id (Pd.index (user_item_matrix self))));
    [inversion H; subst; exact E|].
  clear E.
  destruct (similar_users rt (user_item_matrix self) user_id) as [nb|e];
    [|discriminate H].
  cbn [bind] in H. unfold user_products.
  destruct (Pd.loc (user_item_matrix self) user_id) as [row|e]; [|discriminate H].
  cbn [bind] in H.
  destruct (accumulate_neighbours rt (user_item_matrix self)
              (rated_products (Pd.columns (user_item_matrix self)) row) nb)
    as [w|e] eqn:A; [|discriminate H].
  cbn [bind] in H. inversion H; subst. clear H.
  unfold accumulate_neighbours in A.
  apply (accumulate_keys _ _ _ _ S) in A; [|constructor|intros p []].
  exists w. split; [symmetry; apply slice_to_map|exact A].
Qed.

Lemma sorted_keys_perm (w : dict F64.t) :
  Permutation (map fst (sorted (@snd Z F64.t) true w)) (map fst w).
Proof. apply Permutation_map, sorted_desc_perm. Qed.

Lemma collaborative_filtering_In (rt : Runtime) (self : RecommenderEngine)
  (user_id n : Z) (out : list Z) (p : Z) :
  set_iter_ok rt ->
  collaborative_filtering rt self user_id n = Ok out ->
  In p out ->
  (exists v, purchased_by self v p) /\ ~ In p (user_products self user_id).
Proof.
  intros S H Hp.
  destruct (@collaborative_filtering_table _ _ _ _ _ S H) as (w & -> & N & P).
  apply slice_In in Hp. apply (Permutation_in _ (sorted_keys_perm w)) in Hp.
  destruct (P p Hp) as [Hc Hu]. split; [|exact Hu].
  apply pivot_columns_purchased in Hc. destruct Hc as (r & Hr & Er).
  apply filter_In in Hr. exists (Interaction.user_id r), r. tauto.
Qed.

(** X2 (collaborative_filtering, lines 80-95).  Whenever the collaborative
    ranking returns, its list has no product twice, at most [n] products
    for a non-negative [n], and every product in it has a purchase row of
    some user in the log and is not among the products the target itself
    has rated above zero. *)
Theorem collaborative_filtering_new_products (rt : Runtime) (self : RecommenderEngine)
  (user_id n : Z) (out : list Z) :
  set_iter_ok rt ->
  collaborative_filtering rt self user_id n = Ok out ->
  NoDup out /\
  (0 <= n -> (length out <= Z.to_nat n)%nat) /\
  (forall p, In p out ->
     (exists v, purchased_by self v p) /\ ~ In p (user_products self user_id)).
Proof.
  intros S H. split; [|split].
  - destruct (@collaborative_filtering_table _ _ _ _ _ S H) as (w & -> & N & P).
    apply slice_to_NoDup.
    exact (Permutation_NoDup (Permutation_sym (sorted_keys_perm w)) N).
  - destruct (@collaborative_filtering_table _ _ _ _ _ S H) as (w & -> & N & P).
    intros Hn. apply slice_to_length, Hn.
  - intros p Hp. exact (@collaborative_filtering_In _ _ _ _ _ _ S H Hp).
Qed.

Lemma collaborative_filtering_new_products_witness :
  NoDup [9; 2] /\
  (0 <= 5 -> (length [9; 2] <= Z.to_nat 5)%nat) /\
  (forall p, In p [9; 2] ->
     (exists v, purchased_by two_buyers v p) /\ ~ In p (user_products two_buyers 1)).
Proof.
  apply (@collaborative_filtering_new_products (reference_runtime no_tfidf)
           two_buyers 1 5 [9; 2]).
  - apply reference_set_iter_ok.
  - vm_compute. reflexivity.
Defined.

(** ** Content-based filtering: what is recommended *)

Lemma length_zero_nil (A : Type) (l : list A) :
  (length l =? 0)%nat = true <-> l = [].
Proof.
  destruct l; simpl; split; intros H; try reflexivity; discriminate H.
Qed.

Lemma length_zero_cons (A : Type) (l : list A) :
  (length l =? 0)%nat = false <-> l <> [].
Proof.
  destruct l; simpl; split; intros H; try reflexivity; try discriminate;
    try congruence.
Qed.

(** Every candidate of a seed is the id of a catalog product. *)
Lemma candidates_of_seed_In (rt : Runtime) (ps : list Product.t) (sim : Matrix)
  (seed : Z) (c : list Z) (p : Z) :
  candidates_of_seed rt ps sim seed = Ok c -> In p c -> In p (map Product.id ps).
Proof.
  unfold candidates_of_seed. intros H Hp.
  destruct (index sim (seed - 1)) as [row|e]; [|discriminate H].
  cbn [bind] in H.
  destruct (mapM_In _ _ _ H Hp) as (idx & _ & E).
  destruct (nth_error ps idx) as [q|] eqn:Q; [|discriminate E].
  simpl in E. injection E as <-.
  apply in_map. exact (nth_error_In _ _ Q).
Qed.

Lemma accumulation_order_In (rt : Runtime) (self : RecommenderEngine) (u : Z)
  (acc : list Z) :
  accumulation_order rt self u = Ok acc ->
  NoDup acc /\
  (forall p, In p acc -> In p (catalog_ids self) /\ ~ In p (seed_products self u)).
Proof.
  unfold accumulation_order. intros H.
  destruct (content_matrix rt self) as [sim|e]; [|discriminate H].
  cbn [bind] in H.
  destruct (mapM (candidates_of_seed rt (rows (products_df self)) sim)
              (seed_products self u)) as [cands|e] eqn:M; [|discriminate H].
  cbn [bind] in H. injection H as <-.
  split; [apply unique_NoDup|].
  intros p Hp. apply unique_In, filter_In in Hp. destruct Hp as [Hc Hs].
  apply negb_true_iff, mem_false in Hs. split; [|exact Hs].
  apply in_concat in Hc. destruct Hc as (c & Hc & Hp).
  destruct (mapM_In _ _ _ M Hc) as (seed & _ & E).
  exact (@candidates_of_seed_In _ _ _ _ _ _ E Hp).
Qed.

(** The list returned is cut from the set of accumulated candidates. *)
Lemma content_based_filtering_cut (rt : Runtime) (self : RecommenderEngine)
  (user_id n : Z) (out : list Z) :
  set_iter_ok rt ->
  snd (content_based_filtering rt self user_id n) = Ok out ->
  exists acc : list Z,
    out = slice_to n (set_iter rt acc) /\
    NoDup acc /\
    (forall p, In p acc ->
       In p (catalog_ids self) /\ ~ In p (seed_products self user_id)).
Proof.
  intros S H.
  assert (E : exists acc : list Z,
    [] = slice_to n (set_iter rt acc) /\
    NoDup acc /\
    (forall p, In p acc ->
       In p (catalog_ids self) /\ ~ In p (seed_products self user_id))).
  { exists []. rewrite (Permutation_nil (Permutation_sym (S [] (NoDup_nil Z)))).
    rewrite slice_to_nil. split; [reflexivity|]. split; [constructor|intros p []]. }
  destruct (length (rows (products_df self)) =? 0)%nat eqn:Ep.
  { apply length_zero_nil in Ep.
    rewrite content_based_filtering_empty in H by (left; exact Ep).
    simpl in H. inversion H; subst. exact E. }
  destruct (length (interactions_df self) =? 0)%nat eqn:Ei.
  { apply length_zero_nil in Ei.
    rewrite content_based_filtering_empty in H by (right; exact Ei).
    simpl in H. inversion H; subst. exact E. }
  clear E. apply length_zero_cons in Ep, Ei.
  rewrite content_based_filtering_eq in H by assumption. cbn [snd] in H.
  destruct (accumulation_order rt self user_id) as [acc|e] eqn:A; [|discriminate H].
  cbn [bind] in H. inversion H; subst. clear H.
  exists acc. split; [reflexivity|]. exact (@accumulation_order_In _ _ _ _ A).
Qed.

Lemma content_based_filtering_In (rt : Runtime) (self : RecommenderEngine)
  (user_id n : Z) (out : list Z) (p : Z) :
  set_iter_ok rt ->
  snd (content_based_filtering rt self user_id n) = Ok out ->
  In p out ->
  In p (catalog_ids self) /\ ~ In p (seed_products self user_id).
Proof.
  intros S H Hp.
  destruct (@content_based_filtering_cut _ _ _ _ _ S H) as (acc & -> & N & P).
  apply slice_In in Hp. apply P. exact (Permutation_in _ (S acc N) Hp).
Qed.

(** X3 (content_based_filtering, lines 123-133).  Whenever the content
    ranking returns, its list has no product twice, at most [n] products
    for a non-negative [n], and every product in it is the id of a catalog
    row and is not one of the seed products. *)
Theorem content_based_filtering_candidates (rt : Runtime) (self : RecommenderEngine)
  (user_id n : Z) (out : list Z) :
  set_iter_ok rt ->
  snd (content_based_filtering rt self user_id n) = Ok out ->
  NoDup out /\
  (0 <= n -> (length out <= Z.to_nat n)%nat) /\
  (forall p, In p out ->
     In p (catalog_ids self) /\ ~ In p (seed_products self user_id)).
Proof.
  intros S H. split; [|split].
  - destruct (@content_based_filtering_cut _ _ _ _ _ S H) as (acc & -> & N & P).
    apply slice_to_NoDup.
    exact (Permutation_NoDup (Permutation_sym (S acc N)) N).
  - destruct (@content_based_filtering_cut _ _ _ _ _ S H) as (acc & -> & N & P).
    intros Hn. apply slice_to_length, Hn.
  - intros p Hp. exact (@content_based_filtering_In _ _ _ _ _ _ S H Hp).
Qed.

Lemma content_based_filtering_candidates_witness :
  NoDup [1; 3] /\
  (0 <= 5 -> (length [1; 3] <= Z.to_nat 5)%nat) /\
  (forall p, In p [1; 3] ->
     In p (catalog_ids mouse_buyer) /\ ~ In p (seed_products mouse_buyer 7)).
Proof.
  apply (@content_based_filtering_candidates (reference_runtime tfidf_related)
           mouse_buyer 7 5 [1; 3]).
  - apply reference_set_iter_ok.
  - vm_compute. reflexivity.
Defined.

(** ** Hybrid ranking: what is recommended *)

(** X4 (hybrid_recommendations, lines 135-151).  Whenever the hybrid
    ranking returns, its list has no product twice, at most [n] products
    for a non-negative [n], and every product in it is new to the user in
    the sense of one of the two rankings: purchased by someone and not
    rated above zero by the target, or a catalog product that is not a
    seed. *)
Theorem hybrid_recommendations_candidates (rt : Runtime) (self : RecommenderEngine)
  (user_id n : Z) (out : list Z) :
  set_iter_ok rt ->
  snd (hybrid_recommendations rt self user_id n) = Ok out ->
  NoDup out /\
  (0 <= n -> (length out <= Z.to_nat n)%nat) /\
  (forall p, In p out ->
     ((exists v, purchased_by self v p) /\ ~ In p (user_products self user_id)) \/
     (In p (catalog_ids self) /\ ~ In p (seed_products self user_id))).
Proof.
  intros S H. unfold hybrid_recommendations in H.
  destruct (collaborative_filtering rt self user_id n) as [collab|e] eqn:C;
    [|discriminate H].
  destruct (content_based_filtering rt self user_id n) as [self' r] eqn:T.
  cbn [snd] in H. destruct r as [content|e]; [|discriminate H].
  cbn [bind] in H. inversion H; subst. clear H.
  split; [apply hybrid_fuse_NoDup|].
  split; [apply hybrid_fuse_length|].
  intros p Hp. apply hybrid_fuse_In in Hp. destruct Hp as [Hp|Hp].
  - left. exact (@collaborative_filtering_In _ _ _ _ _ _ S C Hp).
  - right. apply (@content_based_filtering_In rt self user_id n content p S);
      [rewrite T; reflexivity|exact Hp].
Qed.

Lemma hybrid_recommendations_candidates_witness :
  NoDup [4] /\
  (0 <= 5 -> (length [4] <= Z.to_nat 5)%nat) /\
  (forall p, In p [4] ->
     ((exists v, purchased_by mat_buyer v p) /\ ~ In p (user_products mat_buyer 99)) \/
     (In p (catalog_ids mat_buyer) /\ ~ In p (seed_products mat_buyer 99))).
Proof.
  apply (@hybrid_recommendations_candidates (reference_runtime tfidf_disjoint)
           mat_buyer 99 5 [4]).
  - apply reference_set_iter_ok.
  - vm_compute. reflexivity.
Defined.

(** ** Product details *)

Lemma map_filter_comm (A B : Type) (f : A -> B) (g : B -> bool) (l : list A) :
  map f (filter (fun x => g (f x)) l) = filter g (map f l).
Proof.
  induction l as [|x l IH]; simpl; [reflexivity|].
  destruct (g (f x)); simpl; rewrite IH; reflexivity.
Qed.

Lemma combine_map_self (A B : Type) (f : A -> B) (l : list A) :
  map (fun pc : A * B => (fst pc, Some (snd pc))) (combine l (map f l)) =
  map (fun p => (p, Some (f p))) l.
Proof.
  induction l as [|p l IH]; [reflexivity|].
  cbn [map combine fst snd]. f_equal. exact IH.
Qed.

Lemma records_record_of (df : ProductsFrame) :
  frame_ok df -> records df = map (record_of df) (rows df).
Proof.
  destruct df as [ps c]. unfold frame_ok, records, record_of. cbn [rows content].
  intros [->| ->]; [reflexivity|]. unfold content_column.
  apply combine_map_self.
Qed.

Lemma records_rows (df : ProductsFrame) :
  frame_ok df -> map fst (records df) = rows df.
Proof.
  intros F. rewrite (@records_record_of df F), map_map. apply map_id.
Qed.

Lemma mem_ext (l l' : list Z) (x : Z) :
  (forall y, In y l <-> In y l') -> mem x l = mem x l'.
Proof.
  intros H. destruct (mem x l') eqn:E.
  - apply mem_In. apply H. apply mem_In, E.
  - apply mem_false. intros I. apply H in I. apply mem_In in I. congruence.
Qed.

Lemma filter_mem_nil (A : Type) (f : A -> Z) (l : list A) :
  filter (fun x => mem (f x) []) l = [].
Proof. induction l as [|x l IH]; simpl; [reflexivity|exact IH]. Qed.

(** The records of the rows whose id is asked for, whatever the list of
    ids is. *)
Lemma product_details_records (self : RecommenderEngine) (product_ids : list Z) :
  frame_ok (products_df self) ->
  get_product_details self product_ids =
  map (record_of (products_df self))
      (filter (fun p => mem (Product.id p) product_ids) (rows (products_df self))).
Proof.
  intros F. unfold get_product_details.
  destruct product_ids as [|i ids].
  - cbn [length Nat.eqb].
    rewrite (@filter_mem_nil Product.t Product.id (rows (products_df self))).
    reflexivity.
  - cbn [length Nat.eqb]. rewrite (@records_record_of _ F).
    symmetry.
    apply (map_filter_comm (record_of (products_df self))
             (fun r : ProductRecord => mem (Product.id (fst r)) (i :: ids))).
Qed.

(** X5 (get_product_details, lines 153-160).  On a non-empty catalog the
    result is the list of the records of the catalog rows whose id is among
    the ids asked for, in catalog order, each with the fields of its row
    (and the ['content'] field when the frame has that column): ids that
    the catalog lacks are dropped, and neither the order of the ids nor
    their repetition changes the result. *)
Theorem product_details_in_catalog_order (self : RecommenderEngine)
  (product_ids : list Z) :
  rows (products_df self) <> [] ->
  frame_ok (products_df self) ->
  get_product_details self product_ids =
    map (record_of (products_df self))
        (filter (fun p => mem (Product.id p) product_ids) (rows (products_df self))) /\
  (forall ids', (forall p, In p product_ids <-> In p ids') ->
     get_product_details self ids' = get_product_details self product_ids).
Proof.
  intros _ F. split; [apply product_details_records, F|].
  intros ids' E. rewrite !(@product_details_records self _ F). f_equal.
  apply filter_ext. intros p. symmetry. apply mem_ext, E.
Qed.

Lemma product_details_in_catalog_order_witness :
  get_product_details mouse_buyer [3; 99; 1; 3] =
    [ (product 1 "Novel" "Books" "novel", None);
      (product 3 "Keyboard" "Electronics" "keyboard", None) ] /\
  get_product_details mouse_buyer [1; 3; 99] = get_product_details mouse_buyer [3; 99; 1; 3].
Proof.
  destruct (@product_details_in_catalog_order mouse_buyer [3; 99; 1; 3]) as [E H].
  - discriminate.
  - left. reflexivity.
  - split; [rewrite E; reflexivity|].
    apply H. simpl. intros p. tauto.
Defined.

(** After the content column has been assigned, every record carries it. *)
Lemma records_assign_content (self : RecommenderEngine) :
  records (products_df (assign_content self)) =
  map (fun p => (p, Some (Product.category p ++ " " ++ Product.description p)%string))
      (rows (products_df self)).
Proof.
  unfold records, assign_content, content_column. simpl.
  induction (rows (products_df self)) as [|p ps IH]; simpl; [reflexivity|].
  rewrite IH. reflexivity.
Qed.

Lemma hybrid_recommendations_assigns (rt : Runtime) (self : RecommenderEngine)
  (user_id n : Z) (collab : list Z) :
  rows (products_df self) <> [] -> interactions_df self <> [] ->
  collaborative_filtering rt self user_id n = Ok collab ->
  fst (hybrid_recommendations rt self user_id n) = assign_content self.
Proof.
  intros Hp Hi C. unfold hybrid_recommendations. rewrite C.
  rewrite content_based_filtering_eq by assumption. reflexivity.
Qed.

(** X6 (content_based_filtering, lines 114-117; hybrid_recommendations,
    line 138; get_product_details, line 160).  A freshly loaded catalog
    gives records without a ['content'] field.  Once a hybrid ranking has
    run on a non-empty catalog and log without the collaborative part
    raising, every record of the product details carries the field, with
    the category and the description of its product joined by a space. *)
Theorem details_after_hybrid_carry_content (rt : Runtime) (self : RecommenderEngine)
  (user_id n : Z) (collab product_ids : list Z) (r : ProductRecord) :
  rows (products_df self) <> [] -> interactions_df self <> [] ->
  content (products_df self) = None ->
  collaborative_filtering rt self user_id n = Ok collab ->
  In r (get_product_details (fst (hybrid_recommendations rt self user_id n)) product_ids) ->
  snd r = Some (Product.category (fst r) ++ " " ++ Product.description (fst r))%string /\
  In (fst r, None) (get_product_details self product_ids).
Proof.
  intros Hp Hi Hc C H.
  rewrite (@hybrid_recommendations_assigns rt self user_id n collab Hp Hi C) in H.
  unfold get_product_details in *.
  destruct (length product_ids =? 0)%nat; [destruct H|].
  apply filter_In in H. destruct H as [H M].
  rewrite records_assign_content in H. apply in_map_iff in H.
  destruct H as (p & <- & Ip). simpl in *. split; [reflexivity|].
  apply filter_In. split; [|exact M].
  unfold records. rewrite Hc. apply in_map_iff. exists p. auto.
Qed.

Lemma details_after_hybrid_carry_content_witness :
  snd (product 4 "Espresso Cup" "Kitchen" "porcelain", Some "Kitchen porcelain"%string) =
    Some (Product.category
            (fst (product 4 "Espresso Cup" "Kitchen" "porcelain",
                  Some "Kitchen porcelain"%string)) ++ " " ++
          Product.description
            (fst (product 4 "Espresso Cup" "Kitchen" "porcelain",
                  Some "Kitchen porcelain"%string)))%string /\
  In (fst (product 4 "Espresso Cup" "Kitchen" "porcelain",
           Some "Kitchen porcelain"%string), None)
     (get_product_details mat_buyer [4]).
Proof.
  apply (@details_after_hybrid_carry_content (reference_runtime tfidf_disjoint)
           mat_buyer 99 5 [] [4]).
  - discriminate.
  - discriminate.
  - reflexivity.
  - vm_compute. reflexivity.
  - vm_compute. left. reflexivity.
Defined.

(** ** Statistics *)

Lemma unique_str_from_NoDup (l acc : list string) :
  NoDup acc ->
  NoDup (fold_left (fun acc x => if existsb (String.eqb x) acc then acc else acc ++ [x])
           l acc).
Proof.
  revert acc. induction l as [|x l IH]; simpl; intros acc N; [exact N|].
  apply IH. destruct (existsb (String.eqb x) acc) eqn:E; [exact N|].
  apply NoDup_app; [exact N|repeat constructor; intros []|].
  intros y Hy [E'|[]]. subst y.
  assert (existsb (String.eqb x) acc = true)
    by (apply existsb_exists; exists x; split; [exact Hy|apply String.eqb_refl]).
  congruence.
Qed.

Lemma unique_str_from_In (l acc : list string) (y : string) :
  In y (fold_left (fun acc x => if existsb (String.eqb x) acc then acc else acc ++ [x])
          l acc) <-> In y acc \/ In y l.
Proof.
  revert acc. induction l as [|x l IH]; simpl; intros acc; [tauto|].
  rewrite IH. destruct (existsb (String.eqb x) acc) eqn:E.
  - apply existsb_exists in E. destruct E as (z & Hz & E).
    apply String.eqb_eq in E. subst z.
    split; [tauto|]. intros [H|[<-|H]]; auto.
  - rewrite in_app_iff. simpl. tauto.
Qed.

Lemma unique_str_NoDup (l : list string) : NoDup (Pd.unique_str l).
Proof. apply unique_str_from_NoDup. constructor. Qed.

Lemma unique_str_In (l : list string) (y : string) : In y (Pd.unique_str l) <-> In y l.
Proof. unfold Pd.unique_str. rewrite unique_str_from_In. simpl. tauto. Qed.

Lemma NoDup_incl_le (A : Type) (l l' : list A) :
  NoDup l -> incl l l' -> (length l <= length l')%nat.
Proof. apply NoDup_incl_length. Qed.

(** X7 (get_statistics, lines 162-189).  With a non-empty catalog and a
    non-empty log: the number of users is at least one and, like the number
    of purchases, at most the number of interactions; the categories are
    those of the catalog products, each listed once, so there are at most
    as many as products.  With an empty log every count is zero, the number
    of products included, whatever the catalog holds. *)
Theorem statistics_counts (self : RecommenderEngine) :
  (rows (products_df self) <> [] -> interactions_df self <> [] ->
   total_products (get_statistics self) = length (rows (products_df self)) /\
   total_interactions (get_statistics self) = length (interactions_df self) /\
   (1 <= total_users (get_statistics self) <= total_interactions (get_statistics self))%nat /\
   (total_purchases (get_statistics self) <= total_interactions (get_statistics self))%nat /\
   NoDup (categories (get_statistics self)) /\
   (forall c, In c (categories (get_statistics self)) <->
              exists p, In p (rows (products_df self)) /\ Product.category p = c) /\
   (length (categories (get_statistics self)) <= total_products (get_statistics self))%nat) /\
  (interactions_df self = [] ->
   total_products (get_statistics self) = 0%nat /\
   total_users (get_statistics self) = 0%nat /\
   total_purchases (get_statistics self) = 0%nat /\
   categories (get_statistics self) = []).
Proof.
  split.
  - intros Hp Hi. unfold get_statistics.
    apply length_zero_cons in Hp, Hi. rewrite Hp, Hi. cbn [orb].
    cbn [total_products total_interactions total_users total_purchases categories].
    split; [reflexivity|]. split; [reflexivity|].
    split; [split|].
    + apply length_zero_cons in Hi.
      destruct (interactions_df self) as [|r rs] eqn:E; [congruence|].
      assert (I : In (Interaction.user_id r)
                    (Pd.unique (map Interaction.user_id (r :: rs))))
        by (apply unique_In; left; reflexivity).
      destruct (Pd.unique (map Interaction.user_id (r :: rs))); [destruct I|simpl; lia].
    + rewrite <- (length_map Interaction.user_id (interactions_df self)).
      apply NoDup_incl_le; [apply unique_NoDup|].
      intros u Hu. exact (proj1 (unique_In _ _) Hu).
    + split; [apply filter_length_le|].
      split; [apply unique_str_NoDup|].
      split.
      * intros c. rewrite unique_str_In, in_map_iff.
        split; intros (p & H1 & H2); exists p; auto.
      * rewrite <- (length_map Product.category (rows (products_df self))).
        apply NoDup_incl_le; [apply unique_str_NoDup|].
        intros c Hc. exact (proj1 (unique_str_In _ _) Hc).
  - intros Hi. unfold get_statistics. rewrite Hi. simpl.
    rewrite orb_true_r. simpl. auto.
Qed.

Lemma statistics_counts_witness :
  total_users (get_statistics mouse_buyer) = 1%nat /\
  total_products (get_statistics (loaded related_catalog [])) = 0%nat.
Proof.
  split.
  - pose proof (proj1 (statistics_counts mouse_buyer)) as H.
    destruct H as (_ & E & [L U] & _); [discriminate|discriminate|].
    rewrite E in U. change (length (interactions_df mouse_buyer)) with 1%nat in U. lia.
  - apply (proj2 (statistics_counts (loaded related_catalog []))). reflexivity.
Defined.

(** ** Seed products *)

Lemma unique_nil (l : list Z) : Pd.unique l = [] -> l = [].
Proof.
  intros H. destruct l as [|x l]; [reflexivity|].
  assert (I : In x (Pd.unique (x :: l))) by (apply unique_In; left; reflexivity).
  rewrite H in I. destruct I.
Qed.

Lemma purchases_In (self : RecommenderEngine) (u p : Z) :
  In p (map Interaction.product_id
          (filter (fun r => (Interaction.user_id r =? u) && is_purchase r)
                  (interactions_df self))) <-> purchased_by self u p.
Proof.
  unfold purchased_by. rewrite in_map_iff. split.
  - intros (r & E & H). apply filter_In in H. destruct H as [H B].
    apply andb_true_iff in B. destruct B as [B1 B2]. apply Z.eqb_eq in B1.
    exists r. auto.
  - intros (r & H & E1 & E2 & E3). exists r. split; [exact E3|].
    apply filter_In. split; [exact H|].
    apply andb_true_iff. split; [apply Z.eqb_eq, E1|exact E2].
Qed.

Lemma views_In (self : RecommenderEngine) (u p : Z) :
  In p (map Interaction.product_id
          (filter (fun r => (Interaction.user_id r =? u) && is_view r)
                  (interactions_df self))) <-> viewed_by self u p.
Proof.
  unfold viewed_by. rewrite in_map_iff. split.
  - intros (r & E & H). apply filter_In in H. destruct H as [H B].
    apply andb_true_iff in B. destruct B as [B1 B2]. apply Z.eqb_eq in B1.
    exists r. auto.
  - intros (r & H & E1 & E2 & E3). exists r. split; [exact E3|].
    apply filter_In. split; [exact H|].
    apply andb_true_iff. split; [apply Z.eqb_eq, E1|exact E2].
Qed.

(** X8 (content_based_filtering, lines 102-112).  The seed products are
    never empty and hold no product twice.  For a user with a purchase they
    are exactly the products that user purchased; for a user with views
    only, at most three products, all viewed by that user; for a user with
    neither, the products 1, 2 and 3. *)
Theorem seed_products_rules (self : RecommenderEngine) (user_id : Z) :
  NoDup (seed_products self user_id) /\
  seed_products self user_id <> [] /\
  ((exists p, purchased_by self user_id p) ->
   forall p, In p (seed_products self user_id) <-> purchased_by self user_id p) /\
  ((forall p, ~ purchased_by self user_id p) ->
   (exists p, viewed_by self user_id p) ->
   (length (seed_products self user_id) <= 3)%nat /\
   forall p, In p (seed_products self user_id) -> viewed_by self user_id p) /\
  ((forall p, ~ purchased_by self user_id p) ->
   (forall p, ~ viewed_by self user_id p) ->
   seed_products self user_id = [1; 2; 3]).
Proof.
  unfold seed_products.
  set (bought := map Interaction.product_id
      (filter (fun r => (Interaction.user_id r =? user_id) && is_purchase r)
              (interactions_df self))).
  set (seen := map Interaction.product_id
      (filter (fun r => (Interaction.user_id r =? user_id) && is_view r)
              (interactions_df self))).
  assert (B : forall p, In p bought <-> purchased_by self user_id p)
    by (intros p; apply purchases_In).
  assert (V : forall p, In p seen <-> viewed_by self user_id p)
    by (intros p; apply views_In).
  destruct (length (Pd.unique bought) =? 0)%nat eqn:Eb.
  - apply length_zero_nil, unique_nil in Eb.
    destruct (0 <? length (Pd.unique seen))%nat eqn:Ev.
    + apply Nat.ltb_lt in Ev.
      split; [apply slice_to_NoDup, unique_NoDup|].
      split.
      { rewrite slice_to_nonneg by lia.
        destruct (Pd.unique seen); [simpl in Ev; lia|discriminate]. }
      split; [intros (p & Hp); apply B in Hp; rewrite Eb in Hp; destruct Hp|].
      split.
      * intros _ _. split.
        { apply (slice_to_length (n := 3)). lia. }
        { intros p Hp. apply slice_In in Hp. apply V. exact (proj1 (unique_In _ _) Hp). }
      * intros _ Hv. exfalso.
        destruct (Pd.unique seen) as [|x l] eqn:E; [simpl in Ev; lia|].
        apply (Hv x), V, unique_In. rewrite E. left. reflexivity.
    + apply Nat.ltb_ge in Ev.
      assert (Es : seen = []).
      { apply unique_nil. destruct (Pd.unique seen); [reflexivity|simpl in Ev; lia]. }
      split; [repeat constructor; simpl; intuition lia|].
      split; [discriminate|].
      split; [intros (p & Hp); apply B in Hp; rewrite Eb in Hp; destruct Hp|].
      split; [|reflexivity].
      intros _ (p & Hp). apply V in Hp. rewrite Es in Hp. destruct Hp.
  - apply length_zero_cons in Eb.
    split; [apply unique_NoDup|]. split; [exact Eb|].
    split; [intros _ p; rewrite unique_In; apply B|].
    assert (X : exists p, purchased_by self user_id p).
    { destruct (Pd.unique bought) as [|x l] eqn:E; [congruence|].
      exists x. apply B, unique_In. rewrite E. left. reflexivity. }
    destruct X as (x & Hx).
    split; intros Hn; exfalso; exact (Hn x Hx).
Qed.

Lemma seed_products_rules_witness :
  In 2 (seed_products mouse_buyer 7) <-> purchased_by mouse_buyer 7 2.
Proof.
  apply (proj1 (proj2 (proj2 (seed_products_rules mouse_buyer 7)))).
  exists 2. exists (purchase 7 2 five). simpl. auto.
Defined.

(** ** Users without purchases *)

(** X9 (collaborative_filtering, lines 52-70).  For a user without a
    purchase row in the log the collaborative ranking returns the empty
    list, whatever the views of that user, the runtime and [n] are. *)
Theorem no_purchase_no_collaborative_ranking (rt : Runtime) (self : RecommenderEngine)
  (user_id n : Z) :
  (forall p, ~ purchased_by self user_id p) ->
  collaborative_filtering rt self user_id n = Ok [].
Proof.
  intros H. apply collaborative_filtering_unknown. intros r Hr Hb E.
  apply (H (Interaction.product_id r)). exists r. auto.
Qed.

Lemma no_purchase_no_collaborative_ranking_witness :
  collaborative_filtering (reference_runtime no_tfidf)
    (loaded [] [purchase 1 3 five; view 5 3; purchase 2 3 five; purchase 2 2 five]) 5 3
  = Ok [].
Proof.
  apply (@no_purchase_no_collaborative_ranking (reference_runtime no_tfidf)
           (loaded [] [purchase 1 3 five; view 5 3; purchase 2 3 five; purchase 2 2 five])
           5 3).
  intros p (r & Hr & E & B & _). simpl in Hr.
  repeat (destruct Hr as [<-|Hr]; [first [discriminate E|discriminate B]|]). destruct Hr.
Defined.

(** ** Explanations *)

Section ExplainerFacts.
Variable str_set_iter : list string -> list string.
Variable float_str : F64.t -> string.

(** The names handed to [_generate_smart_explanation]. *)
Lemma generate_explanation_names (engine : RecommenderEngine) (product : Product.t)
  (user_history : list Interaction.t) :
  generate_explanation str_set_iter float_str engine product user_history =
  _generate_smart_explanation str_set_iter float_str product
    (map Product.name
       (filter (fun q => mem (Product.id q) (purchased_ids user_history))
               (rows (products_df engine)))).
Proof.
  unfold generate_explanation, purchased_ids.
  destruct (map Interaction.product_id (filter is_purchase user_history)) as [|i l];
    [|reflexivity].
  simpl. induction (rows (products_df engine)) as [|q qs IH]; simpl; [reflexivity|].
  exact IH.
Qed.

Lemma no_match_no_category (names : list string) :
  ~ name_matches_keyword names -> matched_categories names = [].
Proof.
  intros H. destruct (matched_categories names) as [|c l] eqn:E; [reflexivity|].
  exfalso. apply H.
  assert (I : In c (matched_categories names)) by (rewrite E; left; reflexivity).
  apply matched_categories_In in I.
  destruct I as (name & keywords & keyword & I).
  exists name, c, keywords, keyword. exact I.
Qed.

(** X10 (generate_explanation, lines 198-211; _generate_smart_explanation,
    lines 213-238).  For purchased names of ASCII characters: when no
    catalog product that the history records as purchased has a keyword of
    the table in its lowercased name (so also
    when the history has no purchase, or only purchases of products that
    the catalog lacks), the explanation is the generic sentence with the
    product's name, rating and category. *)
Theorem explanation_without_match_is_generic (engine : RecommenderEngine)
  (product : Product.t) (user_history : list Interaction.t) :
  forallb isascii
    (map Product.name
       (filter (fun q => mem (Product.id q) (purchased_ids user_history))
               (rows (products_df engine)))) = true ->
  ~ name_matches_keyword
      (map Product.name
         (filter (fun q => mem (Product.id q) (purchased_ids user_history))
                 (rows (products_df engine)))) ->
  generate_explanation str_set_iter float_str engine product user_history =
  ("We think you'll love this " ++ Product.name product ++ "! "
   ++ "It's highly rated (" ++ float_str (Product.rating product) ++ "/5) in the "
   ++ Product.category product ++ " category.")%string.
Proof.
  intros _ H. rewrite generate_explanation_names.
  unfold _generate_smart_explanation.
  rewrite (@no_match_no_category _ H).
  destruct (map Product.name _); reflexivity.
Qed.

Lemma mem_purchased_ext (h h' : list Interaction.t) :
  (forall i, In i (purchased_ids h) <-> In i (purchased_ids h')) ->
  forall q : Product.t,
    mem (Product.id q) (purchased_ids h) = mem (Product.id q) (purchased_ids h').
Proof.
  intros E q. destruct (mem (Product.id q) (purchased_ids h')) eqn:M.
  - apply mem_In, E, mem_In, M.
  - apply mem_false. intros I. apply E, mem_In in I. congruence.
Qed.

(** X11 (generate_explanation, lines 198-211).  The explanation depends on
    the history only through the set of product ids of its purchase rows:
    two histories with the same purchased ids give the same sentence,
    whatever their views, ratings, order and repetitions are. *)
Theorem explanation_depends_on_purchased_set (engine : RecommenderEngine)
  (product : Product.t) (h h' : list Interaction.t) :
  (forall i, In i (purchased_ids h) <-> In i (purchased_ids h')) ->
  generate_explanation str_set_iter float_str engine product h =
  generate_explanation str_set_iter float_str engine product h'.
Proof.
  intros E. rewrite !generate_explanation_names.
  rewrite (filter_ext _ _ (@mem_purchased_ext h h' E)). reflexivity.
Qed.

End ExplainerFacts.

Lemma not_in_keywords (s : string) :
  forallb (fun ck => forallb (fun keyword => negb (contains keyword s)) (snd ck))
          category_keywords = true ->
  forall category keywords keyword,
    In (category, keywords) category_keywords -> In keyword keywords ->
    contains keyword s = true -> False.
Proof.
  intros H category keywords keyword I K C.
  rewrite forallb_forall in H. specialize (H _ I). simpl in H.
  rewrite forallb_forall in H. specialize (H _ K).
  rewrite C in H. discriminate H.
Qed.

Lemma explanation_without_match_is_generic_witness :
  generate_explanation (fun l => l) (fun _ => "5.0"%string) mouse_buyer
    (product 3 "Keyboard" "Electronics" "keyboard") [purchase 7 3 five; view 7 2] =
  ("We think you'll love this " ++ "Keyboard" ++ "! "
   ++ "It's highly rated (" ++ "5.0" ++ "/5) in the "
   ++ "Electronics" ++ " category.")%string.
Proof.
  apply (@explanation_without_match_is_generic (fun l => l) (fun _ => "5.0"%string)
           mouse_buyer (product 3 "Keyboard" "Electronics" "keyboard")
           [purchase 7 3 five; view 7 2]).
  { reflexivity. }
  intros (name & category & keywords & keyword & I & Ic & Ik & C).
  simpl in I. destruct I as [<-|[]].
  apply (@not_in_keywords (lower "Keyboard") (eq_refl true) category keywords keyword Ic Ik C).
Defined.

Lemma explanation_depends_on_purchased_set_witness :
  generate_explanation (fun l => l) (fun _ => "5.0"%string) mouse_buyer
    (product 3 "Keyboard" "Electronics" "keyboard")
    [view 7 1; purchase 7 2 five; purchase 7 2 F64.one] =
  generate_explanation (fun l => l) (fun _ => "5.0"%string) mouse_buyer
    (product 3 "Keyboard" "Electronics" "keyboard") [purchase 7 2 five].
Proof.
  apply (@explanation_depends_on_purchased_set (fun l => l) (fun _ => "5.0"%string)
           mouse_buyer (product 3 "Keyboard" "Electronics" "keyboard")
           [view 7 1; purchase 7 2 five; purchase 7 2 F64.one] [purchase 7 2 five]).
  intros i. simpl. tauto.
Defined.

(** X12 (_generate_smart_explanation, lines 216-229).  For purchased names
    of ASCII characters, the categories of interest are collected without
    repetition, there are at most five, and a category is among them
    exactly when one of its keywords occurs in the lowercased name of a
    purchased product. *)
Theorem matched_categories_distinct (purchased_names : list string) :
  forallb isascii purchased_names = true ->
  NoDup (matched_categories purchased_names) /\
  (length (matched_categories purchased_names) <= 5)%nat /\
  (forall category,
     In category (matched_categories purchased_names) <->
     exists name keywords keyword l r,
       In name purchased_names /\
       In (category, keywords) category_keywords /\
       In keyword keywords /\
       lower name = (l ++ keyword ++ r)%string).
Proof.
  intros _.
  assert (N : NoDup (matched_categories purchased_names))
    by apply matched_categories_NoDup.
  split; [exact N|]. split.
  - change 5%nat with (length (map fst category_keywords)).
    apply NoDup_incl_length; [exact N|].
    intros c Hc. apply matched_categories_In in Hc.
    destruct Hc as (name & keywords & keyword & _ & I & _).
    apply in_map_iff. exists (c, keywords). split; [reflexivity|exact I].
  - intros c. rewrite matched_categories_In. split.
    + intros (name & kws & kw & H1 & H2 & H3 & H4).
      apply contains_split in H4. destruct H4 as (l & r & H4).
      exists name, kws, kw, l, r. auto.
    + intros (name & kws & kw & l & r & H1 & H2 & H3 & H4).
      exists name, kws, kw. repeat split; try assumption.
      apply contains_split. exists l, r. exact H4.
Qed.

Lemma matched_categories_distinct_witness :
  NoDup (matched_categories ["Wireless Mouse"; "Yoga Mat"; "USB Mouse Pad"]%string) /\
  matched_categories ["Wireless Mouse"; "Yoga Mat"; "USB Mouse Pad"]%string =
    ["Electronics"; "Sports & Fitness"]%string.
Proof.
  destruct (@matched_categories_distinct
              ["Wireless Mouse"; "Yoga Mat"; "USB Mouse Pad"]%string) as (N & _).
  - reflexivity.
  - split; [exact N|reflexivity].
Defined.

(** ** The web API *)

Lemma frame_ok_assign_content (self : RecommenderEngine) :
  frame_ok (products_df (assign_content self)).
Proof. right. reflexivity. Qed.

Lemma filter_mem_length (A : Type) (f : A -> Z) (ids : list Z) (l : list A) :
  NoDup ids -> NoDup (map f l) ->
  (length (filter (fun x => mem (f x) ids) l) <= length ids)%nat.
Proof.
  intros Ni Nl.
  rewrite <- (length_map f), (map_filter_comm f (fun i => mem i ids)).
  apply NoDup_incl_length; [apply NoDup_filter, Nl|].
  intros x Hx. apply filter_In in Hx. apply mem_In, Hx.
Qed.

Lemma hybrid_recommendations_shape (rt : Runtime) (self : RecommenderEngine)
  (user_id n : Z) (out : list Z) :
  0 <= n ->
  snd (hybrid_recommendations rt self user_id n) = Ok out ->
  NoDup out /\ (length out <= Z.to_nat n)%nat.
Proof.
  intros Hn H. unfold hybrid_recommendations in H.
  destruct (collaborative_filtering rt self user_id n) as [collab|e];
    [|discriminate H].
  destruct (content_based_filtering rt self user_id n) as [self' r].
  cbn [snd] in H. destruct r as [content|e]; [|discriminate H].
  cbn [bind] in H. inversion H; subst.
  split; [apply hybrid_fuse_NoDup|apply hybrid_fuse_length, Hn].
Qed.

(** With an empty log the hybrid ranking is empty. *)
Lemma hybrid_recommendations_no_log (rt : Runtime) (self : RecommenderEngine)
  (user_id n : Z) :
  interactions_df self = [] ->
  hybrid_recommendations rt self user_id n = (self, Ok []).
Proof.
  intros E. unfold hybrid_recommendations, collaborative_filtering. rewrite E.
  cbn [length Nat.eqb].
  rewrite content_based_filtering_empty by (right; exact E).
  cbn [bind]. rewrite hybrid_fuse_nil. reflexivity.
Qed.

(** The state a hybrid ranking leaves when it returns. *)
Lemma hybrid_ok_state (rt : Runtime) (self s : RecommenderEngine) (user_id n : Z)
  (recs : list Z) :
  hybrid_recommendations rt self user_id n = (s, Ok recs) ->
  s = self /\ (rows (products_df self) = [] \/ recs = []) \/
  s = assign_content self /\
  rows (products_df self) <> [] /\ interactions_df self <> [].
Proof.
  intros H. destruct (interactions_df self) as [|x xs] eqn:Ei.
  - rewrite hybrid_recommendations_no_log in H by exact Ei.
    inversion H; subst. left. auto.
  - unfold hybrid_recommendations in H.
    destruct (collaborative_filtering rt self user_id n) as [collab|e];
      [|inversion H].
    destruct (rows (products_df self)) as [|p ps] eqn:Ep.
    + rewrite content_based_filtering_empty in H by (left; exact Ep).
      inversion H; subst. left. auto.
    + rewrite content_based_filtering_eq in H by congruence.
      inversion H; subst. right. repeat split; congruence.
Qed.

Section RouteFacts.
Variable rt : Runtime.
Variable str_set_iter : list string -> list string.
Variable float_str : F64.t -> string.

(** What the recommendations route hands to [jsonify] for a list of
    recommended ids. *)
Lemma recommendations_of_state (engine s : RecommenderEngine) (user_id : Z)
  (recs : list Z) :
  s = engine /\ (rows (products_df engine) = [] \/ recs = []) \/
  s = assign_content engine ->
  map (fun product : ProductRecord =>
         (product,
          generate_explanation str_set_iter float_str s (fst product)
            (get_user_history s user_id)))
      (get_product_details s recs) =
  map (fun p : Product.t =>
         ((p, Some (Product.category p ++ " " ++ Product.description p)%string),
          generate_explanation str_set_iter float_str engine p
            (get_user_history engine user_id)))
      (filter (fun p => mem (Product.id p) recs) (rows (products_df engine))).
Proof.
  intros [[-> [E|E]]| ->].
  - unfold get_product_details, records. rewrite E.
    destruct (length recs =? 0)%nat; [reflexivity|].
    destruct (content (products_df engine)); reflexivity.
  - subst recs. cbn [get_product_details length Nat.eqb map].
    rewrite (@filter_mem_nil Product.t Product.id (rows (products_df engine))).
    reflexivity.
  - rewrite (@product_details_records (assign_content engine) recs
               (frame_ok_assign_content engine)).
    rewrite map_map. reflexivity.
Qed.

(** X13 (app.py, get_recommendations, lines 43-70).  When the hybrid
    ranking for five products raises, the route answers with that error.
    Otherwise it hands to [jsonify] the user id and, for the catalog rows
    whose id was recommended, in catalog order and not in the order of the
    ranking, the record of the row (its fields and the ['content'] field of
    line 114) with the explanation computed from the user's history;
    [count] is their number, at most five when no two catalog rows share an
    id. *)
Theorem recommendations_route_in_catalog_order (engine : RecommenderEngine)
  (user_id : Z) :
  match snd (hybrid_recommendations rt engine user_id 5) with
  | Raise e =>
      snd (App.get_recommendations rt str_set_iter float_str (Some engine) user_id)
      = App.Error500 e
  | Ok recs =>
      let listed :=
        filter (fun p => mem (Product.id p) recs) (rows (products_df engine)) in
      snd (App.get_recommendations rt str_set_iter float_str (Some engine) user_id)
      = App.Json
          {| App.rec_user_id := user_id;
             App.recommendations :=
               map (fun p : Product.t =>
                      ((p, Some (Product.category p ++ " " ++ Product.description p)%string),
                       generate_explanation str_set_iter float_str engine p
                         (get_user_history engine user_id)))
                   listed;
             App.count := length listed |} /\
      (NoDup (catalog_ids engine) -> (length listed <= 5)%nat)
  end.
Proof.
  unfold App.get_recommendations.
  pose proof (@hybrid_recommendations_shape rt engine user_id 5) as Sh.
  destruct (hybrid_recommendations rt engine user_id 5) as [engine' r] eqn:Hy.
  cbn [fst snd] in *. destruct r as [recs|e]; [|reflexivity].
  cbv zeta. split.
  - assert (R := @recommendations_of_state engine engine' user_id recs).
    assert (H : engine' = engine /\ (rows (products_df engine) = [] \/ recs = []) \/
                engine' = assign_content engine)
      by (destruct (@hybrid_ok_state rt engine engine' user_id 5 recs Hy) as [H|[H _]];
          auto).
    specialize (R H).
    etransitivity;
      [exact (f_equal (fun l => App.Json {| App.rec_user_id := user_id;
                                            App.recommendations := l;
                                            App.count := length l |}) R)|].
    cbv beta. rewrite length_map. reflexivity.
  - intros N. destruct (Sh recs ltac:(lia) eq_refl) as [Nr Lr].
    eapply Nat.le_trans; [apply filter_mem_length; [exact Nr|exact N]|exact Lr].
Qed.

End RouteFacts.

Lemma recommendations_route_in_catalog_order_witness :
  snd (App.get_recommendations (reference_runtime tfidf_related) (fun l => l)
         (fun _ => "5.0"%string) (Some mouse_buyer) 7) =
  App.Json
    {| App.rec_user_id := 7;
       App.recommendations :=
         [ ((product 1 "Novel" "Books" "novel", Some "Books novel"%string),
            ("Based on your interest in Electronics, we recommend this Novel. "
             ++ "It has a 5.0/5 rating and offers excellent value at $5.00.")%string);
           ((product 3 "Keyboard" "Electronics" "keyboard",
             Some "Electronics keyboard"%string),
            ("Based on your interest in Electronics, we recommend this Keyboard. "
             ++ "It has a 5.0/5 rating and offers excellent value at $5.00.")%string) ];
       App.count := 2 |}.
Proof.
  pose proof (@recommendations_route_in_catalog_order
                (reference_runtime tfidf_related) (fun l => l) (fun _ => "5.0"%string)
                mouse_buyer 7) as H.
  assert (E : snd (hybrid_recommendations (reference_runtime tfidf_related) mouse_buyer 7 5)
              = Ok [1; 3]) by (vm_compute; reflexivity).
  rewrite E in H. destruct H as [H _]. rewrite H. reflexivity.
Defined.

Lemma history_purchased_ids (engine : RecommenderEngine) (user_id i : Z) :
  In i (purchased_ids (get_user_history engine user_id)) <->
  purchased_by engine user_id i.
Proof.
  unfold purchased_ids, get_user_history, purchased_by.
  destruct (interactions_df engine) as [|r0 rs] eqn:E.
  - simpl. split; [intros []|intros (r & [] & _)].
  - cbn [length Nat.eqb]. rewrite in_map_iff. split.
    + intros (r & Er & Hr). apply filter_In in Hr. destruct Hr as [Hr Hb].
      apply filter_In in Hr. destruct Hr as [Hr Hu]. apply Z.eqb_eq in Hu.
      exists r. auto.
    + intros (r & Hr & Hu & Hb & Er). exists r. split; [exact Er|].
      apply filter_In. split; [|exact Hb].
      apply filter_In. split; [exact Hr|apply Z.eqb_eq, Hu].
Qed.

Lemma history_route_json (engine : RecommenderEngine) (user_id : Z) :
  frame_ok (products_df engine) ->
  interactions_df engine <> [] ->
  App.get_user_history (Some engine) user_id =
  App.Json
    {| App.hist_user_id := user_id;
       App.purchase_history :=
         map (record_of (products_df engine))
             (filter (fun p => mem (Product.id p)
                                 (purchased_ids (get_user_history engine user_id)))
                     (rows (products_df engine)));
       App.hist_total_purchases :=
         length (filter (fun p => mem (Product.id p)
                                    (purchased_ids (get_user_history engine user_id)))
                        (rows (products_df engine))) |}.
Proof.
  intros F E. unfold App.get_user_history.
  apply length_zero_cons in E. rewrite E.
  fold (purchased_ids (get_user_history engine user_id)).
  rewrite (@product_details_records engine _ F), length_map. reflexivity.
Qed.

(** X14 (app.py, get_user_history, lines 101-119).  With an empty log the
    history route answers with the error of a missing column.  Otherwise it
    hands to [jsonify] the user id and the records (the fields of the row,
    and the ['content'] field when the frame has that column) of the catalog
    rows whose id the user has purchased, in catalog order: a product bought
    several times is listed as often as the catalog has rows with its id
    (once, when no two rows share an id), purchases of products that the
    catalog lacks are left out, and [total_purchases] is the number of
    records listed. *)
Theorem history_route_lists_purchased_catalog_rows (engine : RecommenderEngine)
  (user_id : Z) :
  frame_ok (products_df engine) ->
  (interactions_df engine = [] ->
   App.get_user_history (Some engine) user_id = App.Error500 KeyError) /\
  (interactions_df engine <> [] ->
   let purchased := purchased_ids (get_user_history engine user_id) in
   let listed :=
     filter (fun p => mem (Product.id p) purchased) (rows (products_df engine)) in
   App.get_user_history (Some engine) user_id =
     App.Json {| App.hist_user_id := user_id;
                 App.purchase_history := map (record_of (products_df engine)) listed;
                 App.hist_total_purchases := length listed |} /\
   (forall i, In i purchased <-> purchased_by engine user_id i) /\
   (forall p, In p listed <->
              In p (rows (products_df engine)) /\
              purchased_by engine user_id (Product.id p)) /\
   (NoDup (catalog_ids engine) -> NoDup (map Product.id listed))).
Proof.
  intros F. split.
  - intros E. unfold App.get_user_history. rewrite E. reflexivity.
  - intros E. cbv zeta. split; [apply (@history_route_json engine user_id F E)|].
    split; [|split].
    + intros i. apply history_purchased_ids.
    + intros p. rewrite filter_In, mem_In, history_purchased_ids. reflexivity.
    + intros N.
      rewrite (map_filter_comm Product.id
                 (fun i => mem i (purchased_ids (get_user_history engine user_id)))).
      apply NoDup_filter, N.
Qed.

Lemma history_route_lists_purchased_catalog_rows_witness :
  App.get_user_history (Some (loaded related_catalog [])) 7 = App.Error500 KeyError /\
  App.get_user_history (Some dangling_purchase) 7 =
    App.Json {| App.hist_user_id := 7;
                App.purchase_history :=
                  [(product 2 "Wireless Mouse" "Electronics" "mouse", None)];
                App.hist_total_purchases := 1 |} /\
  App.get_user_history (Some dangling_purchase) 8 =
    App.Json {| App.hist_user_id := 8;
                App.purchase_history := [];
                App.hist_total_purchases := 0 |}.
Proof.
  split; [|split].
  - apply (proj1 (@history_route_lists_purchased_catalog_rows
                    (loaded related_catalog []) 7 (or_introl eq_refl))). reflexivity.
  - destruct (proj2 (@history_route_lists_purchased_catalog_rows dangling_purchase 7
                       (or_introl eq_refl))) as (Hb & _); [discriminate|].
    rewrite Hb. reflexivity.
  - destruct (proj2 (@history_route_lists_purchased_catalog_rows dangling_purchase 8
                       (or_introl eq_refl))) as (Hb & _); [discriminate|].
    rewrite Hb. reflexivity.
Defined.

(** ** A single buyer *)

Lemma NoDup_singleton (l : list Z) (u : Z) :
  NoDup l -> In u l -> (forall x, In x l -> x = u) -> l = [u].
Proof.
  intros N I H. destruct l as [|a l]; [destruct I|].
  assert (a = u) by (apply H; left; reflexivity). subst a.
  destruct l as [|b l]; [reflexivity|].
  assert (b = u) by (apply H; right; left; reflexivity). subst b.
  inversion N as [|? ? N1 N2]. exfalso. apply N1. left. reflexivity.
Qed.

(** X15 (collaborative_filtering, lines 72-95).  When every purchase row of
    the log belongs to the target user, the user has no neighbour and the
    collaborative ranking returns the empty list. *)
Theorem single_buyer_no_collaborative_ranking (rt : Runtime) (self : RecommenderEngine)
  (user_id n : Z) :
  sorts_ok rt ->
  check_array (Pd.values (user_item_matrix self)) = true ->
  (forall v p, purchased_by self v p -> v = user_id) ->
  collaborative_filtering rt self user_id n = Ok [].
Proof.
  intros S C H. unfold collaborative_filtering.
  destruct (length (interactions_df self) =? 0)%nat; [reflexivity|].
  destruct (length (filter is_purchase (interactions_df self)) =? 0)%nat; [reflexivity|].
  fold (user_item_matrix self).
  destruct (mem user_id (Pd.index (user_item_matrix self))) eqn:M; [|reflexivity].
  cbn [negb]. apply mem_In in M.
  pose proof (pivot_table_ok (filter is_purchase (interactions_df self))) as T.
  fold (user_item_matrix self) in T.
  assert (E : Pd.index (user_item_matrix self) = [user_id]).
  { apply NoDup_singleton; [apply (index_NoDup T)|exact M|].
    intros v Hv. apply pivot_index_In in Hv. destruct Hv as (r & Hr & Ev).
    apply filter_In in Hr. destruct Hr as [Hr Hb].
    apply (H v (Interaction.product_id r)). exists r. auto. }
  rewrite (@similar_users_ok rt _ user_id (sort_values_perm S) T C M).
  pose proof (@similarity_series_length rt _ user_id T M) as L.
  rewrite E in L. simpl in L.
  destruct (similarity_series rt (user_item_matrix self) user_id) as [|vs l] eqn:Es;
    [discriminate L|].
  destruct l; [|discriminate L].
  pose proof (sort_values_perm S (map snd [vs])) as P.
  change (seq 0 (length (map snd [vs]))) with [0%nat] in P.
  apply Permutation_sym, Permutation_length_1_inv in P. rewrite P.
  destruct (@loc_ok _ _ T M) as (t & row & _ & _ & Lr). rewrite Lr.
  cbn [bind map]. rewrite slice_1_6. cbn [firstn].
  unfold accumulate_neighbours. cbn [foldM bind].
  change (sorted (@snd Z F64.t) true []) with (@nil (Z * F64.t)).
  rewrite slice_to_nil. reflexivity.
Qed.

Lemma single_buyer_no_collaborative_ranking_witness :
  collaborative_filtering (reference_runtime no_tfidf) mouse_buyer 7 5 = Ok [].
Proof.
  apply (@single_buyer_no_collaborative_ranking (reference_runtime no_tfidf)
           mouse_buyer 7 5).
  - apply reference_sorts_ok.
  - vm_compute. reflexivity.
  - intros v p (r & Hr & E & _). simpl in Hr. destruct Hr as [<-|[]]. symmetry. exact E.
Defined.

(** ** Fusing a single list *)

Section SortedDescending.
Variable A : Type.
Variable key : A -> F64.t.

Lemma insert_last (x : A) (m : list A) :
  (forall y, In y m -> F64.ltb (key x) (key y) = false) ->
  insert key x m = m ++ [x].
Proof.
  induction m as [|y m IH]; simpl; intros H; [reflexivity|].
  rewrite (H y (or_introl eq_refl)). rewrite IH; [reflexivity|].
  intros z Hz. apply H. right. exact Hz.
Qed.

Lemma sort_rev_descending (l : list A) :
  descending key l -> sort_rev key l = rev l.
Proof.
  induction l as [|x l IH]; intros D; [reflexivity|].
  change (sort_rev key (x :: l)) with (insert key x (sort_rev key l)).
  rewrite IH by (intros a b H; apply D, before_cons, H).
  simpl. apply insert_last. intros y Hy. apply in_rev in Hy.
  apply D, before_head, Hy.
Qed.

(** A list that is already in descending order of key is left as it is. *)
Lemma sorted_descending_id (l : list A) :
  descending key l -> sorted key true l = l.
Proof.
  intros D. rewrite sorted_desc_eq, sort_rev_descending by exact D.
  apply rev_involutive.
Qed.

End SortedDescending.

Lemma before_seq (n s i j : nat) :
  before (seq s n) i j -> (s <= i /\ i < j /\ j < s + n)%nat.
Proof.
  revert s. induction n as [|n IH]; intros s H.
  - simpl in H. destruct (before_nil H).
  - simpl in H. apply before_cons_inv in H. destruct H as [[<- H]|H].
    + apply in_seq in H. lia.
    + apply IH in H. lia.
Qed.

(** The scores of up to a hundred positions, for either weight: an earlier
    position never scores below a later one. *)
Lemma score_table :
  forallb (fun w =>
    forallb (fun a =>
      forallb (fun b =>
        negb (F64.ltb (F64.mul (F64.of_Z (Z.of_nat a)) w)
                      (F64.mul (F64.of_Z (Z.of_nat b)) w)))
        (seq 0 (S a)))
      (seq 0 101))
    [F64.lit_0_6; F64.lit_0_4] = true.
Proof. vm_compute. reflexivity. Qed.

Lemma position_score_descends (w : F64.t) (len i j : nat) :
  w = F64.lit_0_6 \/ w = F64.lit_0_4 ->
  (len <= 100)%nat -> (i < j)%nat -> (j < len)%nat ->
  F64.ltb (position_score len i w) (position_score len j w) = false.
Proof.
  intros Hw Hl Hij Hj. unfold position_score.
  replace (Z.of_nat len - Z.of_nat i) with (Z.of_nat (len - i)) by lia.
  replace (Z.of_nat len - Z.of_nat j) with (Z.of_nat (len - j)) by lia.
  pose proof score_table as T. rewrite forallb_forall in T.
  assert (Iw : In w [F64.lit_0_6; F64.lit_0_4])
    by (destruct Hw as [->| ->]; simpl; auto).
  specialize (T w Iw). rewrite forallb_forall in T.
  assert (Ia : In (len - i)%nat (seq 0 101)) by (apply in_seq; lia).
  specialize (T _ Ia). rewrite forallb_forall in T.
  assert (Ib : In (len - j)%nat (seq 0 (S (len - i)))) by (apply in_seq; lia).
  specialize (T _ Ib). apply negb_true_iff in T. exact T.
Qed.

Lemma enumerate_scores_descending (w : F64.t) (l : list Z) :
  w = F64.lit_0_6 \/ w = F64.lit_0_4 ->
  (length l <= 100)%nat ->
  descending (@snd Z F64.t)
    (map (fun ip : nat * Z => (snd ip, position_score (length l) (fst ip) w))
         (enumerate l)).
Proof.
  intros Hw Hl a b H. apply before_map_inv in H.
  destruct H as (ip & jp & <- & <- & H). cbn [snd].
  apply (before_map fst) in H. unfold enumerate in H.
  rewrite map_fst_combine in H by (rewrite length_seq; reflexivity).
  apply before_seq in H.
  apply position_score_descends; try assumption; lia.
Qed.

Lemma content_fold_fresh (g : nat * Z -> F64.t) (ips : list (nat * Z)) (d : dict F64.t) :
  NoDup (map snd ips) ->
  (forall ip, In ip ips -> ~ In (snd ip) (map fst d)) ->
  fold_left (content_step g) ips d = d ++ map (fun ip => (snd ip, g ip)) ips.
Proof.
  revert d. induction ips as [|ip ips IH]; intros d N F.
  - simpl. symmetry. apply app_nil_r.
  - cbn [fold_left map]. inversion N as [|? ? N1 N2]; subst.
    assert (E : content_step g d ip = d ++ [(snd ip, g ip)]).
    { unfold content_step.
      assert (G : dict_get (snd ip) d = None)
        by (apply dict_get_None, F; left; reflexivity).
      rewrite G. apply dict_set_absent, G. }
    rewrite E, IH; [rewrite <- app_assoc; reflexivity|exact N2|].
    intros jp Hj. rewrite map_app, in_app_iff. simpl. intros [H|[H|[]]].
    + exact (F jp (or_intror Hj) H).
    + apply N1. rewrite H. apply in_map, Hj.
Qed.

Lemma hybrid_scores_content_only (content : list Z) :
  NoDup content ->
  hybrid_scores [] content =
  map (fun ip : nat * Z => (snd ip, position_score (length content) (fst ip) F64.lit_0_4))
      (enumerate content).
Proof.
  intros N. unfold hybrid_scores, score_content.
  change (fun (all_recs : dict F64.t) (ip : nat * Z) => _)
    with (content_step (fun ip => position_score (length content) (fst ip) F64.lit_0_4)).
  change (score_collab []) with (@nil (Z * F64.t)).
  rewrite content_fold_fresh; [reflexivity|rewrite enumerate_snd; exact N|].
  intros ip _ [].
Qed.

Lemma hybrid_scores_collab_only (collab : list Z) :
  NoDup collab ->
  hybrid_scores collab [] =
  map (fun ip : nat * Z => (snd ip, position_score (length collab) (fst ip) F64.lit_0_6))
      (enumerate collab).
Proof.
  intros N. unfold hybrid_scores, score_content. simpl. apply score_collab_eq, N.
Qed.

Lemma map_fst_scores (w : F64.t) (l : list Z) :
  map fst (map (fun ip : nat * Z => (snd ip, position_score (length l) (fst ip) w))
               (enumerate l)) = l.
Proof. rewrite map_map. simpl. apply enumerate_snd. Qed.

Lemma hybrid_fuse_content_only (content : list Z) (n : Z) :
  NoDup content -> (length content <= 100)%nat ->
  hybrid_fuse [] content n = slice_to n content.
Proof.
  intros N L. rewrite hybrid_fuse_keys, hybrid_scores_content_only by exact N.
  rewrite sorted_descending_id
    by (apply enumerate_scores_descending; [right; reflexivity|exact L]).
  rewrite map_fst_scores. reflexivity.
Qed.

Lemma hybrid_fuse_collab_only (collab : list Z) (n : Z) :
  NoDup collab -> (length collab <= 100)%nat ->
  hybrid_fuse collab [] n = slice_to n collab.
Proof.
  intros N L. rewrite hybrid_fuse_keys, hybrid_scores_collab_only by exact N.
  rewrite sorted_descending_id
    by (apply enumerate_scores_descending; [left; reflexivity|exact L]).
  rewrite map_fst_scores. reflexivity.
Qed.

(** X16 (hybrid_recommendations, lines 140-151).  Fusing a duplicate-free
    list of at most a hundred products with an empty list gives that list
    back, in its order, cut to the first [n]: the scores of one list alone
    never put a later product before an earlier one. *)
Theorem hybrid_fuse_single_source (l : list Z) (n : Z) :
  NoDup l -> (length l <= 100)%nat ->
  hybrid_fuse l [] n = slice_to n l /\ hybrid_fuse [] l n = slice_to n l.
Proof.
  intros N L. split; [apply hybrid_fuse_collab_only|apply hybrid_fuse_content_only];
    assumption.
Qed.

Lemma hybrid_fuse_single_source_witness :
  hybrid_fuse [9; 5; 2; 6] [] 3 = slice_to 3 [9; 5; 2; 6] /\
  hybrid_fuse [] [9; 5; 2; 6] 3 = slice_to 3 [9; 5; 2; 6].
Proof.
  apply (@hybrid_fuse_single_source [9; 5; 2; 6] 3).
  - repeat constructor; simpl; intuition lia.
  - simpl. lia.
Defined.

(** X17 (hybrid_recommendations, lines 135-151).  For a user without a
    purchase row and up to a hundred requested products, the hybrid ranking
    is the content ranking: the same list or the same error, and the same
    state of the engine. *)
Theorem hybrid_without_purchases_is_content (rt : Runtime) (self : RecommenderEngine)
  (user_id n : Z) :
  set_iter_ok rt ->
  0 <= n <= 100 ->
  (forall p, ~ purchased_by self user_id p) ->
  hybrid_recommendations rt self user_id n = content_based_filtering rt self user_id n.
Proof.
  intros S Hn H.
  assert (C : collaborative_filtering rt self user_id n = Ok []).
  { apply collaborative_filtering_unknown. intros r Hr Hb E.
    apply (H (Interaction.product_id r)). exists r. auto. }
  unfold hybrid_recommendations. rewrite C.
  pose proof (@content_based_filtering_cut rt self user_id n) as Cut.
  destruct (content_based_filtering rt self user_id n) as [self' r].
  cbn [snd] in Cut. destruct r as [content|e]; [|reflexivity].
  cbn [bind]. destruct (Cut content S eq_refl) as (acc & E & N & _).
  assert (Nc : NoDup content).
  { rewrite E. apply slice_to_NoDup.
    exact (Permutation_NoDup (Permutation_sym (S acc N)) N). }
  assert (Lc : (length content <= Z.to_nat n)%nat)
    by (rewrite E; apply slice_to_length; lia).
  rewrite hybrid_fuse_content_only by (try exact Nc; lia).
  rewrite slice_to_all by lia. reflexivity.
Qed.

Lemma hybrid_without_purchases_is_content_witness :
  hybrid_recommendations (reference_runtime tfidf_disjoint) mat_buyer 99 5 =
  content_based_filtering (reference_runtime tfidf_disjoint) mat_buyer 99 5.
Proof.
  apply (@hybrid_without_purchases_is_content (reference_runtime tfidf_disjoint)
           mat_buyer 99 5).
  - apply reference_set_iter_ok.
  - lia.
  - intros p (r & Hr & E & _). simpl in Hr. destruct Hr as [<-|[]]. discriminate E.
Defined.

(** ** What the rankings read *)

(** X18 (collaborative_filtering, lines 52-62).  The collaborative ranking
    reads the purchase rows of the log and nothing else: two engines with
    the same purchase rows give the same result, whatever their catalogs
    and their other interaction rows are.  *)
Theorem collaborative_filtering_reads_purchases_only (rt : Runtime)
  (a b : RecommenderEngine) (user_id n : Z) :
  filter is_purchase (interactions_df a) = filter is_purchase (interactions_df b) ->
  collaborative_filtering rt a user_id n = collaborative_filtering rt b user_id n.
Proof.
  intros E. unfold collaborative_filtering. rewrite <- E.
  destruct (length (filter is_purchase (interactions_df a)) =? 0)%nat eqn:P.
  - destruct (length (interactions_df a) =? 0)%nat,
             (length (interactions_df b) =? 0)%nat; reflexivity.
  - apply length_zero_cons in P.
    assert (Na : (length (interactions_df a) =? 0)%nat = false).
    { apply length_zero_cons. intros Z. apply P. rewrite Z. reflexivity. }
    assert (Nb : (length (interactions_df b) =? 0)%nat = false).
    { apply length_zero_cons. intros Z. apply P. rewrite E, Z. reflexivity. }
    rewrite Na, Nb. reflexivity.
Qed.

Lemma collaborative_filtering_reads_purchases_only_witness :
  collaborative_filtering (reference_runtime no_tfidf) two_buyers 1 5 =
  collaborative_filtering (reference_runtime no_tfidf)
    (loaded related_catalog
       [view 1 9; purchase 1 3 five; purchase 2 3 five; view 3 3; purchase 2 2 five;
        purchase 2 9 five]) 1 5.
Proof.
  apply (@collaborative_filtering_reads_purchases_only (reference_runtime no_tfidf)
           two_buyers
           (loaded related_catalog
              [view 1 9; purchase 1 3 five; purchase 2 3 five; view 3 3;
               purchase 2 2 five; purchase 2 9 five]) 1 5).
  reflexivity.
Defined.

(** ** The content column and later calls *)

Lemma content_on_assigned (rt : Runtime) (self : RecommenderEngine) (user_id n : Z) :
  snd (content_based_filtering rt (assign_content self) user_id n) =
  snd (content_based_filtering rt self user_id n).
Proof.
  unfold content_based_filtering. cbn [assign_content products_df rows interactions_df].
  destruct ((length (rows (products_df self)) =? 0)%nat
            || (length (interactions_df self) =? 0)%nat); reflexivity.
Qed.

Lemma content_state_on_assigned (rt : Runtime) (self : RecommenderEngine) (user_id n : Z) :
  fst (content_based_filtering rt (assign_content self) user_id n) = assign_content self.
Proof.
  unfold content_based_filtering. cbn [assign_content products_df rows interactions_df].
  destruct ((length (rows (products_df self)) =? 0)%nat
            || (length (interactions_df self) =? 0)%nat); reflexivity.
Qed.

Lemma hybrid_on_assigned (rt : Runtime) (self : RecommenderEngine) (user_id n : Z) :
  hybrid_recommendations rt (assign_content self) user_id n =
  (assign_content self, snd (hybrid_recommendations rt self user_id n)).
Proof.
  unfold hybrid_recommendations.
  change (collaborative_filtering rt (assign_content self) user_id n)
    with (collaborative_filtering rt self user_id n).
  destruct (collaborative_filtering rt self user_id n) as [collab|e]; [|reflexivity].
  pose proof (content_on_assigned rt self user_id n) as R.
  pose proof (content_state_on_assigned rt self user_id n) as St.
  destruct (content_based_filtering rt (assign_content self) user_id n) as [s1 r1].
  destruct (content_based_filtering rt self user_id n) as [s2 r2].
  cbn [fst snd] in *. subst. reflexivity.
Qed.

(** X19 (content_based_filtering, lines 114-117).  The column that a
    content ranking leaves on the catalog changes no later result: on the
    engine with the column the three rankings, the explanation and the
    statistics are what they are on the engine without it, and a further
    content or hybrid ranking leaves that engine as it is. *)
Theorem rankings_unaffected_by_content_column (rt : Runtime)
  (str_set_iter : list string -> list string) (float_str : F64.t -> string)
  (self : RecommenderEngine) (user_id n : Z) :
  collaborative_filtering rt (assign_content self) user_id n =
    collaborative_filtering rt self user_id n /\
  content_based_filtering rt (assign_content self) user_id n =
    (assign_content self, snd (content_based_filtering rt self user_id n)) /\
  hybrid_recommendations rt (assign_content self) user_id n =
    (assign_content self, snd (hybrid_recommendations rt self user_id n)) /\
  (forall product user_history,
     generate_explanation str_set_iter float_str (assign_content self) product user_history =
     generate_explanation str_set_iter float_str self product user_history) /\
  get_statistics (assign_content self) = get_statistics self.
Proof.
  split; [reflexivity|]. split.
  - pose proof (content_on_assigned rt self user_id n) as R.
    pose proof (content_state_on_assigned rt self user_id n) as St.
    destruct (content_based_filtering rt (assign_content self) user_id n) as [s1 r1].
    cbn [fst snd] in R, St. rewrite R, St. reflexivity.
  - split; [apply hybrid_on_assigned|]. split; reflexivity.
Qed.

(** The state a hybrid ranking leaves. *)
Lemma hybrid_state_cases (rt : Runtime) (self : RecommenderEngine) (user_id n : Z) :
  fst (hybrid_recommendations rt self user_id n) = self \/
  fst (hybrid_recommendations rt self user_id n) = assign_content self /\
  rows (products_df self) <> [] /\ interactions_df self <> [].
Proof.
  unfold hybrid_recommendations.
  destruct (collaborative_filtering rt self user_id n) as [collab|e]; [|left; reflexivity].
  unfold content_based_filtering.
  destruct (length (rows (products_df self)) =? 0)%nat eqn:P; [left; reflexivity|].
  destruct (length (interactions_df self) =? 0)%nat eqn:I; [left; reflexivity|].
  right. apply length_zero_cons in P, I. cbn [orb fst]. auto.
Qed.

Section RouteState.
Variable rt : Runtime.
Variable str_set_iter : list string -> list string.
Variable float_str : F64.t -> string.

Lemma route_on_assigned (self : RecommenderEngine) (user_id : Z) :
  rows (products_df self) <> [] -> interactions_df self <> [] ->
  snd (App.get_recommendations rt str_set_iter float_str (Some (assign_content self)) user_id) =
  snd (App.get_recommendations rt str_set_iter float_str (Some self) user_id).
Proof.
  intros P I. unfold App.get_recommendations.
  rewrite hybrid_on_assigned.
  unfold hybrid_recommendations.
  destruct (collaborative_filtering rt self user_id 5) as [collab|e]; [|reflexivity].
  rewrite content_based_filtering_eq by assumption. cbn [snd].
  destruct (acc <- accumulation_order rt self user_id ;; Ok (slice_to 5 (set_iter rt acc)))
    as [content|e]; reflexivity.
Qed.

(** X20 (app.py, get_recommendations, lines 43-70, and get_user_history,
    lines 101-119, with the module-level engine of lines 19-28).  A
    recommendations request leaves the shared engine either as it was or
    with the content column assigned.  From that state a later
    recommendations request gets the response it would have got from the
    engine as it was before; a later history request gets the same
    response too, except that, once the column is assigned, each record
    listed carries the ['content'] field, the category and the description
    of its product joined by a space. *)
Theorem recommendations_route_ignores_earlier_requests (engine : RecommenderEngine)
  (earlier user_id : Z) :
  frame_ok (products_df engine) ->
  exists s,
    fst (App.get_recommendations rt str_set_iter float_str (Some engine) earlier) = Some s /\
    snd (App.get_recommendations rt str_set_iter float_str (Some s) user_id) =
      snd (App.get_recommendations rt str_set_iter float_str (Some engine) user_id) /\
    (s = engine \/
     s = assign_content engine /\
     rows (products_df engine) <> [] /\ interactions_df engine <> [] /\
     exists body,
       App.get_user_history (Some engine) user_id = App.Json body /\
       App.get_user_history (Some s) user_id =
         App.Json
           {| App.hist_user_id := App.hist_user_id body;
              App.purchase_history :=
                map (fun r : ProductRecord =>
                       (fst r,
                        Some (Product.category (fst r) ++ " "
                              ++ Product.description (fst r))%string))
                    (App.purchase_history body);
              App.hist_total_purchases := App.hist_total_purchases body |}).
Proof.
  intros F.
  exists (fst (hybrid_recommendations rt engine earlier 5)).
  split.
  { unfold App.get_recommendations.
    destruct (hybrid_recommendations rt engine earlier 5) as [s r].
    destruct r; reflexivity. }
  destruct (hybrid_state_cases rt engine earlier 5) as [->|(-> & P & I)].
  - split; [reflexivity|left; reflexivity].
  - split; [apply route_on_assigned; assumption|].
    right. split; [reflexivity|]. split; [exact P|]. split; [exact I|].
    eexists. split; [apply (@history_route_json engine user_id F I)|].
    rewrite (@history_route_json (assign_content engine) user_id
               (frame_ok_assign_content engine) I).
    cbn [App.hist_user_id App.purchase_history App.hist_total_purchases].
    rewrite map_map. reflexivity.
Qed.

End RouteState.

Lemma recommendations_route_ignores_earlier_requests_witness :
  exists s,
    fst (App.get_recommendations (reference_runtime tfidf_related) (fun l => l)
           (fun _ => "5.0"%string) (Some mouse_buyer) 99) = Some s /\
    App.get_user_history (Some mouse_buyer) 7 =
      App.Json {| App.hist_user_id := 7;
                  App.purchase_history :=
                    [(product 2 "Wireless Mouse" "Electronics" "mouse", None)];
                  App.hist_total_purchases := 1 |} /\
    App.get_user_history (Some s) 7 =
      App.Json {| App.hist_user_id := 7;
                  App.purchase_history :=
                    [(product 2 "Wireless Mouse" "Electronics" "mouse",
                      Some "Electronics mouse"%string)];
                  App.hist_total_purchases := 1 |}.
Proof.
  destruct (@recommendations_route_ignores_earlier_requests
              (reference_runtime tfidf_related) (fun l => l) (fun _ => "5.0"%string)
              mouse_buyer 99 7 (or_introl eq_refl)) as (s & Hs & _ & H).
  exists s. split; [exact Hs|]. split; [reflexivity|].
  destruct H as [->|(-> & _)]; [|reflexivity].
  vm_compute in Hs. discriminate Hs.
Defined.

(** ** A seed outside the similarity matrix *)

Lemma index_out_of_range (A : Type) (l : list A) (i : Z) :
  ~ (- Z.of_nat (length l) <= i < Z.of_nat (length l)) ->
  index l i = Raise IndexError.
Proof.
  intros H. unfold index.
  destruct (i <? 0) eqn:N;
    [apply Z.ltb_lt in N|apply Z.ltb_ge in N].
  - destruct (0 <=? i + Z.of_nat (length l)) eqn:E; [|reflexivity].
    apply Z.leb_le in E. exfalso. apply H. lia.
  - destruct (i <? Z.of_nat (length l)) eqn:E;
      [|rewrite andb_false_r; reflexivity].
    apply Z.ltb_lt in E. exfalso. apply H. lia.
Qed.

Lemma index_raises_IndexError (A : Type) (l : list A) (i : Z) (e : exn) :
  index l i = Raise e -> e = IndexError.
Proof.
  unfold index. destruct (_ && _).
  - destruct (nth_error l _); simpl; intros H; [discriminate H|congruence].
  - congruence.
Qed.

Lemma mapM_raises (A B : Type) (f : A -> result B) (E : exn) (l : list A) (e : exn) :
  (forall x e', In x l -> f x = Raise e' -> e' = E) ->
  mapM f l = Raise e -> e = E.
Proof.
  induction l as [|x l IH]; simpl; intros H R; [discriminate R|].
  destruct (f x) as [y|e'] eqn:F.
  - cbn [bind] in R. destruct (mapM f l) as [ys|e''] eqn:M; [discriminate R|].
    cbn [bind] in R. injection R as <-. apply IH; [|reflexivity].
    intros z e2 Hz. apply H. right. exact Hz.
  - cbn [bind] in R. injection R as <-. apply (H x e'); [left; reflexivity|exact F].
Qed.

Lemma mapM_raise_In (A B : Type) (f : A -> result B) (E : exn) (l : list A) (x : A) :
  (forall y e', In y l -> f y = Raise e' -> e' = E) ->
  In x l -> f x = Raise E -> mapM f l = Raise E.
Proof.
  intros H I F. destruct (mapM f l) as [ys|e] eqn:M.
  - destruct (@mapM_In_ok _ _ f l ys x M I) as (y & Fy & _). congruence.
  - f_equal. exact (@mapM_raises _ _ f E l e H M).
Qed.

Lemma candidates_raise_IndexError (rt : Runtime) (ps : list Product.t) (sim : Matrix)
  (seed : Z) (e : exn) :
  candidates_of_seed rt ps sim seed = Raise e -> e = IndexError.
Proof.
  unfold candidates_of_seed. destruct (index sim (seed - 1)) as [row|e'] eqn:I.
  - cbn [bind]. apply mapM_raises. intros idx e' _.
    destruct (nth_error ps idx); simpl; congruence.
  - cbn [bind]. intros [= <-]. exact (@index_raises_IndexError _ _ _ _ I).
Qed.

(** X21 (content_based_filtering, lines 123-126).  When the vectorizer
    gives one finite row per catalog product and some seed product [s] has
    [s - 1] outside the positions [-N .. N-1] of the matrix of an [N]-row
    catalog, the content ranking raises [IndexError], and so does the
    hybrid ranking whenever its collaborative part returns: so it is with
    the default seed 3 of a user without history on a catalog of two
    products. *)
Theorem content_ranking_seed_out_of_range (rt : Runtime) (self : RecommenderEngine)
  (user_id n : Z) (tm : Matrix) (s : Z) :
  rows (products_df self) <> [] -> interactions_df self <> [] ->
  tfidf rt (content_column (rows (products_df self))) = Some tm ->
  length tm = length (rows (products_df self)) ->
  check_array tm = true ->
  In s (seed_products self user_id) ->
  ~ seed_in_range (length (rows (products_df self))) s ->
  snd (content_based_filtering rt self user_id n) = Raise IndexError /\
  (forall collab, collaborative_filtering rt self user_id n = Ok collab ->
     snd (hybrid_recommendations rt self user_id n) = Raise IndexError).
Proof.
  intros P I T L C Hs Hr.
  assert (R : snd (content_based_filtering rt self user_id n) = Raise IndexError).
  { rewrite content_based_filtering_eq by assumption. cbn [snd].
    unfold accumulation_order. rewrite (@content_matrix_ok rt self tm T C). cbn [bind].
    set (sim := map (fun x => map (fun y => cosine rt x y) tm) tm).
    assert (M : mapM (candidates_of_seed rt (rows (products_df self)) sim)
                  (seed_products self user_id) = Raise IndexError).
    { apply (@mapM_raise_In _ _ _ IndexError _ s).
      - intros y e' _. apply candidates_raise_IndexError.
      - exact Hs.
      - unfold candidates_of_seed. rewrite index_out_of_range; [reflexivity|].
        unfold sim. rewrite length_map, L. exact Hr. }
    rewrite M. reflexivity. }
  split; [exact R|].
  intros collab Hc. unfold hybrid_recommendations. rewrite Hc.
  destruct (content_based_filtering rt self user_id n) as [self' r].
  cbn [snd] in *. rewrite R. reflexivity.
Qed.

Lemma content_ranking_seed_out_of_range_witness :
  snd (content_based_filtering
         (reference_runtime (fun _ => Some [[F64.one; F64.zero]; [F64.zero; F64.one]]))
         (loaded [product 1 "Novel" "Books" "paperback";
                  product 2 "Wireless Mouse" "Electronics" "ergonomic"]
                 [purchase 7 1 five]) 99 5) = Raise IndexError /\
  (forall collab,
     collaborative_filtering
       (reference_runtime (fun _ => Some [[F64.one; F64.zero]; [F64.zero; F64.one]]))
       (loaded [product 1 "Novel" "Books" "paperback";
                product 2 "Wireless Mouse" "Electronics" "ergonomic"]
               [purchase 7 1 five]) 99 5 = Ok collab ->
     snd (hybrid_recommendations
            (reference_runtime (fun _ => Some [[F64.one; F64.zero]; [F64.zero; F64.one]]))
            (loaded [product 1 "Novel" "Books" "paperback";
                     product 2 "Wireless Mouse" "Electronics" "ergonomic"]
                    [purchase 7 1 five]) 99 5) = Raise IndexError).
Proof.
  apply (@content_ranking_seed_out_of_range
           (reference_runtime (fun _ => Some [[F64.one; F64.zero]; [F64.zero; F64.one]]))
           (loaded [product 1 "Novel" "Books" "paperback";
                    product 2 "Wireless Mouse" "Electronics" "ergonomic"]
                   [purchase 7 1 five]) 99 5
           [[F64.one; F64.zero]; [F64.zero; F64.one]] 3).
  - discriminate.
  - discriminate.
  - reflexivity.
  - reflexivity.
  - vm_compute. reflexivity.
  - vm_compute. auto.
  - unfold seed_in_range. simpl. lia.
Defined.

(** ** Collaborative filtering: every new product of a neighbour *)

Lemma accumulate_keys_iff (rt : Runtime) (pt : Pd.PivotTable) (up : pyset)
  (nb : list (Z * F64.t)) (d w : dict F64.t) :
  set_iter_ok rt ->
  foldM (fun recommendations us =>
      let '(similar_user_id, similarity_score) := us in
      row <- Pd.loc pt similar_user_id ;;
      let similar_user_products := rated_products (Pd.columns pt) row in
      let new_products := set_difference rt similar_user_products up in
      foldM (fun recommendations product_id =>
          let recommendations :=
            if negb (dict_mem product_id recommendations)
            then dict_set product_id F64.zero recommendations
            else recommendations in
          dict_iadd product_id similarity_score recommendations)
        (set_iter rt new_products) recommendations) nb d = Ok w ->
  forall p,
    In p (map fst w) <->
    In p (map fst d) \/
    exists v s row, In (v, s) nb /\ Pd.loc pt v = Ok row /\
                    In p (rated_products (Pd.columns pt) row) /\ ~ In p up.
Proof.
  intros S. revert d. induction nb as [|[v s] nb IH]; intros d H p.
  - simpl in H. injection H as <-. split; [auto|].
    intros [H|(v & s & row & [] & _)]. exact H.
  - cbn [foldM] in H. destruct (Pd.loc pt v) as [row|e] eqn:Lv; [|discriminate H].
    cbn [bind] in H. rewrite inner_loop in H. cbn [bind] in H.
    rewrite (IH _ H p), fold_bump_In.
    assert (N : NoDup (rated_products (Pd.columns pt) row))
      by (unfold rated_products; apply set_of_list_NoDup).
    assert (X : In p (set_iter rt (set_difference rt (rated_products (Pd.columns pt) row) up))
                <-> In p (rated_products (Pd.columns pt) row) /\ ~ In p up).
    { assert (Nd : NoDup (set_difference rt (rated_products (Pd.columns pt) row) up))
        by (unfold set_difference; apply set_of_list_NoDup).
      rewrite (@set_iter_In rt _ p S Nd).
      apply (@set_difference_In rt _ up p S N). }
    rewrite X. split.
    + intros [[Hd|[Hr Hu]]|(v' & s' & row' & Hn & Hl & Hr & Hu)].
      * left. exact Hd.
      * right. exists v, s, row. simpl. auto.
      * right. exists v', s', row'. simpl. auto.
    + intros [Hd|(v' & s' & row' & [Hn|Hn] & Hl & Hr & Hu)].
      * left. left. exact Hd.
      * injection Hn as <- <-. rewrite Lv in Hl. injection Hl as <-.
        left. right. auto.
      * right. exists v', s', row'. auto.
Qed.

Lemma position_In (x : Z) (l : list Z) (t : nat) :
  Pd.position x l = Some t -> In x l.
Proof.
  intros H. destruct (in_dec Z.eq_dec x l) as [I|I]; [exact I|].
  apply position_None in I. congruence.
Qed.

Lemma similar_users_target (rt : Runtime) (pt : Pd.PivotTable) (u : Z)
  (nb : list (Z * F64.t)) :
  similar_users rt pt u = Ok nb -> In u (Pd.index pt).
Proof.
  unfold similar_users.
  destruct (cosine_similarity rt (Pd.values pt) (Pd.values pt)); [|discriminate].
  cbn [bind]. destruct (Pd.position u (Pd.index pt)) as [t|] eqn:E; [|discriminate].
  intros _. exact (@position_In _ _ _ E).
Qed.

(** X22 (collaborative_filtering, lines 82-95).  When [n] is at least the
    number of products of the purchase matrix, the collaborative ranking
    returns exactly the products that some neighbour has rated above zero
    and the target has not: each of them is recommended, whatever the
    similarity of that neighbour is. *)
Theorem collaborative_filtering_all_new_products (rt : Runtime)
  (self : RecommenderEngine) (user_id n : Z) (out : list Z) (nb : list (Z * F64.t)) :
  set_iter_ok rt ->
  collaborative_filtering rt self user_id n = Ok out ->
  similar_users rt (user_item_matrix self) user_id = Ok nb ->
  Z.of_nat (length (Pd.columns (user_item_matrix self))) <= n ->
  forall p,
    In p out <->
    exists v s row,
      In (v, s) nb /\
      Pd.loc (user_item_matrix self) v = Ok row /\
      In p (rated_products (Pd.columns (user_item_matrix self)) row) /\
      ~ In p (user_products self user_id).
Proof.
  intros S H Hn Hl p.
  pose proof (@similar_users_target _ _ _ _ Hn) as Iu.
  assert (Ip : filter is_purchase (interactions_df self) <> []).
  { intros E. unfold user_item_matrix in Iu. rewrite E in Iu. destruct Iu. }
  assert (Ii : interactions_df self <> []).
  { intros E. apply Ip. rewrite E. reflexivity. }
  unfold collaborative_filtering in H.
  apply length_zero_cons in Ip, Ii. rewrite Ii, Ip in H.
  fold (user_item_matrix self) in H.
  rewrite (proj2 (mem_In _ _) Iu) in H. cbn [negb] in H.
  rewrite Hn in H. cbn [bind] in H. unfold user_products.
  destruct (Pd.loc (user_item_matrix self) user_id) as [row|e]; [|discriminate H].
  cbn [bind] in H.
  destruct (accumulate_neighbours rt (user_item_matrix self)
              (rated_products (Pd.columns (user_item_matrix self)) row) nb)
    as [w|e] eqn:A; [|discriminate H].
  cbn [bind] in H. inversion H; subst. clear H.
  unfold accumulate_neighbours in A.
  pose proof (@accumulate_keys_iff _ _ _ _ _ _ S A) as K.
  destruct (@accumulate_keys _ _ _ _ _ _ S A) as [N Pk]; [constructor|intros q []|].
  change (rev (sort_asc (@snd Z F64.t) (rev w))) with (sorted (@snd Z F64.t) true w).
  rewrite <- slice_to_map.
  assert (Lw : (length (map fst w) <= length (Pd.columns (user_item_matrix self)))%nat).
  { apply NoDup_incl_length; [exact N|]. intros q Hq. apply Pk, Hq. }
  rewrite slice_to_all
    by (rewrite (Permutation_length (sorted_keys_perm w)); lia).
  split.
  - intros Hp. apply (Permutation_in _ (sorted_keys_perm w)) in Hp.
    apply K in Hp. destruct Hp as [[]|Hp]. exact Hp.
  - intros Hp. apply (Permutation_in _ (Permutation_sym (sorted_keys_perm w))).
    apply K. right. exact Hp.
Qed.

Lemma collaborative_filtering_all_new_products_witness :
  In 9 [9; 2] <->
  exists v s row,
    In (v, s) [(2, Reference.cosine [five; five; five] [F64.zero; five; F64.zero])] /\
    Pd.loc (user_item_matrix two_buyers) v = Ok row /\
    In 9 (rated_products (Pd.columns (user_item_matrix two_buyers)) row) /\
    ~ In 9 (user_products two_buyers 1).
Proof.
  generalize 9 at 1 3 4. intros p. revert p.
  apply (@collaborative_filtering_all_new_products (reference_runtime no_tfidf)
           two_buyers 1 5 [9; 2]).
  - apply reference_set_iter_ok.
  - vm_compute. reflexivity.
  - vm_compute. reflexivity.
  - vm_compute. discriminate.
Defined.

(* ===================================================================== *)
(** * The content ranking of given seeds *)
(* ===================================================================== *)

(** On a non-empty catalog and log the content ranking is the ranking of
    the seed products. *)
Lemma content_of_seeds (rt : Runtime) (self : RecommenderEngine) (u n : Z)
  (seeds : list Z) :
  rows (products_df self) <> [] -> interactions_df self <> [] ->
  seed_products self u = seeds ->
  content_based_filtering rt self u n =
  (assign_content self, ranking_of_seeds rt self seeds n).
Proof.
  intros P I E. rewrite content_based_filtering_eq by assumption.
  unfold accumulation_order, ranking_of_seeds. rewrite E.
  destruct (content_matrix rt self) as [sim|e]; [|reflexivity].
  cbn [bind].
  destruct (mapM (candidates_of_seed rt (rows (products_df self)) sim) seeds);
    reflexivity.
Qed.

(** The ranking of seeds that designate rows of the similarity matrix,
    written out: the candidates of a seed are read off its row. *)
Lemma ranking_of_seeds_rows (rt : Runtime) (self : RecommenderEngine)
  (seeds : list Z) (n : Z) (tm : Matrix) :
  sorts_ok rt ->
  tfidf rt (content_column (rows (products_df self))) = Some tm ->
  length tm = length (rows (products_df self)) ->
  check_array tm = true ->
  (forall s, In s seeds -> seed_in_range (length (rows (products_df self))) s) ->
  ranking_of_seeds rt self seeds n =
  Ok (slice_to n (set_iter rt
        (Pd.unique
           (filter (fun p => negb (mem p seeds))
              (concat
                 (map (fun s =>
                         map (id_at (rows (products_df self)))
                             (similar_indices rt
                                (nth (row_of_seed (length (rows (products_df self))) s)
                                     (map (fun x => map (fun y => cosine rt x y) tm) tm)
                                     [])))
                      seeds)))))).
Proof.
  intros S T L C R. unfold ranking_of_seeds.
  rewrite (@content_matrix_ok rt self tm T C). cbn [bind].
  set (sim := map (fun x => map (fun y => cosine rt x y) tm) tm).
  rewrite (@mapM_ok _ _ (candidates_of_seed rt (rows (products_df self)) sim)
             (fun s => map (id_at (rows (products_df self)))
                         (similar_indices rt
                            (nth (row_of_seed (length (rows (products_df self))) s)
                                 sim []))) seeds).
  - reflexivity.
  - intros s Hs. apply candidates_of_seed_ok.
    + exact S.
    + unfold sim. rewrite length_map. exact L.
    + rewrite <- L. apply cosine_rows.
    + apply R, Hs.
Qed.

Lemma default_seeds_in_range (N : nat) (s : Z) :
  (3 <= N)%nat -> In s [1; 2; 3] -> seed_in_range N s.
Proof.
  intros H [<-|[<-|[<-|[]]]]; unfold seed_in_range; lia.
Qed.

(** The ranking of the default seeds reads the first three rows of the
    similarity matrix. *)
Lemma ranking_of_default_seeds (rt : Runtime) (self : RecommenderEngine)
  (n : Z) (tm : Matrix) :
  sorts_ok rt ->
  tfidf rt (content_column (rows (products_df self))) = Some tm ->
  length tm = length (rows (products_df self)) ->
  check_array tm = true ->
  (3 <= length (rows (products_df self)))%nat ->
  ranking_of_seeds rt self [1; 2; 3] n =
  Ok (slice_to n (set_iter rt
        (Pd.unique
           (filter (fun p => negb (mem p [1; 2; 3]))
              (concat
                 (map (fun i =>
                         map (id_at (rows (products_df self)))
                             (similar_indices rt
                                (nth i (map (fun x => map (fun y => cosine rt x y) tm) tm)
                                     [])))
                      [0; 1; 2]%nat)))))).
Proof.
  intros S T L C N.
  rewrite (@ranking_of_seeds_rows rt self [1; 2; 3] n tm S T L C)
    by (intros s Hs; apply default_seeds_in_range; assumption).
  reflexivity.
Qed.

(** ** The default seeds on a catalog with ids [1 .. N] *)

Lemma id_at_dense (self : RecommenderEngine) (i : nat) :
  dense_catalog self -> (i < length (rows (products_df self)))%nat ->
  id_at (rows (products_df self)) i = Z.of_nat (S i).
Proof.
  intros D L. unfold id_at.
  destruct (nth_error (rows (products_df self)) i) as [p|] eqn:E.
  - apply (map_nth_error Product.id) in E. rewrite D in E.
    assert (E' : nth_error (map Z.of_nat (seq 1 (length (rows (products_df self))))) i
                 = Some (Z.of_nat (S i))).
    { apply map_nth_error. rewrite nth_error_nth' with (d := O)
        by (rewrite length_seq; exact L).
      rewrite seq_nth by exact L. reflexivity. }
    congruence.
  - apply nth_error_None in E. lia.
Qed.

Lemma NoDup_below_three (l : list nat) :
  NoDup l -> (4 <= length l)%nat -> exists i, In i l /\ (3 <= i)%nat.
Proof.
  intros N L.
  destruct (existsb (fun i => 3 <=? i)%nat l) eqn:E.
  - apply existsb_exists in E. destruct E as (i & Hi & Ei).
    exists i. split; [exact Hi|apply Nat.leb_le, Ei].
  - exfalso.
    assert (I : incl l [0; 1; 2]%nat).
    { intros i Hi.
      assert (Ei : (3 <=? i)%nat = false).
      { destruct (3 <=? i)%nat eqn:B; [|reflexivity].
        assert (existsb (fun i => 3 <=? i)%nat l = true)
          by (apply existsb_exists; exists i; auto).
        congruence. }
      apply Nat.leb_gt in Ei. simpl.
      destruct i as [|[|[|i]]]; auto; lia. }
    pose proof (NoDup_incl_length N I) as B. simpl in B. lia.
Qed.

Lemma similar_indices_many (rt : Runtime) (row : list F64.t) :
  sorts_ok rt -> (5 <= length row)%nat ->
  NoDup (similar_indices rt row) /\ (4 <= length (similar_indices rt row))%nat.
Proof.
  intros S L. unfold similar_indices. rewrite slice_m6_m1.
  pose proof (argsort_perm S row) as P.
  assert (Pr : Permutation (rev (argsort rt row)) (seq 0 (length row)))
    by (rewrite <- Permutation_rev; exact P).
  assert (Nd : NoDup (rev (argsort rt row)))
    by (apply (Permutation_NoDup (Permutation_sym Pr)), seq_NoDup).
  assert (Ld : length (rev (argsort rt row)) = length row)
    by (rewrite (Permutation_length Pr); apply length_seq).
  destruct (rev (argsort rt row)) as [|x d]; [simpl in Ld; lia|].
  cbn [tl]. inversion Nd as [|? ? _ Nd']; subst. simpl in Ld.
  split; [apply NoDup_firstn, Nd'|].
  rewrite length_firstn. lia.
Qed.

(** On a catalog of at least five products with ids [1 .. N] the ranking
    of the default seeds is not empty. *)
Lemma default_ranking_nonempty (rt : Runtime) (self : RecommenderEngine)
  (n : Z) (tm : Matrix) :
  sorts_ok rt -> set_iter_ok rt ->
  tfidf rt (content_column (rows (products_df self))) = Some tm ->
  length tm = length (rows (products_df self)) ->
  check_array tm = true ->
  dense_catalog self ->
  (5 <= length (rows (products_df self)))%nat ->
  1 <= n ->
  exists p l, ranking_of_seeds rt self [1; 2; 3] n = Ok (p :: l).
Proof.
  intros So SI T L C D N Hn.
  rewrite (@ranking_of_default_seeds rt self n tm So T L C) by lia.
  set (sim := map (fun x => map (fun y => cosine rt x y) tm) tm).
  set (ps := rows (products_df self)) in *.
  set (acc := Pd.unique _).
  assert (Ls : length sim = length ps) by (unfold sim; rewrite length_map; exact L).
  assert (Lr : length (nth 0 sim []) = length ps).
  { pose proof (cosine_rows rt tm) as F. fold sim in F. rewrite L in F.
    rewrite Forall_forall in F. apply F, nth_In. lia. }
  destruct (@similar_indices_many rt (nth 0 sim []) So ltac:(lia)) as [Nd Ld].
  destruct (@NoDup_below_three _ Nd Ld) as (i & Hi & Bi).
  assert (Li : (i < length ps)%nat)
    by (rewrite <- Lr; apply (@similar_indices_lt rt _ i So Hi)).
  assert (Ia : In (Z.of_nat (S i)) acc).
  { unfold acc. apply unique_In, filter_In. split.
    - cbn [map concat]. apply in_or_app. left.
      rewrite <- (@id_at_dense self i D Li). apply in_map, Hi.
    - apply negb_true_iff, mem_false. simpl. lia. }
  pose proof (SI acc (unique_NoDup _)) as P.
  destruct (set_iter rt acc) as [|p l] eqn:E.
  - apply Permutation_nil in P. rewrite P in Ia. destruct Ia.
  - exists p. rewrite slice_to_nonneg by lia.
    destruct (Z.to_nat n) as [|k] eqn:Ek; [lia|].
    eexists. reflexivity.
Qed.

Lemma hybrid_fuse_content_nonempty (p : Z) (l : list Z) (n : Z) :
  1 <= n -> exists q l', hybrid_fuse [] (p :: l) n = q :: l'.
Proof.
  intros Hn. rewrite hybrid_fuse_keys.
  pose proof (hybrid_ranked_perm [] (p :: l)) as P.
  assert (I : In p (map fst (sorted (@snd Z F64.t) true (hybrid_scores [] (p :: l))))).
  { apply (Permutation_in _ (Permutation_sym P)), hybrid_scores_In.
    right. left. reflexivity. }
  destruct (map fst (sorted (@snd Z F64.t) true (hybrid_scores [] (p :: l))))
    as [|q k]; [destruct I|].
  exists q. rewrite slice_to_nonneg by lia.
  destruct (Z.to_nat n) as [|m] eqn:Em; [lia|].
  eexists. reflexivity.
Qed.

(* ===================================================================== *)
(** * C6: cold start *)
(* ===================================================================== *)

(** C6, as stated, fails: the catalog holds the ids 10, 20, 30 and 40, user
    99 has no interaction, and the seeds are the products 1, 2 and 3, not
    the three lowest ids 10, 20 and 30. *)
Lemma cold_seeds_not_lowest_ids : ~ cold_seeds_are_lowest_ids sparse_shop 99.
Proof.
  intros H. assert (C : cold_user sparse_shop 99).
  { intros r [<-|[]] U. simpl in U. lia. }
  specialize (H C). vm_compute in H. discriminate H.
Qed.

(** C6 (amended): a user with no purchase and no view gets the seeds 1, 2
    and 3, whatever ids the catalog holds; they are the three lowest ids of
    a catalog of at least three products with ids [1 .. N] in row order.
    Two such users get the same content ranking, for the same [n], on every
    dataset: the empty list when the catalog or the log is empty, and
    otherwise the ranking of those seeds, whose candidates are read from
    the first three rows of the similarity matrix. *)
Theorem cold_start_same_ranking (rt : Runtime) (self : RecommenderEngine)
  (u1 u2 n : Z) (tm : Matrix) :
  cold_user self u1 -> cold_user self u2 ->
  seed_products self u1 = [1; 2; 3] /\
  (dense_catalog self -> (3 <= length (rows (products_df self)))%nat ->
   three_lowest_ids self = [1; 2; 3]) /\
  content_based_filtering rt self u1 n = content_based_filtering rt self u2 n /\
  (rows (products_df self) = [] \/ interactions_df self = [] ->
   content_based_filtering rt self u1 n = (self, Ok [])) /\
  (rows (products_df self) <> [] -> interactions_df self <> [] ->
   content_based_filtering rt self u1 n =
     (assign_content self, ranking_of_seeds rt self [1; 2; 3] n)) /\
  (sorts_ok rt ->
   tfidf rt (content_column (rows (products_df self))) = Some tm ->
   length tm = length (rows (products_df self)) ->
   check_array tm = true ->
   (3 <= length (rows (products_df self)))%nat ->
   ranking_of_seeds rt self [1; 2; 3] n =
   Ok (slice_to n (set_iter rt
         (Pd.unique
            (filter (fun p => negb (mem p [1; 2; 3]))
               (concat
                  (map (fun i =>
                          map (id_at (rows (products_df self)))
                              (similar_indices rt
                                 (nth i (map (fun x => map (fun y => cosine rt x y) tm) tm)
                                      [])))
                       [0; 1; 2]%nat))))))).
Proof.
  intros H1 H2. pose proof (cold_user_seeds H1) as E1.
  pose proof (cold_user_seeds H2) as E2.
  split; [exact E1|]. split; [|split; [|split; [|split]]].
  - intros D L. unfold three_lowest_ids. rewrite D.
    rewrite sorted_unique_range.
    destruct (length (rows (products_df self))) as [|[|[|k]]]; try lia.
    reflexivity.
  - apply content_based_filtering_seeds. congruence.
  - intros E. apply content_based_filtering_empty, E.
  - intros P I. apply content_of_seeds; assumption.
  - intros S T L C N. apply ranking_of_default_seeds; assumption.
Qed.

(** Users 98 and 99, who have no interaction: both are recommended
    product 4. *)
Lemma cold_start_same_ranking_witness :
  seed_products mat_buyer 98 = [1; 2; 3] /\
  three_lowest_ids mat_buyer = [1; 2; 3] /\
  content_based_filtering (reference_runtime tfidf_disjoint) mat_buyer 98 5 =
    content_based_filtering (reference_runtime tfidf_disjoint) mat_buyer 99 5 /\
  content_based_filtering (reference_runtime tfidf_disjoint) mat_buyer 98 5 =
    (assign_content mat_buyer, Ok [4]).
Proof.
  destruct (@cold_start_same_ranking (reference_runtime tfidf_disjoint)
              mat_buyer 98 99 5 disjoint_rows) as (Es & H & E & _ & R & X).
  - intros r [<-|[]] U. simpl in U. lia.
  - intros r [<-|[]] U. simpl in U. lia.
  - split; [exact Es|]. split; [apply H; [reflexivity|simpl; lia]|].
    split; [exact E|].
    rewrite R by discriminate. rewrite X.
    + vm_compute. reflexivity.
    + apply reference_sorts_ok.
    + reflexivity.
    + reflexivity.
    + vm_compute. reflexivity.
    + simpl. lia.
Defined.

(* ===================================================================== *)
(** * C2: unknown users *)
(* ===================================================================== *)

(** C2, as stated, fails: user 99 has no interaction row, and the content
    ranking, seeded with products 1, 2 and 3, recommends product 4. *)
Lemma unknown_user_gets_recommendations :
  ~ unknown_user_gets_nothing (reference_runtime tfidf_disjoint) mat_buyer 99 5.
Proof.
  intros H. destruct H as (_ & H & _).
  - intros r [<-|[]]. simpl. lia.
  - vm_compute in H. discriminate.
Qed.

(** C2 (amended): for a user without any interaction row and every [n],
    the collaborative ranking is the empty list, never an error.  The
    content and hybrid rankings are the empty list when the catalog or the
    interaction log is empty; otherwise the content ranking is the ranking
    of the cold-start seeds 1, 2 and 3, whose candidates are read from the
    first three rows of the similarity matrix, and the hybrid ranking is
    its fusion with the empty collaborative list.  On a catalog of at least
    five products with ids [1 .. N] that the vectorizer accepts, neither is
    empty for [n >= 1]. *)
Theorem unknown_user_rankings (rt : Runtime) (self : RecommenderEngine) (u n : Z)
  (tm : Matrix) :
  unknown_user self u ->
  collaborative_filtering rt self u n = Ok [] /\
  seed_products self u = [1; 2; 3] /\
  (rows (products_df self) = [] \/ interactions_df self = [] ->
   snd (content_based_filtering rt self u n) = Ok [] /\
   snd (hybrid_recommendations rt self u n) = Ok []) /\
  (rows (products_df self) <> [] -> interactions_df self <> [] ->
   content_based_filtering rt self u n =
     (assign_content self, ranking_of_seeds rt self [1; 2; 3] n) /\
   hybrid_recommendations rt self u n =
     (assign_content self,
      content_recs <- ranking_of_seeds rt self [1; 2; 3] n ;;
      Ok (hybrid_fuse [] content_recs n))) /\
  (sorts_ok rt ->
   tfidf rt (content_column (rows (products_df self))) = Some tm ->
   length tm = length (rows (products_df self)) ->
   check_array tm = true ->
   (3 <= length (rows (products_df self)))%nat ->
   ranking_of_seeds rt self [1; 2; 3] n =
   Ok (slice_to n (set_iter rt
         (Pd.unique
            (filter (fun p => negb (mem p [1; 2; 3]))
               (concat
                  (map (fun i =>
                          map (id_at (rows (products_df self)))
                              (similar_indices rt
                                 (nth i (map (fun x => map (fun y => cosine rt x y) tm) tm)
                                      [])))
                       [0; 1; 2]%nat))))))) /\
  (sorts_ok rt -> set_iter_ok rt ->
   tfidf rt (content_column (rows (products_df self))) = Some tm ->
   length tm = length (rows (products_df self)) ->
   check_array tm = true ->
   dense_catalog self ->
   (5 <= length (rows (products_df self)))%nat ->
   interactions_df self <> [] ->
   1 <= n ->
   (exists p l, snd (content_based_filtering rt self u n) = Ok (p :: l)) /\
   (exists p l, snd (hybrid_recommendations rt self u n) = Ok (p :: l))).
Proof.
  intros H.
  assert (Ec : collaborative_filtering rt self u n = Ok [])
    by (apply collaborative_filtering_unknown; intros r I _; apply H, I).
  assert (Es : seed_products self u = [1; 2; 3])
    by (apply cold_user_seeds, unknown_user_cold, H).
  assert (Eh : forall r s,
            content_based_filtering rt self u n = (s, r) ->
            hybrid_recommendations rt self u n =
              (s, content_recs <- r ;; Ok (hybrid_fuse [] content_recs n))).
  { intros r s E. unfold hybrid_recommendations. rewrite Ec, E. reflexivity. }
  split; [exact Ec|]. split; [exact Es|]. split; [|split; [|split]].
  - intros E.
    pose proof (@content_based_filtering_empty rt self u n E) as Et.
    rewrite (Eh _ _ Et), Et. cbn [snd bind]. rewrite hybrid_fuse_nil. auto.
  - intros P I.
    pose proof (@content_of_seeds rt self u n [1; 2; 3] P I Es) as Et.
    split; [exact Et|apply Eh, Et].
  - intros S T L C N. apply ranking_of_default_seeds; assumption.
  - intros S SI T L C D N I Hn.
    assert (P : rows (products_df self) <> [])
      by (intros E; rewrite E in N; simpl in N; lia).
    pose proof (@content_of_seeds rt self u n [1; 2; 3] P I Es) as Et.
    destruct (@default_ranking_nonempty rt self n tm S SI T L C D N Hn)
      as (p & l & R).
    rewrite (Eh _ _ Et), Et. cbn [snd]. rewrite R. cbn [bind].
    split; [eauto|].
    destruct (@hybrid_fuse_content_nonempty p l n Hn) as (q & l' & F).
    rewrite F. eauto.
Qed.

(** User 99, who has no interaction, is recommended product 4. *)
Lemma unknown_user_rankings_witness :
  collaborative_filtering (reference_runtime tfidf_disjoint) mat_buyer 99 5 = Ok [] /\
  seed_products mat_buyer 99 = [1; 2; 3] /\
  content_based_filtering (reference_runtime tfidf_disjoint) mat_buyer 99 5 =
    (assign_content mat_buyer, Ok [4]) /\
  hybrid_recommendations (reference_runtime tfidf_disjoint) mat_buyer 99 5 =
    (assign_content mat_buyer, Ok [4]).
Proof.
  destruct (@unknown_user_rankings (reference_runtime tfidf_disjoint) mat_buyer 99 5
              disjoint_rows) as (Ec & Es & _ & R & X & _).
  - intros r [<-|[]]. simpl. lia.
  - split; [exact Ec|]. split; [exact Es|].
    destruct R as [Rc Rh]; [discriminate|discriminate|].
    rewrite Rc, Rh, X.
    + split; vm_compute; reflexivity.
    + apply reference_sorts_ok.
    + reflexivity.
    + reflexivity.
    + vm_compute. reflexivity.
    + simpl. lia.
Defined.
